(** * pip-accel: configuration handling and requirement descriptors

    A shallow embedding of [pip_accel/config.py] and [pip_accel/req.py].

    Python objects with [cached_property] attributes are modelled as records
    whose cache slots are [option] fields; every method and property is a
    computation in a state-and-exception monad over the object.  What the
    operating system and the libraries answer ([os], [glob], [time],
    [configparser], [pip], [pkg_resources]) is given by a record [World]
    that is passed to every computation.  The parts of [posixpath] and [re]
    that the two modules rely on are modelled in full: joining and
    normalizing pathnames, escaping, parsing and matching the patterns that
    [related_archives] builds.  Text is modelled as strings of 8-bit
    characters; time stamps are numbers ([Z]). *)

From Stdlib Require Import ZArith Ascii String List Bool Lia.
From stdpp Require Import base option list strings gmap.

Open Scope string_scope.

(** ** Python values, exceptions and the monad *)

(** The values that flow through [Config.get]: [None] or a string. *)
Inductive pyval :=
| PyNone
| PyStr (s : string).

(** Truth value testing: [None] and the empty string are false. *)
Definition truthy (v : pyval) : bool :=
  match v with
  | PyNone => false
  | PyStr "" => false
  | PyStr _ => true
  end.

(** [a or b] *)
Definition py_or (a b : pyval) : pyval := if truthy a then a else b.

(** [d.get(k)] on a dictionary of strings. *)
Definition dict_get (d : gmap string string) (k : string) : pyval :=
  match d !! k with
  | Some v => PyStr v
  | None => PyNone
  end.

(** [d.update(pairs)]: the pairs are stored left to right. *)
Definition dict_update (d : gmap string string) (pairs : list (string * string))
  : gmap string string :=
  fold_left (fun acc kv => <[fst kv := snd kv]> acc) pairs d.

(** [pkg_resources.Requirement] *)
Record PkgRequirement := { project_name : string }.

(** The exceptions that the two modules raise or let through. *)
Inductive exception :=
| Exception (msg : string)
| TypeError (msg : string)
| OSError (filename : string)
| ReError (pattern : string)
| ConfigParserError (cls : string) (source : string) (detail : string)
| UnknownDistributionFormat (text : string) (requirement : PkgRequirement)
                            (directory : string).

(** The name of the class of an exception object. *)
Definition exception_class (e : exception) : string :=
  match e with
  | Exception _ => "Exception"
  | TypeError _ => "TypeError"
  | OSError _ => "OSError"
  | ReError _ => "error"
  | ConfigParserError cls _ _ => cls
  | UnknownDistributionFormat _ _ _ => "UnknownDistributionFormat"
  end.

Definition result (A : Type) : Type := (exception + A)%type.

(** Computations on an object of type [S]: a raised exception leaves the
    mutations made before it in place. *)
Definition M (S A : Type) : Type := S -> result A * S.

Definition ret {S A} (a : A) : M S A := fun s => (inr a, s).
Definition raise {S A} (e : exception) : M S A := fun s => (inl e, s).
Definition bind {S A B} (m : M S A) (k : A -> M S B) : M S B :=
  fun s =>
    match m s with
    | (inr a, s') => k a s'
    | (inl e, s') => (inl e, s')
    end.
Definition gets {S A} (f : S -> A) : M S A := fun s => (inr (f s), s).
Definition modify {S} (f : S -> S) : M S unit := fun s => (inr tt, f s).
Definition lift {S A} (r : result A) : M S A := fun s => (r, s).

Notation "'let*' x ':=' m 'in' k" := (bind m (fun x => k))
  (at level 10, x name, m at level 100, k at level 200, only parsing).

(** [for x in xs: body(x)] *)
Fixpoint for_each {S A} (xs : list A) (body : A -> M S unit) : M S unit :=
  match xs with
  | [] => ret tt
  | x :: xs' => let* _ := body x in for_each xs' body
  end.

(** [cached_property]: the first successful read stores the value in the
    instance, later reads return what is stored. *)
Definition cached_property {S A} (slot : S -> option A) (store : A -> S -> S)
    (func : M S A) : M S A :=
  fun s =>
    match slot s with
    | Some v => (inr v, s)
    | None =>
        match func s with
        | (inr v, s') => (inr v, store v s')
        | (inl e, s') => (inl e, s')
        end
    end.

(** [template % args] for a template whose only directives are [%s]. *)
Fixpoint percent (template : string) (args : list string) : string :=
  match template with
  | String "%" (String "s" rest) =>
      match args with
      | a :: args' => a ++ percent rest args'
      | [] => percent rest []
      end
  | String c rest => String c (percent rest args)
  | EmptyString => EmptyString
  end.

(** [sep.join(parts)] *)
Fixpoint str_join (sep : string) (parts : list string) : string :=
  match parts with
  | [] => ""
  | [p] => p
  | p :: rest => p ++ sep ++ str_join sep rest
  end.

(** ** posixpath *)

Module posixpath.

Definition starts_with_sep (p : string) : bool :=
  match p with
  | String "/" _ => true
  | _ => false
  end.

Fixpoint ends_with_sep (p : string) : bool :=
  match p with
  | EmptyString => false
  | String c EmptyString => Ascii.eqb c "/"
  | String _ rest => ends_with_sep rest
  end.

(** [os.path.join(a, b)] *)
Definition join (a b : string) : string :=
  if starts_with_sep b then b
  else if (String.eqb a "" || ends_with_sep a)%bool then a ++ b
  else a ++ "/" ++ b.

(** [os.path.isabs(path)] *)
Definition isabs (path : string) : bool := starts_with_sep path.

(** [path.split('/')] *)
Fixpoint split (path : string) : list string :=
  match path with
  | EmptyString => [""]
  | String c rest =>
      if Ascii.eqb c "/" then "" :: split rest
      else
        match split rest with
        | comp :: comps => String c comp :: comps
        | [] => [String c ""]
        end
  end.

(** The number of leading slashes that [normpath] keeps: one, or two when
    the path starts with exactly two. *)
Definition initial_slashes (path : string) : nat :=
  match path with
  | String "/" (String "/" (String "/" _)) => 1
  | String "/" (String "/" _) => 2
  | String "/" _ => 1
  | _ => 0
  end.

(** One round of the loop of [normpath]; the components kept so far are
    held last first. *)
Definition keep (slashes : nat) (new_comps : list string) (comp : string)
  : list string :=
  if (String.eqb comp "" || String.eqb comp ".")%bool then new_comps
  else if (negb (String.eqb comp "..")
           || (Nat.eqb slashes 0
               && match new_comps with [] => true | _ => false end)
           || match new_comps with
              | last :: _ => String.eqb last ".."
              | [] => false
              end)%bool
  then comp :: new_comps
  else match new_comps with
       | _ :: others => others
       | [] => []
       end.

(** [os.path.normpath(path)] *)
Definition normpath (path : string) : string :=
  if String.eqb path "" then "."
  else
    let slashes := initial_slashes path in
    let comps := rev (fold_left (keep slashes) (split path) []) in
    let path :=
      (match slashes with 0 => "" | 1 => "/" | _ => "//" end)
      ++ str_join "/" comps in
    if String.eqb path "" then "." else path.

(** [os.path.abspath(path)], given the current directory. *)
Definition abspath (cwd path : string) : string :=
  normpath (if isabs path then path else join cwd path).

(** A pathname without a trailing separator, or the root. *)
Definition normalized (p : string) : bool :=
  (negb (ends_with_sep p) || String.eqb p "/" || String.eqb p "//")%bool.

End posixpath.

(** ** Characters *)

Definition between (lo hi : nat) (c : ascii) : bool :=
  (Nat.leb lo (nat_of_ascii c) && Nat.leb (nat_of_ascii c) hi)%bool.

Definition is_upper (c : ascii) : bool := between 65 90 c.
Definition is_lower (c : ascii) : bool := between 97 122 c.
Definition is_digit (c : ascii) : bool := between 48 57 c.
Definition is_octdigit (c : ascii) : bool := between 48 55 c.

(** The characters of the class [[A-Za-z0-9]]. *)
Definition is_alnum (c : ascii) : bool :=
  (is_upper c || is_lower c || is_digit c)%bool.

(** ASCII lower-casing, as done for [re.IGNORECASE] on 8-bit strings. *)
Definition lower (c : ascii) : ascii :=
  if is_upper c then ascii_of_nat (nat_of_ascii c + 32) else c.

Definition NUL : ascii := Ascii.zero.
Definition LF : ascii := ascii_of_nat 10.

(** The first character of [s] is [c]. *)
Definition starts_with (c : ascii) (s : string) : bool :=
  match s with
  | String c' _ => Ascii.eqb c' c
  | EmptyString => false
  end.

(** [s[1:]] *)
Definition tail (s : string) : string :=
  match s with
  | String _ rest => rest
  | EmptyString => EmptyString
  end.

(** ** The fragment of the [re] module that the package uses *)

Module re.

(** [re.escape(pattern)] as Python 2 has it: every character outside
    [[A-Za-z0-9]] is backslash-escaped, the NUL character is written as an
    octal escape. (Later releases escape fewer characters; the escaped
    text stands for the same literal text.) *)
Fixpoint escape (pattern : string) : string :=
  match pattern with
  | EmptyString => EmptyString
  | String c rest =>
      (if is_alnum c then String c ""
       else if Ascii.eqb c NUL then "\000"
       else String "\" (String c "")) ++ escape rest
  end.

(** Parsed patterns. *)
Inductive regex :=
| Empty
| Literal (c : ascii)
| InSet (cs : list ascii)
| AtBeginning
| AtEnd
| Seq (r1 r2 : regex)
| Branch (r1 r2 : regex)
| Subpattern (r : regex).

(** The characters of a set [[...]], after the opening bracket. Negated
    sets, ranges and escapes inside a set are outside the fragment. *)
Fixpoint parse_set (first : bool) (s : string) : option (list ascii * string) :=
  match s with
  | EmptyString => None
  | String c s' =>
      if (Ascii.eqb c "]" && negb first)%bool then Some ([], s')
      else if Ascii.eqb c "\" then None
      else if starts_with "-" s' then
        if starts_with "]" (tail s') then Some ([c; "-"%char], tail (tail s'))
        else None
      else
        match parse_set false s' with
        | Some (cs, r) => Some (c :: cs, r)
        | None => None
        end
  end.

Definition octal_value (c : ascii) : nat := nat_of_ascii c - 48.

(** The octal escape [\0], followed by at most two more octal digits. *)
Definition parse_octal (s : string) : ascii * string :=
  match s with
  | String d1 (String d2 s') =>
      if (is_octdigit d1 && is_octdigit d2)%bool
      then (ascii_of_nat (8 * octal_value d1 + octal_value d2), s')
      else if is_octdigit d1 then (ascii_of_nat (octal_value d1), String d2 s')
      else (NUL, s)
  | String d1 EmptyString =>
      if is_octdigit d1 then (ascii_of_nat (octal_value d1), EmptyString)
      else (NUL, s)
  | EmptyString => (NUL, s)
  end.

(** Characters that start a construct outside the fragment. *)
Definition unsupported (c : ascii) : bool :=
  (Ascii.eqb c "." || Ascii.eqb c "*" || Ascii.eqb c "+" || Ascii.eqb c "?"
   || Ascii.eqb c "{")%bool.

Definition then_seq (item : regex) (rest : option (regex * string))
  : option (regex * string) :=
  match rest with
  | Some (r, s) => Some (Seq item r, s)
  | None => None
  end.

(** [parse_sub] reads alternatives separated by [|], [parse_seq] reads the
    items of one alternative up to [|], [)] or the end of the pattern. *)
Fixpoint parse_sub (fuel : nat) (s : string) : option (regex * string) :=
  match fuel with
  | O => None
  | S f =>
      match parse_seq f s with
      | Some (r, rest) =>
          if starts_with "|" rest then
            match parse_sub f (tail rest) with
            | Some (r', rest') => Some (Branch r r', rest')
            | None => None
            end
          else Some (r, rest)
      | None => None
      end
  end
with parse_seq (fuel : nat) (s : string) : option (regex * string) :=
  match fuel with
  | O => None
  | S f =>
      match s with
      | EmptyString => Some (Empty, EmptyString)
      | String c s' =>
          if (Ascii.eqb c "|" || Ascii.eqb c ")")%bool then Some (Empty, s)
          else if Ascii.eqb c "\" then
            match s' with
            | EmptyString => None
            | String e s'' =>
                if Ascii.eqb e "0" then
                  then_seq (Literal (fst (parse_octal s'')))
                           (parse_seq f (snd (parse_octal s'')))
                else if is_alnum e then None
                else then_seq (Literal e) (parse_seq f s'')
            end
          else if Ascii.eqb c "[" then
            if starts_with "^" s' then None
            else
              match parse_set true s' with
              | Some (cs, s'') => then_seq (InSet cs) (parse_seq f s'')
              | None => None
              end
          else if Ascii.eqb c "(" then
            if starts_with "?" s' then None
            else
              match parse_sub f s' with
              | Some (r, rest) =>
                  if starts_with ")" rest
                  then then_seq (Subpattern r) (parse_seq f (tail rest))
                  else None
              | None => None
              end
          else if Ascii.eqb c "^" then then_seq AtBeginning (parse_seq f s')
          else if Ascii.eqb c "$" then then_seq AtEnd (parse_seq f s')
          else if unsupported c then None
          else then_seq (Literal c) (parse_seq f s')
      end
  end.

(** [re.compile(pattern)]: a pattern that does not parse, or that uses a
    construct outside the fragment, is refused with [re.error]. The patterns
    of [related_archives] are never refused. *)
Definition compile (pattern : string) : result regex :=
  match parse_sub (S (S (String.length pattern))) pattern with
  | Some (r, EmptyString) => inr r
  | _ => inl (ReError pattern)
  end.

(** Comparison of a pattern character with a subject character. *)
Definition chr_eq (ignorecase : bool) (a b : ascii) : bool :=
  if ignorecase then Ascii.eqb (lower a) (lower b) else Ascii.eqb a b.

(** The backtracking matcher: [k] is what remains to be matched, [pos] the
    number of characters consumed so far. *)
Fixpoint run (ignorecase : bool) (r : regex) (k : nat -> string -> bool)
    (pos : nat) (s : string) : bool :=
  match r with
  | Empty => k pos s
  | Literal c =>
      match s with
      | String c' s' => (chr_eq ignorecase c c' && k (S pos) s')%bool
      | EmptyString => false
      end
  | InSet cs =>
      match s with
      | String c' s' =>
          (existsb (fun c => chr_eq ignorecase c c') cs && k (S pos) s')%bool
      | EmptyString => false
      end
  | AtBeginning => (Nat.eqb pos 0 && k pos s)%bool
  | AtEnd =>
      ((String.eqb s "" || String.eqb s (String LF ""))%bool && k pos s)%bool
  | Seq r1 r2 => run ignorecase r1 (fun p t => run ignorecase r2 k p t) pos s
  | Branch r1 r2 =>
      (run ignorecase r1 k pos s || run ignorecase r2 k pos s)%bool
  | Subpattern r' => run ignorecase r' k pos s
  end.

(** [compiled.match(string)] as a truth value. *)
Definition match_ (ignorecase : bool) (r : regex) (s : string) : bool :=
  run ignorecase r (fun _ _ => true) 0 s.

End re.

(** ** Objects of pip, pkg_resources and the standard library *)

(** [pip.req.InstallRequirement], with what [comes_from] may hold. *)
Inductive InstallRequirement :=
| Build_InstallRequirement (req : PkgRequirement) (source_dir : string)
    (editable : bool) (comes_from : ComesFrom)
with ComesFrom :=
| ComesFromNone
| ComesFromText (line : string)
| ComesFromRequirement (parent : InstallRequirement).

Definition req (r : InstallRequirement) : PkgRequirement :=
  let '(Build_InstallRequirement x _ _ _) := r in x.
Definition source_dir (r : InstallRequirement) : string :=
  let '(Build_InstallRequirement _ x _ _) := r in x.
Definition editable (r : InstallRequirement) : bool :=
  let '(Build_InstallRequirement _ _ x _) := r in x.
Definition comes_from (r : InstallRequirement) : ComesFrom :=
  let '(Build_InstallRequirement _ _ _ x) := r in x.

(** [isinstance(x, InstallRequirement)] *)
Definition isinstance_InstallRequirement (x : ComesFrom) : bool :=
  match x with
  | ComesFromRequirement _ => true
  | _ => false
  end.

(** [email.message.Message]: the headers of a [PKG-INFO] file. *)
Definition Message : Type := list (string * string).

Definition lower_string (s : string) : string :=
  string_of_list_ascii (map lower (list_ascii_of_string s)).

(** [message[name]]: the first header of that name, compared without
    regard to case, or [None]. *)
Fixpoint message_getitem (m : Message) (name : string) : pyval :=
  match m with
  | [] => PyNone
  | (k, v) :: rest =>
      if String.eqb (lower_string k) (lower_string name) then PyStr v
      else message_getitem rest name
  end.

(** [pkg_resources.Distribution] *)
Record Distribution := { dist_version : string }.

(** What [RawConfigParser.read] makes of one file: the file could not be
    opened (the returned list of loaded files is empty), the parser raised
    one of its errors, or the file was parsed into sections, each with the
    pairs that [items] reports. *)
Inductive read_outcome :=
| Unreadable
| Malformed (cls : string) (detail : string)
| Parsed (sections : list (string * list (string * string))).

Definition has_section (sections : list (string * list (string * string)))
    (name : string) : bool :=
  existsb (fun sec => String.eqb (fst sec) name) sections.

Fixpoint items (sections : list (string * list (string * string)))
    (name : string) : list (string * string) :=
  match sections with
  | [] => []
  | (n, kvs) :: rest => if String.eqb n name then kvs else items rest name
  end.

(** The process environment, the file system and the libraries at one
    moment, as far as the two modules consult them. *)
Record World := {
  environ : gmap string string;
  getuid : nat;
  isfile : string -> bool;
  glob : string -> list string;
  listdir : string -> result (list string);
  getmtime : string -> result Z;
  time : Z;
  getcwd : string;
  expanduser : string -> string;
  parser_read : string -> read_outcome;
  pkg_info : InstallRequirement -> Message;
  find_distributions : string -> list Distribution;
  ARCHIVE_EXTENSIONS : list string
}.

(** [humanfriendly.parse_path(pathname)]: the home directory expanded, the
    result made absolute and normalized. *)
Definition parse_path (w : World) (pathname : string) : string :=
  posixpath.abspath (getcwd w) (expanduser w pathname).

Arguments parse_path : simpl never.

(** ** config.py *)

Module config.

Definition LOCAL_CONFIG : string := "~/.pip-accel/pip-accel.conf".
Definition GLOBAL_CONFIG : string := "/etc/pip-accel.conf".

Record Config := {
  configuration : gmap string string;
  environment : gmap string string;
  cached_available_configuration_files : option (list string);
  cached_source_index : option string;
  cached_binary_cache : option string;
  cached_data_directory : option string
}.

Definition store_available_configuration_files (v : list string)
    (self : Config) : Config :=
  {| configuration := configuration self;
     environment := environment self;
     cached_available_configuration_files := Some v;
     cached_source_index := cached_source_index self;
     cached_binary_cache := cached_binary_cache self;
     cached_data_directory := cached_data_directory self |}.

Definition store_source_index (v : string) (self : Config) : Config :=
  {| configuration := configuration self;
     environment := environment self;
     cached_available_configuration_files :=
       cached_available_configuration_files self;
     cached_source_index := Some v;
     cached_binary_cache := cached_binary_cache self;
     cached_data_directory := cached_data_directory self |}.

Definition store_binary_cache (v : string) (self : Config) : Config :=
  {| configuration := configuration self;
     environment := environment self;
     cached_available_configuration_files :=
       cached_available_configuration_files self;
     cached_source_index := cached_source_index self;
     cached_binary_cache := Some v;
     cached_data_directory := cached_data_directory self |}.

Definition store_data_directory (v : string) (self : Config) : Config :=
  {| configuration := configuration self;
     environment := environment self;
     cached_available_configuration_files :=
       cached_available_configuration_files self;
     cached_source_index := cached_source_index self;
     cached_binary_cache := cached_binary_cache self;
     cached_data_directory := Some v |}.

Definition set_configuration (d : gmap string string) (self : Config)
  : Config :=
  {| configuration := d;
     environment := environment self;
     cached_available_configuration_files :=
       cached_available_configuration_files self;
     cached_source_index := cached_source_index self;
     cached_binary_cache := cached_binary_cache self;
     cached_data_directory := cached_data_directory self |}.

(** [parse_path(value)]; a value that is not a string is a type error. *)
Definition parse_path_of {S} (w : World) (v : pyval) : M S string :=
  match v with
  | PyStr s => ret (parse_path w s)
  | PyNone => raise (TypeError "expected a pathname, not None")
  end.

Definition available_configuration_files (w : World)
  : M Config (list string) :=
  cached_property cached_available_configuration_files
    store_available_configuration_files
    (let* env := gets environment in
     let known_files :=
       [PyStr GLOBAL_CONFIG; PyStr LOCAL_CONFIG;
        dict_get env "PIP_ACCEL_CONFIG"] in
     let absolute_paths :=
       omap (fun pathname =>
               match pathname with
               | PyStr p => if truthy pathname then Some (parse_path w p)
                            else None
               | PyNone => None
               end) known_files in
     ret (List.filter (isfile w) absolute_paths)).

Definition load_configuration_file (w : World) (configuration_file : string)
  : M Config unit :=
  let configuration_file := parse_path w configuration_file in
  match parser_read w configuration_file with
  | Malformed cls detail =>
      raise (ConfigParserError cls configuration_file detail)
  | Unreadable =>
      let msg := "Failed to load configuration file! (%s)" in
      raise (Exception (percent msg [configuration_file]))
  | Parsed sections =>
      if negb (has_section sections "pip-accel") then
        let msg := "Missing 'pip-accel' section in configuration file! (%s)" in
        raise (Exception (percent msg [configuration_file]))
      else
        modify (fun self =>
                  set_configuration
                    (dict_update (configuration self)
                                 (items sections "pip-accel")) self)
  end.

(** The object as [__init__] has it before any file is loaded. *)
Definition blank (w : World) (load_environment_variables : bool) : Config :=
  {| configuration := ∅;
     environment := if load_environment_variables then environ w else ∅;
     cached_available_configuration_files := None;
     cached_source_index := None;
     cached_binary_cache := None;
     cached_data_directory := None |}.

(** [Config.__init__] run on the blank object. *)
Definition init_body (w : World) (load_configuration_files : bool)
  : M Config unit :=
  if load_configuration_files then
    let* files := available_configuration_files w in
    for_each files (load_configuration_file w)
  else ret tt.

(** [Config(load_configuration_files, load_environment_variables)] *)
Definition init (w : World)
    (load_configuration_files load_environment_variables : bool)
  : result Config :=
  match init_body w load_configuration_files
                  (blank w load_environment_variables) with
  | (inr _, self) => inr self
  | (inl e, _) => inl e
  end.

Definition get (environment_variable configuration_option : string)
    (default : pyval) : M Config pyval :=
  gets (fun self =>
          py_or (py_or (dict_get (environment self) environment_variable)
                       (dict_get (configuration self) configuration_option))
                default).

Definition data_directory (w : World) : M Config string :=
  cached_property cached_data_directory store_data_directory
    (let* v := get "PIP_ACCEL_CACHE" "data-directory"
            (PyStr (if Nat.eqb (getuid w) 0 then "/var/cache/pip-accel"
                    else "~/.pip-accel")) in
     parse_path_of w v).

Definition source_index (w : World) : M Config string :=
  cached_property cached_source_index store_source_index
    (let* d := data_directory w in ret (posixpath.join d "sources")).

Definition binary_cache (w : World) : M Config string :=
  cached_property cached_binary_cache store_binary_cache
    (let* d := data_directory w in ret (posixpath.join d "binaries")).

(** What a caller may do with a configuration object. *)
Inductive call :=
| AvailableConfigurationFiles
| LoadConfigurationFile (configuration_file : string)
| Get (environment_variable configuration_option : string) (default : pyval)
| DataDirectory
| SourceIndex
| BinaryCache.

(** The object after one call, whether the call returned or raised. *)
Definition perform (w : World) (c : call) (self : Config) : Config :=
  match c with
  | AvailableConfigurationFiles => snd (available_configuration_files w self)
  | LoadConfigurationFile f => snd (load_configuration_file w f self)
  | Get ev opt d => snd (get ev opt d self)
  | DataDirectory => snd (data_directory w self)
  | SourceIndex => snd (source_index w self)
  | BinaryCache => snd (binary_cache w self)
  end.

(** The object after a sequence of calls. *)
Definition after (w : World) (calls : list call) (self : Config) : Config :=
  fold_left (fun s c => perform w c s) calls self.

End config.

(** ** req.py *)

Module req.

Record Requirement := {
  pip_requirement : InstallRequirement;
  setuptools_requirement : PkgRequirement;
  cached_name : option (string);
  cached_version : option (pyval);
  cached_related_archives : option (list string);
  cached_last_modified : option (Z);
  cached_source_directory : option (string);
  cached_is_wheel : option (bool);
  cached_is_transitive : option (bool);
  cached_is_direct : option (bool);
  cached_is_editable : option (bool);
  cached_sdist_metadata : option (Message);
  cached_wheel_metadata : option (Distribution)
}.

Definition store_name (v : string) (self : Requirement) : Requirement :=
  {| pip_requirement := pip_requirement self;
     setuptools_requirement := setuptools_requirement self;
     cached_name := Some v;
     cached_version := cached_version self;
     cached_related_archives := cached_related_archives self;
     cached_last_modified := cached_last_modified self;
     cached_source_directory := cached_source_directory self;
     cached_is_wheel := cached_is_wheel self;
     cached_is_transitive := cached_is_transitive self;
     cached_is_direct := cached_is_direct self;
     cached_is_editable := cached_is_editable self;
     cached_sdist_metadata := cached_sdist_metadata self;
     cached_wheel_metadata := cached_wheel_metadata self |}.

Definition store_version (v : pyval) (self : Requirement) : Requirement :=
  {| pip_requirement := pip_requirement self;
     setuptools_requirement := setuptools_requirement self;
     cached_name := cached_name self;
     cached_version := Some v;
     cached_related_archives := cached_related_archives self;
     cached_last_modified := cached_last_modified self;
     cached_source_directory := cached_source_directory self;
     cached_is_wheel := cached_is_wheel self;
     cached_is_transitive := cached_is_transitive self;
     cached_is_direct := cached_is_direct self;
     cached_is_editable := cached_is_editable self;
     cached_sdist_metadata := cached_sdist_metadata self;
     cached_wheel_metadata := cached_wheel_metadata self |}.

Definition store_related_archives (v : list string) (self : Requirement) : Requirement :=
  {| pip_requirement := pip_requirement self;
     setuptools_requirement := setuptools_requirement self;
     cached_name := cached_name self;
     cached_version := cached_version self;
     cached_related_archives := Some v;
     cached_last_modified := cached_last_modified self;
     cached_source_directory := cached_source_directory self;
     cached_is_wheel := cached_is_wheel self;
     cached_is_transitive := cached_is_transitive self;
     cached_is_direct := cached_is_direct self;
     cached_is_editable := cached_is_editable self;
     cached_sdist_metadata := cached_sdist_metadata self;
     cached_wheel_metadata := cached_wheel_metadata self |}.

Definition store_last_modified (v : Z) (self : Requirement) : Requirement :=
  {| pip_requirement := pip_requirement self;
     setuptools_requirement := setuptools_requirement self;
     cached_name := cached_name self;
     cached_version := cached_version self;
     cached_related_archives := cached_related_archives self;
     cached_last_modified := Some v;
     cached_source_directory := cached_source_directory self;
     cached_is_wheel := cached_is_wheel self;
     cached_is_transitive := cached_is_transitive self;
     cached_is_direct := cached_is_direct self;
     cached_is_editable := cached_is_editable self;
     cached_sdist_metadata := cached_sdist_metadata self;
     cached_wheel_metadata := cached_wheel_metadata self |}.

Definition store_source_directory (v : string) (self : Requirement) : Requirement :=
  {| pip_requirement := pip_requirement self;
     setuptools_requirement := setuptools_requirement self;
     cached_name := cached_name self;
     cached_version := cached_version self;
     cached_related_archives := cached_related_archives self;
     cached_last_modified := cached_last_modified self;
     cached_source_directory := Some v;
     cached_is_wheel := cached_is_wheel self;
     cached_is_transitive := cached_is_transitive self;
     cached_is_direct := cached_is_direct self;
     cached_is_editable := cached_is_editable self;
     cached_sdist_metadata := cached_sdist_metadata self;
     cached_wheel_metadata := cached_wheel_metadata self |}.

Definition store_is_wheel (v : bool) (self : Requirement) : Requirement :=
  {| pip_requirement := pip_requirement self;
     setuptools_requirement := setuptools_requirement self;
     cached_name := cached_name self;
     cached_version := cached_version self;
     cached_related_archives := cached_related_archives self;
     cached_last_modified := cached_last_modified self;
     cached_source_directory := cached_source_directory self;
     cached_is_wheel := Some v;
     cached_is_transitive := cached_is_transitive self;
     cached_is_direct := cached_is_direct self;
     cached_is_editable := cached_is_editable self;
     cached_sdist_metadata := cached_sdist_metadata self;
     cached_wheel_metadata := cached_wheel_metadata self |}.

Definition store_is_transitive (v : bool) (self : Requirement) : Requirement :=
  {| pip_requirement := pip_requirement self;
     setuptools_requirement := setuptools_requirement self;
     cached_name := cached_name self;
     cached_version := cached_version self;
     cached_related_archives := cached_related_archives self;
     cached_last_modified := cached_last_modified self;
     cached_source_directory := cached_source_directory self;
     cached_is_wheel := cached_is_wheel self;
     cached_is_transitive := Some v;
     cached_is_direct := cached_is_direct self;
     cached_is_editable := cached_is_editable self;
     cached_sdist_metadata := cached_sdist_metadata self;
     cached_wheel_metadata := cached_wheel_metadata self |}.

Definition store_is_direct (v : bool) (self : Requirement) : Requirement :=
  {| pip_requirement := pip_requirement self;
     setuptools_requirement := setuptools_requirement self;
     cached_name := cached_name self;
     cached_version := cached_version self;
     cached_related_archives := cached_related_archives self;
     cached_last_modified := cached_last_modified self;
     cached_source_directory := cached_source_directory self;
     cached_is_wheel := cached_is_wheel self;
     cached_is_transitive := cached_is_transitive self;
     cached_is_direct := Some v;
     cached_is_editable := cached_is_editable self;
     cached_sdist_metadata := cached_sdist_metadata self;
     cached_wheel_metadata := cached_wheel_metadata self |}.

Definition store_is_editable (v : bool) (self : Requirement) : Requirement :=
  {| pip_requirement := pip_requirement self;
     setuptools_requirement := setuptools_requirement self;
     cached_name := cached_name self;
     cached_version := cached_version self;
     cached_related_archives := cached_related_archives self;
     cached_last_modified := cached_last_modified self;
     cached_source_directory := cached_source_directory self;
     cached_is_wheel := cached_is_wheel self;
     cached_is_transitive := cached_is_transitive self;
     cached_is_direct := cached_is_direct self;
     cached_is_editable := Some v;
     cached_sdist_metadata := cached_sdist_metadata self;
     cached_wheel_metadata := cached_wheel_metadata self |}.

Definition store_sdist_metadata (v : Message) (self : Requirement) : Requirement :=
  {| pip_requirement := pip_requirement self;
     setuptools_requirement := setuptools_requirement self;
     cached_name := cached_name self;
     cached_version := cached_version self;
     cached_related_archives := cached_related_archives self;
     cached_last_modified := cached_last_modified self;
     cached_source_directory := cached_source_directory self;
     cached_is_wheel := cached_is_wheel self;
     cached_is_transitive := cached_is_transitive self;
     cached_is_direct := cached_is_direct self;
     cached_is_editable := cached_is_editable self;
     cached_sdist_metadata := Some v;
     cached_wheel_metadata := cached_wheel_metadata self |}.

Definition store_wheel_metadata (v : Distribution) (self : Requirement) : Requirement :=
  {| pip_requirement := pip_requirement self;
     setuptools_requirement := setuptools_requirement self;
     cached_name := cached_name self;
     cached_version := cached_version self;
     cached_related_archives := cached_related_archives self;
     cached_last_modified := cached_last_modified self;
     cached_source_directory := cached_source_directory self;
     cached_is_wheel := cached_is_wheel self;
     cached_is_transitive := cached_is_transitive self;
     cached_is_direct := cached_is_direct self;
     cached_is_editable := cached_is_editable self;
     cached_sdist_metadata := cached_sdist_metadata self;
     cached_wheel_metadata := Some v |}.

(** A descriptor together with the configuration object it refers to: the
    configuration is shared, so what a descriptor caches in it is seen by
    every other descriptor that is given the same object. *)
Record Store := {
  config : config.Config;
  self : Requirement
}.

Definition on_self {A} (m : M Requirement A) : M Store A :=
  fun st =>
    let '(r, s) := m (self st) in (r, {| config := config st; self := s |}).

Definition on_config {A} (m : M config.Config A) : M Store A :=
  fun st =>
    let '(r, c) := m (config st) in (r, {| config := c; self := self st |}).

(** A [cached_property] of the descriptor. *)
Definition cached {A} (slot : Requirement -> option A)
    (store : A -> Requirement -> Requirement) (func : M Store A) : M Store A :=
  cached_property (fun st => slot (self st))
    (fun v st => {| config := config st; self := store v (self st) |}) func.

(** [Requirement(config, requirement)] *)
Definition init (requirement : InstallRequirement) : Requirement :=
  {| pip_requirement := requirement;
     setuptools_requirement := req requirement;
     cached_name := None;
     cached_version := None;
     cached_related_archives := None;
     cached_last_modified := None;
     cached_source_directory := None;
     cached_is_wheel := None;
     cached_is_transitive := None;
     cached_is_direct := None;
     cached_is_editable := None;
     cached_sdist_metadata := None;
     cached_wheel_metadata := None |}.

Definition escape_name_callback (character : ascii) : string :=
  if (Ascii.eqb character "-" || Ascii.eqb character "_")%bool then "[-_]"
  else String "\" (String character "").

(** [re.sub('[^A-Za-z0-9]', escape_name_callback, requirement_name)] *)
Fixpoint escape_name (requirement_name : string) : string :=
  match requirement_name with
  | EmptyString => EmptyString
  | String c rest =>
      (if negb (is_alnum c) then escape_name_callback c else String c "")
      ++ escape_name rest
  end.

Definition both_text : string :=
  "
                The unpacked distribution of {requirement} in {directory} looks
                like a source distribution and a wheel distribution, I'm
                confused!
            ".

Definition neither_text : string :=
  "
                The unpacked distribution of {requirement} in {directory}
                doesn't look like a source distribution and also doesn't look
                like a wheel distribution, I'm confused!
            ".

Definition name : M Store string :=
  cached cached_name store_name
    (on_self (gets (fun self => project_name (setuptools_requirement self)))).

Definition source_directory : M Store string :=
  cached cached_source_directory store_source_directory
    (on_self (gets (fun self => source_dir (pip_requirement self)))).

Definition is_wheel (w : World) : M Store bool :=
  cached cached_is_wheel store_is_wheel
    (let* d := source_directory in
     let probably_sdist := isfile w (posixpath.join d "setup.py") in
     let* d := source_directory in
     let probably_wheel :=
       Nat.ltb 0 (length (glob w (posixpath.join
                                    (posixpath.join d "*.dist-info")
                                    "WHEEL"))) in
     if (probably_wheel && negb probably_sdist)%bool then ret true
     else if (probably_sdist && negb probably_wheel)%bool then ret false
     else if (probably_sdist && probably_wheel)%bool then
       let* requirement := on_self (gets setuptools_requirement) in
       let* directory := source_directory in
       raise (UnknownDistributionFormat both_text requirement directory)
     else
       let* requirement := on_self (gets setuptools_requirement) in
       let* directory := source_directory in
       raise (UnknownDistributionFormat neither_text requirement directory)).

Definition is_transitive : M Store bool :=
  cached cached_is_transitive store_is_transitive
    (on_self (gets (fun self =>
       isinstance_InstallRequirement (comes_from (pip_requirement self))))).

Definition is_direct : M Store bool :=
  cached cached_is_direct store_is_direct
    (let* t := is_transitive in ret (negb t)).

Definition is_editable : M Store bool :=
  cached cached_is_editable store_is_editable
    (on_self (gets (fun self => editable (pip_requirement self)))).

Definition sdist_metadata (w : World) : M Store Message :=
  cached cached_sdist_metadata store_sdist_metadata
    (let* wheel := is_wheel w in
     if wheel then raise (TypeError "Requirement is not a source distribution!")
     else on_self (gets (fun self => pkg_info w (pip_requirement self)))).

Definition wheel_metadata (w : World) : M Store Distribution :=
  cached cached_wheel_metadata store_wheel_metadata
    (let* wheel := is_wheel w in
     if negb wheel then
       raise (TypeError "Requirement is not a wheel distribution!")
     else
       let* d := source_directory in
       match find_distributions w d with
       | distribution :: _ => ret distribution
       | [] =>
           let msg := "pkg_resources didn't find a wheel distribution in %s!" in
           let* d := source_directory in
           raise (Exception (percent msg [d]))
       end).

Definition version (w : World) : M Store pyval :=
  cached cached_version store_version
    (let* wheel := is_wheel w in
     if wheel then
       let* metadata := wheel_metadata w in ret (PyStr (dist_version metadata))
     else
       let* metadata := sdist_metadata w in
       ret (message_getitem metadata "Version")).

(** [re.escape(value)]; a value that is not a string is a type error. *)
Definition escape_of {S} (v : pyval) : M S string :=
  match v with
  | PyStr s => ret (re.escape s)
  | PyNone => raise (TypeError "expected string or buffer")
  end.

(** [[os.path.join(self.config.source_index, fn) for fn in entries
      if compiled_pattern.match(fn)]] *)
Fixpoint join_matching (w : World) (compiled_pattern : re.regex)
    (entries : list string) : M Store (list string) :=
  match entries with
  | [] => ret []
  | fn :: rest =>
      if re.match_ true compiled_pattern fn then
        let* d := on_config (config.source_index w) in
        let* found := join_matching w compiled_pattern rest in
        ret (posixpath.join d fn :: found)
      else join_matching w compiled_pattern rest
  end.

Definition related_archives (w : World) : M Store (list string) :=
  cached cached_related_archives store_related_archives
    (let* n := name in
     let name_pattern := escape_name n in
     let* v := version w in
     let* version_pattern := escape_of v in
     let extension_pattern :=
       str_join "|"
         (map re.escape
              (List.filter (fun ext => negb (String.eqb ext ".whl"))
                           (ARCHIVE_EXTENSIONS w))) in
     let pattern :=
       percent "^%s-%s(%s)$"
               [name_pattern; version_pattern; extension_pattern] in
     let* compiled_pattern := lift (re.compile pattern) in
     let* d := on_config (config.source_index w) in
     let* entries := lift (listdir w d) in
     join_matching w compiled_pattern entries).

(** [list(map(os.path.getmtime, pathnames))] *)
Fixpoint getmtimes (w : World) (pathnames : list string) : result (list Z) :=
  match pathnames with
  | [] => inr []
  | p :: rest =>
      match getmtime w p with
      | inl e => inl e
      | inr t =>
          match getmtimes w rest with
          | inl e => inl e
          | inr ts => inr (t :: ts)
          end
      end
  end.

(** [max(values)] for a list that is not empty. *)
Definition list_max (first : Z) (others : list Z) : Z :=
  fold_left Z.max others first.

Definition last_modified (w : World) : M Store Z :=
  cached cached_last_modified store_last_modified
    (let* archives := related_archives w in
     let* mtimes := lift (getmtimes w archives) in
     match mtimes with
     | t :: ts => ret (list_max t ts)
     | [] => ret (time w)
     end).

(** The descriptor as constructed, next to its configuration object. *)
Definition fresh (c : config.Config) (requirement : InstallRequirement)
  : Store :=
  {| config := c; self := init requirement |}.

(** The attributes of a descriptor and the values they hold. *)
Inductive attribute :=
| Name
| Version
| RelatedArchives
| LastModified
| SourceDirectory
| IsWheel
| IsTransitive
| IsDirect
| IsEditable
| SdistMetadata
| WheelMetadata.

Inductive value :=
| VStr (s : string)
| VVal (v : pyval)
| VList (l : list string)
| VNum (z : Z)
| VBool (b : bool)
| VMessage (m : Message)
| VDist (d : Distribution).

Definition returning {S A B} (f : A -> B) (m : M S A) : M S B :=
  let* a := m in ret (f a).

(** Reading an attribute. *)
Definition read (w : World) (a : attribute) : M Store value :=
  match a with
  | Name => returning VStr name
  | Version => returning VVal (version w)
  | RelatedArchives => returning VList (related_archives w)
  | LastModified => returning VNum (last_modified w)
  | SourceDirectory => returning VStr source_directory
  | IsWheel => returning VBool (is_wheel w)
  | IsTransitive => returning VBool is_transitive
  | IsDirect => returning VBool is_direct
  | IsEditable => returning VBool is_editable
  | SdistMetadata => returning VMessage (sdist_metadata w)
  | WheelMetadata => returning VDist (wheel_metadata w)
  end.

(** What the descriptor has cached for an attribute. *)
Definition slot (a : attribute) (r : Requirement) : option value :=
  match a with
  | Name => option_map VStr (cached_name r)
  | Version => option_map VVal (cached_version r)
  | RelatedArchives => option_map VList (cached_related_archives r)
  | LastModified => option_map VNum (cached_last_modified r)
  | SourceDirectory => option_map VStr (cached_source_directory r)
  | IsWheel => option_map VBool (cached_is_wheel r)
  | IsTransitive => option_map VBool (cached_is_transitive r)
  | IsDirect => option_map VBool (cached_is_direct r)
  | IsEditable => option_map VBool (cached_is_editable r)
  | SdistMetadata => option_map VMessage (cached_sdist_metadata r)
  | WheelMetadata => option_map VDist (cached_wheel_metadata r)
  end.

(** The store after a sequence of attribute reads, whether they returned
    or raised. *)
Definition reads (w : World) (script : list attribute) (st : Store) : Store :=
  fold_left (fun s a => snd (read w a s)) script st.

End req.

(** ** Notions used to state the properties *)

(** A setting that is present and not the empty string. *)
Definition nonempty (o : option string) : option string :=
  match o with
  | Some "" => None
  | other => other
  end.

(** The precedence as the specification words it: the environment variable
    when set and not empty, else the file value when present, else the
    default. *)
Definition get_as_specified (env conf : gmap string string)
    (environment_variable configuration_option : string) (default : pyval)
  : pyval :=
  match nonempty (env !! environment_variable) with
  | Some v => PyStr v
  | None =>
      match conf !! configuration_option with
      | Some v => PyStr v
      | None => default
      end
  end.

(** The last pair stored under a key in a list of pairs. *)
Fixpoint assoc_last (pairs : list (string * string)) (k : string)
  : option string :=
  match pairs with
  | [] => None
  | (k', v) :: rest =>
      match assoc_last rest k with
      | Some v' => Some v'
      | None => if String.eqb k' k then Some v else None
      end
  end.

(** The value of a key after several files were loaded one after the other:
    that of the last file that has the key. *)
Fixpoint effective (files : list (list (string * string))) (k : string)
  : option string :=
  match files with
  | [] => None
  | pairs :: rest =>
      match effective rest k with
      | Some v => Some v
      | None => assoc_last pairs k
      end
  end.

(** The candidate configuration files in priority order. *)
Definition candidates (w : World) (env : gmap string string) : list string :=
  [parse_path w config.GLOBAL_CONFIG; parse_path w config.LOCAL_CONFIG]
  ++ match nonempty (env !! "PIP_ACCEL_CONFIG") with
     | Some p => [parse_path w p]
     | None => []
     end.

(** The pairs of the [pip-accel] section of a file, as the parser reports
    them when [load_configuration_file] is given the file. *)
Definition section_of (w : World) (file : string) : list (string * string) :=
  match parser_read w (parse_path w file) with
  | Parsed sections => items sections "pip-accel"
  | _ => []
  end.

(** The file loads: the parser reads it and finds the section. *)
Definition loadable (w : World) (file : string) : bool :=
  match parser_read w (parse_path w file) with
  | Parsed sections => has_section sections "pip-accel"
  | _ => false
  end.

(** [needle in haystack] *)
Fixpoint contains (needle haystack : string) : bool :=
  (String.prefix needle haystack ||
   match haystack with
   | EmptyString => false
   | String _ rest => contains needle rest
   end)%bool.

(** The exception names the file. *)
Definition names_file (e : exception) (file : string) : bool :=
  match e with
  | Exception msg => contains file msg
  | ConfigParserError _ source _ => String.eqb source file
  | _ => false
  end.

(** The result is an exception of the class of that name. *)
Definition raises {A} (cls : string) (r : result A) : bool :=
  match r with
  | inl e => String.eqb (exception_class e) cls
  | inr _ => false
  end.

(** ** A small world for examples *)

Module example.

(** [~] is the home directory of the user [alice]. *)
Definition expand (p : string) : string :=
  match p with
  | String "~" rest => "/home/alice" ++ rest
  | _ => p
  end.

Definition files : list (string * Z) :=
  [("/etc/pip-accel.conf", 100%Z);
   ("/home/alice/.pip-accel/pip-accel.conf", 200%Z);
   ("/srv/custom.conf", 300%Z);
   ("/srv/broken.conf", 310%Z);
   ("/srv/other.conf", 320%Z);
   ("/data/sources/foo-1.0.tar.gz", 1000%Z);
   ("/data/sources/Foo-1.0.zip", 2000%Z);
   ("/data/sources/foo-1.0.whl", 3000%Z);
   ("/data/sources/bar-2.0.tar.gz", 4000%Z);
   ("/build/foo/setup.py", 500%Z);
   ("/build/both/setup.py", 500%Z);
   ("/build/both/both-1.0.dist-info/WHEEL", 500%Z);
   ("/build/wheel/wheel-0.24.dist-info/WHEEL", 500%Z)].

Definition lookup_file (p : string) : option Z :=
  snd <$> List.find (fun f => String.eqb (fst f) p) files.

Definition world : World :=
  {| environ := {[ "PIP_ACCEL_CONFIG" := "/srv/custom.conf" ]};
     getuid := 1000;
     isfile := fun p => bool_decide (is_Some (lookup_file p));
     glob := fun pattern =>
       if String.eqb pattern "/build/both/*.dist-info/WHEEL"
       then ["/build/both/both-1.0.dist-info/WHEEL"]
       else if String.eqb pattern "/build/wheel/*.dist-info/WHEEL"
       then ["/build/wheel/wheel-0.24.dist-info/WHEEL"]
       else [];
     listdir := fun d =>
       if String.eqb d "/data/sources"
       then inr ["foo-1.0.tar.gz"; "Foo-1.0.zip"; "foo-1.0.whl";
                 "bar-2.0.tar.gz"]
       else inl (OSError d);
     getmtime := fun p =>
       match lookup_file p with
       | Some t => inr t
       | None => inl (OSError p)
       end;
     time := 9000%Z;
     getcwd := "/home/alice/project";
     expanduser := expand;
     parser_read := fun p =>
       if String.eqb p "/etc/pip-accel.conf" then
         Parsed [("pip-accel", [("data-directory", "/var/data");
                                ("s3-bucket", "system")])]
       else if String.eqb p "/home/alice/.pip-accel/pip-accel.conf" then
         Parsed [("pip-accel", [("data-directory", "/data");
                                ("s3-prefix", "")])]
       else if String.eqb p "/srv/custom.conf" then
         Parsed [("pip-accel", [("s3-bucket", "custom")])]
       else if String.eqb p "/srv/broken.conf" then
         Malformed "MissingSectionHeaderError" "line 1"
       else if String.eqb p "/srv/other.conf" then
         Parsed [("other", [("data-directory", "/elsewhere")])]
       else Unreadable;
     pkg_info := fun r => [("Name", "foo"); ("Version", "1.0")];
     find_distributions := fun d =>
       if String.eqb d "/build/wheel" then [{| dist_version := "0.24" |}]
       else [];
     ARCHIVE_EXTENSIONS :=
       [".tar.gz"; ".tar.bz2"; ".tar"; ".zip"; ".tgz"; ".tbz"; ".whl"] |}.

(** The configuration object that [Config()] builds in this world. *)
Definition settings : config.Config :=
  match config.init world true true with
  | inr self => self
  | inl _ => config.blank world true
  end.

Definition requirement (name dir : string) : InstallRequirement :=
  Build_InstallRequirement {| project_name := name |} dir false ComesFromNone.

End example.

(** ** Invariants *)

(** What the cache of a configuration object holds at any time: a cached
    derived directory was computed from the cached data directory. *)
Definition derived_from_data_directory (self : config.Config) : Prop :=
  (forall s, config.cached_source_index self = Some s ->
             exists d, config.cached_data_directory self = Some d
                       /\ s = posixpath.join d "sources")
  /\ (forall s, config.cached_binary_cache self = Some s ->
                exists d, config.cached_data_directory self = Some d
                          /\ s = posixpath.join d "binaries").

(** A cached data directory is a normalized pathname. *)
Definition data_directory_normalized (self : config.Config) : Prop :=
  forall d, config.cached_data_directory self = Some d ->
            posixpath.normalized d = true.

Section Coherence.

Variable w : World.
Variable c0 : config.Config.
Variable r0 : InstallRequirement.

(** A store of the descriptor of [r0] whose shared configuration object
    still yields the source index of [c0], and whose cached attributes are
    those that a read on the fresh descriptor returns. *)
Definition coherent (st : req.Store) : Prop :=
  req.pip_requirement (req.self st) = r0
  /\ req.setuptools_requirement (req.self st) = req r0
  /\ fst (config.source_index w (req.config st))
     = fst (config.source_index w c0)
  /\ forall a v, req.slot a (req.self st) = Some v ->
                 fst (req.read w a (req.fresh c0 r0)) = inr v.

(** A computation that returns the same result on every coherent store and
    leaves the store coherent. *)
Definition stable {A} (m : M req.Store A) : Prop :=
  exists V, forall st, coherent st -> fst (m st) = V /\ coherent (snd (m st)).

End Coherence.

(** A computation that leaves the cached [last_modified] as it is. *)
Definition keeps_last_modified {A} (m : M req.Store A) : Prop :=
  forall st, req.cached_last_modified (req.self (snd (m st)))
             = req.cached_last_modified (req.self st).

(** The attributes other than [last_modified]. *)
Definition not_last_modified (a : req.attribute) : bool :=
  match a with
  | req.LastModified => false
  | _ => true
  end.

(** ** Archive names, without regular expressions *)

Definition is_dash_or_underscore (c : ascii) : bool :=
  (Ascii.eqb c "-" || Ascii.eqb c "_")%bool.

(** A character of a file name stands for a character of the requirement
    name: dashes and underscores stand for each other, any other character
    for itself, letters without regard to case. *)
Definition name_char_matches (c c' : ascii) : bool :=
  if is_dash_or_underscore c then is_dash_or_underscore c'
  else Ascii.eqb (lower c) (lower c').

(** Equality of characters without regard to case. *)
Definition char_matches (c c' : ascii) : bool := Ascii.eqb (lower c) (lower c').

(** Take from the front of [s] as many characters as [expected] has, each
    standing for the corresponding character of [expected]. *)
Fixpoint strip (rel : ascii -> ascii -> bool) (expected s : string)
  : option string :=
  match expected with
  | EmptyString => Some s
  | String c expected' =>
      match s with
      | String c' s' => if rel c c' then strip rel expected' s' else None
      | EmptyString => None
      end
  end.

(** The alternatives of a group: an empty group stands for the empty
    text. *)
Definition choices (exts : list string) : list string :=
  match exts with
  | [] => [""]
  | _ :: _ => exts
  end.

(** The extensions a source archive may have: the known ones, the wheel
    extension left out. *)
Definition extension_choices (extensions : list string) : list string :=
  choices (List.filter (fun ext => negb (String.eqb ext ".whl")) extensions).

(** The end of the name, or a single line feed before it. *)
Definition at_end (s : string) : bool :=
  (String.eqb s "" || String.eqb s (String LF ""))%bool.

(** The file name is the requirement name, a dash, the version and one of
    the extensions. *)
Definition archive_name_matches (name version : string)
    (extensions : list string) (fn : string) : bool :=
  match strip name_char_matches name fn with
  | Some (String dash after_name) =>
      (Ascii.eqb dash "-" &&
       match strip char_matches version after_name with
       | Some after_version =>
           existsb (fun ext =>
                      match strip char_matches ext after_version with
                      | Some rest => at_end rest
                      | None => false
                      end)
                   (extension_choices extensions)
       | None => false
       end)%bool
  | _ => false
  end.

(** The pattern string that [related_archives] composes. *)
Definition archive_pattern (name version : string) (extensions : list string)
  : string :=
  "^" ++ req.escape_name name ++ "-" ++ re.escape version ++ "("
  ++ str_join "|"
       (map re.escape
            (List.filter (fun ext => negb (String.eqb ext ".whl")) extensions))
  ++ ")$".

(** ** The parsed form of the pattern *)

Definition sequence (items : list re.regex) (tail : re.regex) : re.regex :=
  fold_right re.Seq tail items.

Definition literals (s : string) : list re.regex :=
  map re.Literal (list_ascii_of_string s).

Definition name_item (c : ascii) : re.regex :=
  if is_dash_or_underscore c then re.InSet ["-"%char; "_"%char]
  else re.Literal c.

Definition name_items (s : string) : list re.regex :=
  map name_item (list_ascii_of_string s).

Fixpoint alternatives (extensions : list string) : re.regex :=
  match extensions with
  | [] => re.Empty
  | [ext] => sequence (literals ext) re.Empty
  | ext :: rest =>
      re.Branch (sequence (literals ext) re.Empty) (alternatives rest)
  end.

Definition parsed_pattern (name version : string) (extensions : list string)
  : re.regex :=
  re.Seq re.AtBeginning
    (sequence (name_items name)
       (re.Seq (re.Literal "-")
          (sequence (literals version)
             (re.Seq
                (re.Subpattern
                   (alternatives
                      (List.filter (fun ext => negb (String.eqb ext ".whl"))
                                   extensions)))
                (re.Seq re.AtEnd re.Empty))))).

(** Characters with a meaning of their own in a pattern. *)
Definition special (c : ascii) : bool :=
  (Ascii.eqb c "|" || Ascii.eqb c ")" || Ascii.eqb c "\" || Ascii.eqb c "["
   || Ascii.eqb c "(" || Ascii.eqb c "^" || Ascii.eqb c "$"
   || re.unsupported c)%bool.

Definition then_items (items : list re.regex)
    (rest : option (re.regex * string)) : option (re.regex * string) :=
  match rest with
  | Some (r, s) => Some (sequence items r, s)
  | None => None
  end.

(** Where the items of an alternative stop. *)
Definition stops (rest : string) : bool :=
  (String.eqb rest "" || starts_with ")" rest || starts_with "|" rest)%bool.

(** ** Worlds that change *)

(** The world in which the variables of the process environment are [env],
    everything else being as in [w]: the home directory that
    [os.path.expanduser] expands [~] to is that of [w]. *)
Definition with_environ (env : gmap string string) (w : World) : World :=
  {| environ := env;
     getuid := getuid w;
     isfile := isfile w;
     glob := glob w;
     listdir := listdir w;
     getmtime := getmtime w;
     time := time w;
     getcwd := getcwd w;
     expanduser := expanduser w;
     parser_read := parser_read w;
     pkg_info := pkg_info w;
     find_distributions := find_distributions w;
     ARCHIVE_EXTENSIONS := ARCHIVE_EXTENSIONS w |}.

(** The configuration object after a sequence of calls, each made in a
    world of its own. *)
Definition after_steps (steps : list (World * config.call))
    (self : config.Config) : config.Config :=
  fold_left (fun s step => config.perform (fst step) (snd step) s) steps self.

(** The store after a sequence of attribute reads, each made in a world of
    its own. *)
Definition reads_in (steps : list (World * req.attribute)) (st : req.Store)
  : req.Store :=
  fold_left (fun s step => snd (req.read (fst step) (snd step) s)) steps st.


(** The value a setting resolves to: the environment variable when set and
    not empty, else the option of the last loaded file that has it when not
    empty, else nothing. *)
Definition resolved (env : gmap string string)
    (files : list (list (string * string)))
    (environment_variable configuration_option : string) : option string :=
  match nonempty (env !! environment_variable) with
  | Some v => Some v
  | None => nonempty (effective files configuration_option)
  end.

(** ** Requirement names that differ in dashes, underscores and case *)

(** The same character, or a dash for an underscore. *)
Definition same_up_to_dash (c c' : ascii) : bool :=
  (Ascii.eqb c c' || (is_dash_or_underscore c && is_dash_or_underscore c'))%bool.

(** Two texts of the same length whose characters are related one by one. *)
Fixpoint pointwise (rel : ascii -> ascii -> bool) (s s' : string) : bool :=
  match s, s' with
  | EmptyString, EmptyString => true
  | String c r, String c' r' => (rel c c' && pointwise rel r r')%bool
  | _, _ => false
  end.

(** A second example world, in which the file that the environment points
    to is broken. *)
Module scenario.

Definition broken_world : World :=
  with_environ {[ "PIP_ACCEL_CONFIG" := "/srv/broken.conf" ]} example.world.

Definition later_world : World :=
  {| environ := ∅;
     getuid := 0;
     isfile := fun _ => false;
     glob := fun _ => [];
     listdir := fun d => inr [];
     getmtime := fun p => inl (OSError p);
     time := 99999%Z;
     getcwd := "/";
     expanduser := fun p => p;
     parser_read := fun _ => Unreadable;
     pkg_info := fun _ => [];
     find_distributions := fun _ => [];
     ARCHIVE_EXTENSIONS := [] |}.

End scenario.

(** ** What a read leaves in the descriptor *)

(** A computation that keeps every cached attribute as it is. *)
Definition monotone {A} (m : M req.Store A) : Prop :=
  forall st a v, req.slot a (req.self st) = Some v ->
                 req.slot a (req.self (snd (m st))) = Some v.

(** A computation that leaves the cache entry of [a] as it is. *)
Definition keeps (a : req.attribute) {A} (m : M req.Store A) : Prop :=
  forall st, req.slot a (req.self (snd (m st))) = req.slot a (req.self st).

(** ** The text of a requirement *)

(** [str(value)] *)
Definition py_str (v : pyval) : string :=
  match v with
  | PyStr s => s
  | PyNone => "None"
  end.

(** [Requirement.__str__] *)
Definition __str__ (w : World) : M req.Store string :=
  let* n := req.name in
  let* v := req.version w in
  ret (percent "%s (%s)" [n; py_str v]).
(** * Properties *)

(** ** Reading a setting: [Config.get] *)

(** [get] only reads the object. *)
Lemma get_pure (ev opt : string) (default : pyval) (self : config.Config) :
  snd (config.get ev opt default self) = self.
Proof. reflexivity. Qed.

(** What [get] returns, case by case. *)
Lemma get_returns (ev opt : string) (default : pyval) (self : config.Config) :
  config.get ev opt default self =
  (inr match nonempty (config.environment self !! ev) with
       | Some v => PyStr v
       | None =>
           match nonempty (config.configuration self !! opt) with
           | Some v => PyStr v
           | None => default
           end
       end, self).
Proof.
  unfold config.get, gets, py_or, dict_get.
  destruct (config.environment self !! ev) as [[|c s]|];
    destruct (config.configuration self !! opt) as [[|c' s']|]; reflexivity.
Qed.

(** C3, as amended: [get] returns the value of the environment variable when
    it is set and not empty; otherwise the merged file value when it is
    present and not empty; otherwise the supplied default. The object is
    left as it was. *)
Theorem get_precedence (ev opt : string) (default : pyval)
    (self : config.Config) :
  fst (config.get ev opt default self) =
  inr match nonempty (config.environment self !! ev) with
      | Some v => PyStr v
      | None =>
          match nonempty (config.configuration self !! opt) with
          | Some v => PyStr v
          | None => default
          end
      end
  /\ snd (config.get ev opt default self) = self.
Proof. rewrite get_returns. split; reflexivity. Qed.

(** C3, as stated, fails: a file value that is present but empty is passed
    over in favour of the default. *)
Lemma get_as_specified_counterexample :
  let self :=
    {| config.configuration := {[ "s3-prefix" := "" ]};
       config.environment := ∅;
       config.cached_available_configuration_files := None;
       config.cached_source_index := None;
       config.cached_binary_cache := None;
       config.cached_data_directory := None |} in
  fst (config.get "PIP_ACCEL_S3_PREFIX" "s3-prefix" (PyStr "fallback") self)
    = inr (PyStr "fallback")
  /\ get_as_specified (config.environment self) (config.configuration self)
       "PIP_ACCEL_S3_PREFIX" "s3-prefix" (PyStr "fallback") = PyStr ""
  /\ fst (config.get "PIP_ACCEL_S3_PREFIX" "s3-prefix" (PyStr "fallback") self)
     <> inr (get_as_specified (config.environment self)
               (config.configuration self)
               "PIP_ACCEL_S3_PREFIX" "s3-prefix" (PyStr "fallback")).
Proof. vm_compute. repeat split; congruence. Qed.

(** C10: with the environment variable unset or empty, an empty file value
    counts as unset as well: the default is returned, and [None] when no
    default is supplied. *)
Theorem get_empty_file_value (ev opt : string) (default : pyval)
    (self : config.Config) :
  nonempty (config.environment self !! ev) = None ->
  config.configuration self !! opt = Some "" ->
  fst (config.get ev opt default self) = inr default
  /\ fst (config.get ev opt PyNone self) = inr PyNone
  /\ fst (config.get ev opt PyNone self) <> inr (PyStr "").
Proof.
  intros Henv Hconf. rewrite !get_returns. cbn [fst].
  rewrite Henv, Hconf. cbn. repeat split; congruence.
Qed.

Lemma get_empty_file_value_witness :
  let self :=
    {| config.configuration := {[ "s3-prefix" := "" ]};
       config.environment := {[ "PIP_ACCEL_S3_PREFIX" := "" ]};
       config.cached_available_configuration_files := None;
       config.cached_source_index := None;
       config.cached_binary_cache := None;
       config.cached_data_directory := None |} in
  nonempty (config.environment self !! "PIP_ACCEL_S3_PREFIX") = None
  /\ config.configuration self !! "s3-prefix" = Some ""
  /\ fst (config.get "PIP_ACCEL_S3_PREFIX" "s3-prefix" (PyStr "fallback") self)
     = inr (PyStr "fallback")
  /\ fst (config.get "PIP_ACCEL_S3_PREFIX" "s3-prefix" PyNone self)
     = inr PyNone.
Proof.
  intros self.
  assert (H1 : nonempty (config.environment self !! "PIP_ACCEL_S3_PREFIX") = None)
    by (vm_compute; reflexivity).
  assert (H2 : config.configuration self !! "s3-prefix" = Some "")
    by (vm_compute; reflexivity).
  split; [exact H1 | split; [exact H2 |]].
  destruct (get_empty_file_value "PIP_ACCEL_S3_PREFIX" "s3-prefix"
              (PyStr "fallback") self H1 H2) as (Ha & Hb & _).
  split; [exact Ha | exact Hb].
Defined.

(** ** Loading configuration files *)

Lemma dict_update_lookup (pairs : list (string * string))
    (d : gmap string string) (k : string) :
  dict_update d pairs !! k =
  match assoc_last pairs k with
  | Some v => Some v
  | None => d !! k
  end.
Proof.
  unfold dict_update. revert d.
  induction pairs as [|[k' v] rest IH]; intros d; cbn [fold_left assoc_last].
  - reflexivity.
  - rewrite IH. cbn [fst snd]. destruct (assoc_last rest k); [reflexivity|].
    destruct (String.eqb_spec k' k) as [->|Hne].
    + apply lookup_insert_eq.
    + apply lookup_insert_ne. exact Hne.
Qed.

Lemma load_all_lookup (w : World) (files : list string)
    (d : gmap string string) (k : string) :
  fold_left (fun acc f => dict_update acc (section_of w f)) files d !! k =
  match effective (map (section_of w) files) k with
  | Some v => Some v
  | None => d !! k
  end.
Proof.
  revert d. induction files as [|f rest IH]; intros d; cbn [fold_left map effective].
  - reflexivity.
  - rewrite IH. destruct (effective (map (section_of w) rest) k); [reflexivity|].
    apply dict_update_lookup.
Qed.

Lemma append_cons (c : ascii) (x y : string) :
  String c x ++ y = String c (x ++ y).
Proof. reflexivity. Qed.

Lemma append_nil (y : string) : "" ++ y = y.
Proof. reflexivity. Qed.

Lemma prefix_append (x y : string) : String.prefix x (x ++ y) = true.
Proof.
  induction x as [|c x IH]; [destruct y; reflexivity|].
  rewrite append_cons. cbn [String.prefix].
  destruct (ascii_dec c c); [exact IH | congruence].
Qed.

Lemma contains_infix (a b c : string) : contains a (b ++ a ++ c) = true.
Proof.
  induction b as [|x b IH].
  - rewrite append_nil. destruct (a ++ c) eqn:E.
    + cbn [contains]. rewrite <- E, prefix_append. reflexivity.
    + cbn [contains]. rewrite <- E, prefix_append. reflexivity.
  - rewrite append_cons. cbn [contains]. rewrite IH. apply orb_true_r.
Qed.

(** A file that loads is merged into the map and nothing else changes. *)
Lemma load_configuration_file_ok (w : World) (file : string)
    (self : config.Config) :
  loadable w file = true ->
  config.load_configuration_file w file self =
  (inr tt, config.set_configuration
             (dict_update (config.configuration self) (section_of w file))
             self).
Proof.
  unfold loadable, section_of, config.load_configuration_file.
  destruct (parser_read w (parse_path w file)) as [| |sections]; try discriminate.
  intros ->. reflexivity.
Qed.

(** A file that does not load raises, names the file and merges nothing. *)
Lemma load_configuration_file_fails (w : World) (file : string)
    (self : config.Config) :
  loadable w file = false ->
  exists e, config.load_configuration_file w file self = (inl e, self)
            /\ names_file e (parse_path w file) = true
            /\ (raises "Exception" (inl e : result unit) = true
                \/ exists cls detail,
                     parser_read w (parse_path w file) = Malformed cls detail
                     /\ e = ConfigParserError cls (parse_path w file) detail).
Proof.
  unfold loadable, config.load_configuration_file.
  set (path := parse_path w file).
  pose proof (fun a b => contains_infix a b ")") as Hpre.
  destruct (parser_read w path) as [|cls detail|sections].
  - intros _. eexists. split; [reflexivity|]. split.
    + cbn. apply (Hpre path "Failed to load configuration file! (").
    + left. reflexivity.
  - intros _. eexists. split; [reflexivity|]. split.
    + cbn. apply String.eqb_refl.
    + right. eauto.
  - intros ->. eexists. split; [reflexivity|]. split.
    + cbn. apply (Hpre path "Missing 'pip-accel' section in configuration file! (").
    + left. reflexivity.
Qed.

Lemma for_each_load_ok (w : World) (files : list string)
    (self : config.Config) :
  forallb (loadable w) files = true ->
  for_each files (config.load_configuration_file w) self =
  (inr tt, config.set_configuration
             (fold_left (fun acc f => dict_update acc (section_of w f)) files
                        (config.configuration self)) self).
Proof.
  revert self. induction files as [|f rest IH]; intros self H.
  - destruct self; reflexivity.
  - cbn [forallb] in H. apply andb_true_iff in H as [Hf Hrest].
    cbn [for_each]. unfold bind. rewrite (load_configuration_file_ok _ _ _ Hf).
    rewrite (IH _ Hrest). destruct self; reflexivity.
Qed.

Lemma for_each_load_returns (w : World) (files : list string)
    (self self' : config.Config) (u : unit) :
  for_each files (config.load_configuration_file w) self = (inr u, self') ->
  forallb (loadable w) files = true.
Proof.
  revert self. induction files as [|f rest IH]; intros self H; [reflexivity|].
  cbn [forallb]. destruct (loadable w f) eqn:Hf.
  - cbn [for_each] in H. unfold bind in H.
    rewrite (load_configuration_file_ok _ _ _ Hf) in H. cbn. eauto.
  - destruct (load_configuration_file_fails w f self Hf) as (e & He & _).
    cbn [for_each] in H. unfold bind in H. rewrite He in H. discriminate.
Qed.

(** The files that [__init__] goes through: the candidates that exist. *)
Lemma available_configuration_files_blank (w : World) (load_env : bool) :
  let self := config.blank w load_env in
  config.available_configuration_files w self =
  (inr (List.filter (isfile w) (candidates w (config.environment self))),
   config.store_available_configuration_files
     (List.filter (isfile w) (candidates w (config.environment self))) self).
Proof.
  cbn zeta. unfold config.available_configuration_files, cached_property.
  cbn [config.blank config.cached_available_configuration_files].
  unfold bind, gets, ret. cbn [config.environment config.blank].
  set (env := if load_env then environ w else ∅).
  assert (Hc : omap (fun pathname =>
                       match pathname with
                       | PyStr p => if truthy pathname then Some (parse_path w p)
                                    else None
                       | PyNone => None
                       end)
                    [PyStr config.GLOBAL_CONFIG; PyStr config.LOCAL_CONFIG;
                     dict_get env "PIP_ACCEL_CONFIG"]
               = candidates w env).
  { unfold candidates, dict_get.
    destruct (env !! "PIP_ACCEL_CONFIG") as [[|c s]|]; reflexivity. }
  rewrite Hc. reflexivity.
Qed.

(** [Config(True, _)] succeeds when every existing candidate loads. *)
Lemma init_succeeds (w : World) (load_env : bool) :
  let env := if load_env then environ w else ∅ in
  forallb (loadable w) (List.filter (isfile w) (candidates w env)) = true ->
  exists self, config.init w true load_env = inr self.
Proof.
  cbn zeta. intros H. unfold config.init, config.init_body, bind.
  rewrite available_configuration_files_blank.
  cbn [config.environment config.blank].
  rewrite (for_each_load_ok _ _ _ H). eauto.
Qed.

(** C4: with [load_configuration_files] true, the existing candidates are
    loaded in priority order (system wide, user specific, the one named by
    the environment variable), and the merged value of every key is that of
    the last loaded file that has the key. *)
Theorem load_order_last_wins (w : World) (load_env : bool)
    (self : config.Config) :
  config.init w true load_env = inr self ->
  let env := if load_env then environ w else ∅ in
  let loaded := List.filter (isfile w) (candidates w env) in
  config.cached_available_configuration_files self = Some loaded
  /\ forallb (loadable w) loaded = true
  /\ config.configuration self =
     fold_left (fun acc f => dict_update acc (section_of w f)) loaded ∅
  /\ forall k, config.configuration self !! k
               = effective (map (section_of w) loaded) k.
Proof.
  cbn zeta. unfold config.init, config.init_body, bind.
  rewrite available_configuration_files_blank.
  cbn [config.environment config.blank].
  set (env := if load_env then environ w else ∅).
  set (loaded := List.filter (isfile w) (candidates w env)).
  destruct (for_each loaded _ _) as [[e|u] self'] eqn:Hrun; [discriminate|].
  intros [= <-].
  pose proof (for_each_load_returns _ _ _ _ _ Hrun) as Hall.
  rewrite (for_each_load_ok _ _ _ Hall) in Hrun. injection Hrun as Hrun.
  subst self'.
  cbn [config.set_configuration config.cached_available_configuration_files
       config.store_available_configuration_files config.configuration
       config.blank].
  split; [reflexivity|]. split; [exact Hall|]. split; [reflexivity|].
  intros k. rewrite load_all_lookup. rewrite lookup_empty.
  destruct (effective _ k); reflexivity.
Qed.

Lemma load_order_last_wins_witness :
  config.init example.world true true = inr example.settings
  /\ config.cached_available_configuration_files example.settings
     = Some ["/etc/pip-accel.conf"; "/home/alice/.pip-accel/pip-accel.conf";
             "/srv/custom.conf"]
  /\ config.configuration example.settings !! "data-directory" = Some "/data"
  /\ config.configuration example.settings !! "s3-bucket" = Some "custom".
Proof.
  assert (H : config.init example.world true true = inr example.settings)
    by (vm_compute; reflexivity).
  split; [exact H|].
  destruct (load_order_last_wins example.world true example.settings H)
    as (Hfiles & _ & _ & Hkey).
  split; [rewrite Hfiles; vm_compute; reflexivity|].
  split; rewrite Hkey; vm_compute; reflexivity.
Defined.

(** What a file that does not load raises. *)
Lemma load_configuration_file_error (w : World) (file : string)
    (self : config.Config) :
  loadable w file = false ->
  config.load_configuration_file w file self
  = (inl match parser_read w (parse_path w file) with
         | Unreadable =>
             Exception ("Failed to load configuration file! ("
                        ++ parse_path w file ++ ")")
         | Malformed cls detail =>
             ConfigParserError cls (parse_path w file) detail
         | Parsed _ =>
             Exception ("Missing 'pip-accel' section in configuration file! ("
                        ++ parse_path w file ++ ")")
         end, self).
Proof.
  unfold loadable, config.load_configuration_file.
  destruct (parser_read w (parse_path w file)) as [|cls detail|sections].
  - intros _. reflexivity.
  - intros _. reflexivity.
  - intros ->. reflexivity.
Qed.

(** C5, as amended: a candidate that does not exist is left out without an
    error; a file that exists but does not load makes loading fail with an
    exception that names the file, and nothing of that file is merged.  The
    exception is a plain [Exception] when the file cannot be read or has no
    [pip-accel] section, and the parser's own error when the file cannot be
    parsed. *)
Theorem missing_skipped_broken_rejected (w : World) (load_env : bool)
    (file : string) (self : config.Config) :
  let env := if load_env then environ w else ∅ in
  fst (config.available_configuration_files w (config.blank w load_env))
    = inr (List.filter (isfile w) (candidates w env))
  /\ (forall f, isfile w f = false ->
                ~ In f (List.filter (isfile w) (candidates w env)))
  /\ ((forall f, In f (candidates w env) -> isfile w f = false) ->
      exists self', config.init w true load_env = inr self'
                    /\ config.configuration self' = ∅)
  /\ (loadable w file = false ->
      exists e, config.load_configuration_file w file self = (inl e, self)
                /\ names_file e (parse_path w file) = true
                /\ e = match parser_read w (parse_path w file) with
                       | Unreadable =>
                           Exception
                             ("Failed to load configuration file! ("
                              ++ parse_path w file ++ ")")
                       | Malformed cls detail =>
                           ConfigParserError cls (parse_path w file) detail
                       | Parsed _ =>
                           Exception
                             ("Missing 'pip-accel' section in configuration file! ("
                              ++ parse_path w file ++ ")")
                       end).
Proof.
  cbn zeta. split; [|split; [|split]].
  - rewrite available_configuration_files_blank. reflexivity.
  - intros f Hf Hin. apply filter_In in Hin as [_ Hin]. congruence.
  - intros Hnone.
    assert (Hnil : List.filter (isfile w)
                     (candidates w (if load_env then environ w else ∅)) = []).
    { induction (candidates w _) as [|c cs IH]; [reflexivity|].
      cbn [List.filter]. rewrite (Hnone c (or_introl eq_refl)).
      apply IH. intros f Hf. apply Hnone. right. exact Hf. }
    unfold config.init, config.init_body, bind.
    rewrite available_configuration_files_blank.
    cbn [config.environment config.blank]. rewrite Hnil. cbn.
    eexists. split; reflexivity.
  - intros Hbad.
    destruct (load_configuration_file_fails w file self Hbad) as (e & He & Hn & _).
    exists e. split; [exact He|]. split; [exact Hn|].
    rewrite (load_configuration_file_error w file self Hbad) in He.
    congruence.
Qed.

(** C5, as stated, fails: the exception of a file without the section is a
    plain [Exception], and that of a file that does not parse is the
    parser's [MissingSectionHeaderError]; neither is a
    [ConfigurationError]. *)
Lemma configuration_error_counterexample :
  loadable example.world "/srv/other.conf" = false
  /\ fst (config.load_configuration_file example.world "/srv/other.conf"
            example.settings)
     = inl (Exception
              "Missing 'pip-accel' section in configuration file! (/srv/other.conf)")
  /\ raises "ConfigurationError"
       (fst (config.load_configuration_file example.world "/srv/other.conf"
               example.settings)) = false
  /\ loadable example.world "/srv/broken.conf" = false
  /\ fst (config.load_configuration_file example.world "/srv/broken.conf"
            example.settings)
     = inl (ConfigParserError "MissingSectionHeaderError" "/srv/broken.conf"
                              "line 1")
  /\ raises "ConfigurationError"
       (fst (config.load_configuration_file example.world "/srv/broken.conf"
               example.settings)) = false.
Proof. vm_compute. repeat split; reflexivity. Qed.

Lemma missing_skipped_broken_rejected_witness :
  loadable example.world "/srv/broken.conf" = false
  /\ loadable example.world "/srv/other.conf" = false
  /\ config.load_configuration_file example.world "/srv/broken.conf"
       example.settings
     = (inl (ConfigParserError "MissingSectionHeaderError" "/srv/broken.conf"
                               "line 1"), example.settings)
  /\ fst (config.load_configuration_file example.world "/srv/other.conf"
            example.settings)
     = inl (Exception
              "Missing 'pip-accel' section in configuration file! (/srv/other.conf)").
Proof.
  assert (H1 : loadable example.world "/srv/broken.conf" = false)
    by (vm_compute; reflexivity).
  assert (H2 : loadable example.world "/srv/other.conf" = false)
    by (vm_compute; reflexivity).
  split; [exact H1|]. split; [exact H2|].
  destruct (missing_skipped_broken_rejected example.world true
              "/srv/broken.conf" example.settings) as (_ & _ & _ & Hb).
  destruct (missing_skipped_broken_rejected example.world true
              "/srv/other.conf" example.settings) as (_ & _ & _ & Ho).
  destruct (Hb H1) as (e1 & He1 & _). destruct (Ho H2) as (e2 & He2 & _).
  split.
  - rewrite He1. vm_compute in He1. injection He1 as <-. reflexivity.
  - rewrite He2. vm_compute in He2. injection He2 as <-. reflexivity.
Defined.

(** ** Pathnames *)

Lemma append_length (a b : string) :
  String.length (a ++ b) = String.length a + String.length b.
Proof.
  induction a as [|c a IH]; [reflexivity|].
  rewrite append_cons. cbn [String.length]. rewrite IH. reflexivity.
Qed.

Lemma append_cancel_r (a b c : string) : a ++ c = b ++ c -> a = b.
Proof.
  revert b. induction a as [|x a IH]; intros [|y b] H.
  - reflexivity.
  - apply (f_equal String.length) in H.
    rewrite append_nil, append_length in H. cbn in H. lia.
  - apply (f_equal String.length) in H.
    rewrite append_nil, append_length in H. cbn in H. lia.
  - rewrite !append_cons in H. injection H as -> H. f_equal. apply IH, H.
Qed.

Lemma append_assoc (a b c : string) : (a ++ b) ++ c = a ++ (b ++ c).
Proof.
  induction a as [|x a IH]; [reflexivity|].
  rewrite !append_cons, IH. reflexivity.
Qed.

Lemma ends_with_sep_snoc (a : string) : posixpath.ends_with_sep (a ++ "/") = true.
Proof.
  induction a as [|c a IH]; [reflexivity|].
  rewrite append_cons. cbn [posixpath.ends_with_sep].
  destruct (a ++ "/") eqn:E; [|exact IH].
  destruct a; discriminate.
Qed.

(** Joining a fixed relative name onto a directory. *)
Lemma join_relative (d : string) (c : ascii) (rest : string) :
  c <> "/"%char ->
  posixpath.join d (String c rest) =
  if (String.eqb d "" || posixpath.ends_with_sep d)%bool
  then d ++ String c rest else d ++ "/" ++ String c rest.
Proof.
  intros Hc. unfold posixpath.join.
  replace (posixpath.starts_with_sep (String c rest)) with false; [reflexivity|].
  cbn. destruct c as [[] [] [] [] [] [] [] []]; try reflexivity. congruence.
Qed.

Lemma join_prefix (d : string) (c : ascii) (rest : string) :
  c <> "/"%char -> String.prefix d (posixpath.join d (String c rest)) = true.
Proof.
  intros Hc. rewrite (join_relative d c rest Hc).
  destruct (_ || _)%bool; apply prefix_append.
Qed.

(** On normalized directories the join with a relative name is injective. *)
Lemma join_injective (d1 d2 : string) (c : ascii) (rest : string) :
  c <> "/"%char ->
  posixpath.normalized d1 = true -> posixpath.normalized d2 = true ->
  posixpath.join d1 (String c rest) = posixpath.join d2 (String c rest) ->
  d1 = d2.
Proof.
  intros Hc.
  assert (Hroot : forall d, posixpath.normalized d = true ->
            posixpath.ends_with_sep d = true -> d = "/" \/ d = "//").
  { intros d Hn He. unfold posixpath.normalized in Hn. rewrite He in Hn.
    cbn [negb orb] in Hn. apply orb_true_iff in Hn as [Hn|Hn];
      apply String.eqb_eq in Hn; auto. }
  intros H1 H2. rewrite !(join_relative _ c rest Hc).
  set (b := String c rest).
  destruct (String.eqb_spec d1 "") as [->|N1];
    destruct (String.eqb_spec d2 "") as [->|N2]; cbn [orb].
  - reflexivity.
  - destruct (posixpath.ends_with_sep d2); intros H;
      apply (f_equal String.length) in H;
      rewrite ?append_nil, !append_length in H;
      destruct d2; try congruence; cbn in H; lia.
  - destruct (posixpath.ends_with_sep d1); intros H;
      apply (f_equal String.length) in H;
      rewrite ?append_nil, !append_length in H;
      destruct d1; try congruence; cbn in H; lia.
  - destruct (posixpath.ends_with_sep d1) eqn:E1;
      destruct (posixpath.ends_with_sep d2) eqn:E2; intros H.
    + apply append_cancel_r in H. exact H.
    + rewrite <- (append_assoc d2 "/" b) in H. apply append_cancel_r in H.
      subst d1. destruct (Hroot _ H1 E1) as [Hd|Hd].
      * apply (append_cancel_r d2 "" "/") in Hd. congruence.
      * apply (append_cancel_r d2 "/" "/") in Hd. subst d2. discriminate.
    + rewrite <- (append_assoc d1 "/" b) in H. apply append_cancel_r in H.
      subst d2. destruct (Hroot _ H2 E2) as [Hd|Hd].
      * apply (append_cancel_r d1 "" "/") in Hd. congruence.
      * apply (append_cancel_r d1 "/" "/") in Hd. subst d1. discriminate.
    + rewrite <- (append_assoc d1 "/" b), <- (append_assoc d2 "/" b) in H.
      apply append_cancel_r in H. apply append_cancel_r in H. exact H.
Qed.

Lemma ends_with_sep_append (a b : string) :
  b <> "" -> posixpath.ends_with_sep (a ++ b) = posixpath.ends_with_sep b.
Proof.
  intros Hb. induction a as [|c a IH]; [reflexivity|].
  rewrite append_cons. cbn [posixpath.ends_with_sep].
  destruct (a ++ b) eqn:E; [|exact IH].
  apply (f_equal String.length) in E. rewrite append_length in E.
  destruct b; [congruence | cbn in E; lia].
Qed.

Lemma split_no_trailing_sep (path comp : string) :
  In comp (posixpath.split path) -> posixpath.ends_with_sep comp = false.
Proof.
  revert comp. induction path as [|c path IH]; intros comp;
    cbn [posixpath.split].
  - intros [<-|[]]. reflexivity.
  - destruct (Ascii.eqb_spec c "/") as [->|Hc].
    + intros [<-|H]; [reflexivity | apply IH, H].
    + destruct (posixpath.split path) as [|first others].
      * intros [<-|[]]. cbn. apply Ascii.eqb_neq, Hc.
      * intros [<-|H]; [|apply IH; right; exact H].
        cbn [posixpath.ends_with_sep].
        specialize (IH first (or_introl eq_refl)).
        destruct first; [apply Ascii.eqb_neq, Hc | exact IH].
Qed.

(** The components that [normpath] keeps are not empty and have no
    trailing separator. *)
Lemma keep_components (slashes : nat) (comps new_comps : list string) :
  Forall (fun c => c <> "" /\ posixpath.ends_with_sep c = false) new_comps ->
  (forall c, In c comps -> posixpath.ends_with_sep c = false) ->
  Forall (fun c => c <> "" /\ posixpath.ends_with_sep c = false)
         (fold_left (posixpath.keep slashes) comps new_comps).
Proof.
  revert new_comps. induction comps as [|comp comps IH];
    intros new_comps Hkept Hcomps; [exact Hkept|].
  cbn [fold_left]. apply IH; [|intros c Hc; apply Hcomps; right; exact Hc].
  unfold posixpath.keep.
  destruct (String.eqb_spec comp "") as [->|Hne]; [exact Hkept|].
  cbn [orb]. destruct (String.eqb comp "."); [exact Hkept|].
  destruct (_ || _)%bool.
  - constructor; [|exact Hkept]. split; [exact Hne|].
    apply Hcomps. left. reflexivity.
  - destruct new_comps as [|last others]; [constructor|].
    inversion Hkept; assumption.
Qed.

Lemma join_components (comps : list string) :
  Forall (fun c => c <> "" /\ posixpath.ends_with_sep c = false) comps ->
  comps <> [] ->
  str_join "/" comps <> ""
  /\ posixpath.ends_with_sep (str_join "/" comps) = false.
Proof.
  induction comps as [|c [|c' comps] IH]; intros H Hne; [congruence| |].
  - inversion H as [|? ? [Hc He] _]; subst. split; assumption.
  - change (str_join "/" (c :: c' :: comps))
      with (c ++ "/" ++ str_join "/" (c' :: comps)).
    inversion H as [|? ? [Hc He] Hrest]; subst.
    destruct (IH Hrest ltac:(discriminate)) as [Hj Hs]. split.
    + intros E. apply (f_equal String.length) in E.
      rewrite !append_length in E. cbn in E. lia.
    + rewrite ends_with_sep_append.
      * rewrite ends_with_sep_append; assumption.
      * intros E. apply (f_equal String.length) in E.
        rewrite append_length in E. cbn in E. lia.
Qed.

Lemma normpath_normalized (path : string) :
  posixpath.normalized (posixpath.normpath path) = true.
Proof.
  unfold posixpath.normpath. destruct (String.eqb path ""); [reflexivity|].
  cbv zeta.
  set (comps := rev (fold_left (posixpath.keep (posixpath.initial_slashes path))
                               (posixpath.split path) [])).
  assert (Hcomps : Forall (fun c => c <> "" /\ posixpath.ends_with_sep c = false)
                          comps).
  { apply Forall_rev, keep_components; [constructor|].
    apply split_no_trailing_sep. }
  destruct comps as [|c comps'] eqn:E.
  - cbn [str_join].
    destruct (posixpath.initial_slashes path) as [|[|more]]; reflexivity.
  - destruct (join_components (c :: comps') Hcomps ltac:(discriminate))
      as [Hj Hs].
    set (prefix := match posixpath.initial_slashes path with
                   | 0 => "" | 1 => "/" | _ => "//" end).
    assert (Hnonempty : prefix ++ str_join "/" (c :: comps') <> "").
    { intros E'. apply (f_equal String.length) in E'.
      rewrite append_length in E'.
      destruct (str_join "/" (c :: comps')); [congruence | cbn in E'; lia]. }
    apply String.eqb_neq in Hnonempty. rewrite Hnonempty.
    unfold posixpath.normalized. rewrite ends_with_sep_append by exact Hj.
    rewrite Hs. reflexivity.
Qed.

(** Every pathname that [parse_path] returns is normalized. *)
Lemma parse_path_normalized (w : World) (pathname : string) :
  posixpath.normalized (parse_path w pathname) = true.
Proof. apply normpath_normalized. Qed.

(** ** The directories derived from the data directory *)

(** Reading the data directory never raises and caches what it returns. *)
Lemma data_directory_returns (w : World) (self : config.Config) :
  exists d, config.data_directory w self
            = (inr d, config.store_data_directory d self)
            /\ (forall d', config.cached_data_directory self = Some d' -> d = d')
            /\ (config.cached_data_directory self = None ->
                posixpath.normalized d = true).
Proof.
  unfold config.data_directory, cached_property.
  destruct (config.cached_data_directory self) as [d|] eqn:E.
  - exists d. split; [|split; [intros d' [= ->]; reflexivity | discriminate]].
    destruct self; cbn in *. subst. reflexivity.
  - unfold bind. rewrite get_returns.
    destruct (nonempty (config.environment self !! "PIP_ACCEL_CACHE")) as [v|];
      [|destruct (nonempty (config.configuration self !! "data-directory"))
          as [v|]; [|destruct (Nat.eqb (getuid w) 0)]];
      eexists; (split; [reflexivity|]);
      (split; [discriminate | intros _; apply parse_path_normalized]).
Qed.

Lemma source_index_returns (w : World) (self : config.Config) :
  derived_from_data_directory self ->
  exists d, fst (config.data_directory w self) = inr d
            /\ fst (config.source_index w self)
               = inr (posixpath.join d "sources")
            /\ derived_from_data_directory (snd (config.source_index w self)).
Proof.
  intros H. pose proof H as [Hs Hb].
  destruct (data_directory_returns w self) as (d & Hd & Hcached & _).
  exists d. rewrite Hd. split; [reflexivity|].
  unfold config.source_index, cached_property.
  destruct (config.cached_source_index self) as [s|] eqn:E.
  - destruct (Hs s eq_refl) as (d' & Hd' & ->). rewrite (Hcached d' Hd').
    cbn [fst snd]. split; [reflexivity | exact H].
  - unfold bind. rewrite Hd. cbn [fst snd ret]. split; [reflexivity|].
    split; intros s; cbn; intros Hc.
    + injection Hc as <-. eauto.
    + destruct (Hb s Hc) as (d' & Hd' & ->). rewrite (Hcached d' Hd'). eauto.
Qed.

Lemma binary_cache_returns (w : World) (self : config.Config) :
  derived_from_data_directory self ->
  exists d, fst (config.data_directory w self) = inr d
            /\ fst (config.binary_cache w self)
               = inr (posixpath.join d "binaries")
            /\ derived_from_data_directory (snd (config.binary_cache w self)).
Proof.
  intros H. pose proof H as [Hs Hb].
  destruct (data_directory_returns w self) as (d & Hd & Hcached & _).
  exists d. rewrite Hd. split; [reflexivity|].
  unfold config.binary_cache, cached_property.
  destruct (config.cached_binary_cache self) as [s|] eqn:E.
  - destruct (Hb s eq_refl) as (d' & Hd' & ->). rewrite (Hcached d' Hd').
    cbn [fst snd]. split; [reflexivity | exact H].
  - unfold bind. rewrite Hd. cbn [fst snd ret]. split; [reflexivity|].
    split; intros s; cbn; intros Hc.
    + destruct (Hs s Hc) as (d' & Hd' & ->). rewrite (Hcached d' Hd'). eauto.
    + injection Hc as <-. eauto.
Qed.

Lemma perform_preserves (w : World) (c : config.call) (self : config.Config) :
  derived_from_data_directory self ->
  derived_from_data_directory (config.perform w c self).
Proof.
  intros H. destruct c; cbn [config.perform].
  - unfold config.available_configuration_files, cached_property.
    destruct (config.cached_available_configuration_files self);
      [exact H | exact H].
  - unfold config.load_configuration_file.
    destruct (parser_read w _) as [| |sections]; try exact H.
    destruct (negb _); exact H.
  - exact H.
  - destruct (data_directory_returns w self) as (d & Hd & Hcached & _).
    rewrite Hd. destruct H as [Hs Hb].
    split; intros s Hc; cbn in Hc.
    + destruct (Hs s Hc) as (d' & Hd' & ->). rewrite (Hcached d' Hd'). eauto.
    + destruct (Hb s Hc) as (d' & Hd' & ->). rewrite (Hcached d' Hd'). eauto.
  - destruct (source_index_returns w self H) as (_ & _ & _ & H'). exact H'.
  - destruct (binary_cache_returns w self H) as (_ & _ & _ & H'). exact H'.
Qed.

Lemma after_preserves (w : World) (calls : list config.call)
    (self : config.Config) :
  derived_from_data_directory self ->
  derived_from_data_directory (config.after w calls self).
Proof.
  unfold config.after. revert self.
  induction calls as [|c rest IH]; intros self H; [exact H|].
  cbn [fold_left]. apply IH, perform_preserves, H.
Qed.

Lemma blank_derived (w : World) (load_env : bool) :
  derived_from_data_directory (config.blank w load_env).
Proof. split; intros s; discriminate. Qed.

Lemma data_directory_keeps_normalized (w : World) (self : config.Config) :
  data_directory_normalized self ->
  exists d, config.data_directory w self
            = (inr d, config.store_data_directory d self)
            /\ posixpath.normalized d = true.
Proof.
  intros H. destruct (data_directory_returns w self) as (d & Hd & Hc & Hn).
  exists d. split; [exact Hd|].
  destruct (config.cached_data_directory self) as [d'|] eqn:E.
  - rewrite (Hc d' eq_refl). apply H, E.
  - apply Hn. reflexivity.
Qed.

Lemma perform_keeps_normalized (w : World) (c : config.call)
    (self : config.Config) :
  data_directory_normalized self ->
  data_directory_normalized (config.perform w c self).
Proof.
  intros H.
  destruct (data_directory_keeps_normalized w self H) as (d & Hd & Hn).
  assert (Hstored : data_directory_normalized
                      (config.store_data_directory d self))
    by (intros d' [= <-]; exact Hn).
  destruct c; cbn [config.perform].
  - unfold config.available_configuration_files, cached_property.
    destruct (config.cached_available_configuration_files self);
      [exact H | exact H].
  - unfold config.load_configuration_file.
    destruct (parser_read w _) as [| |sections]; try exact H.
    destruct (negb _); exact H.
  - exact H.
  - rewrite Hd. exact Hstored.
  - unfold config.source_index, cached_property.
    destruct (config.cached_source_index self); [exact H|].
    unfold bind. rewrite Hd. exact Hstored.
  - unfold config.binary_cache, cached_property.
    destruct (config.cached_binary_cache self); [exact H|].
    unfold bind. rewrite Hd. exact Hstored.
Qed.

Lemma after_keeps_normalized (w : World) (calls : list config.call)
    (self : config.Config) :
  data_directory_normalized self ->
  data_directory_normalized (config.after w calls self).
Proof.
  unfold config.after. revert self.
  induction calls as [|c rest IH]; intros self H; [exact H|].
  cbn [fold_left]. apply IH, perform_keeps_normalized, H.
Qed.

Lemma blank_normalized (w : World) (load_env : bool) :
  data_directory_normalized (config.blank w load_env).
Proof. intros d. discriminate. Qed.

(** C8: on every configuration object the source index and the binary cache
    are the [sources] and [binaries] entries of the data directory, so both
    lie below it; two objects whose data directories differ have different
    source indexes and different binary caches. *)
Theorem derived_directories (w : World) (load_env : bool)
    (calls : list config.call) :
  let self := config.after w calls (config.blank w load_env) in
  exists d,
    fst (config.data_directory w self) = inr d
    /\ fst (config.source_index w self) = inr (posixpath.join d "sources")
    /\ fst (config.binary_cache w self) = inr (posixpath.join d "binaries")
    /\ String.prefix d (posixpath.join d "sources") = true
    /\ String.prefix d (posixpath.join d "binaries") = true
    /\ forall w' load_env' calls' d',
         fst (config.data_directory w'
                (config.after w' calls' (config.blank w' load_env')))
           = inr d' ->
         d <> d' ->
         fst (config.source_index w'
                (config.after w' calls' (config.blank w' load_env')))
           <> fst (config.source_index w self)
         /\ fst (config.binary_cache w'
                   (config.after w' calls' (config.blank w' load_env')))
            <> fst (config.binary_cache w self).
Proof.
  cbn zeta.
  pose proof (after_preserves w calls _ (blank_derived w load_env)) as Hinv.
  pose proof (after_keeps_normalized w calls _ (blank_normalized w load_env))
    as Hnorm.
  destruct (source_index_returns w _ Hinv) as (d & Hd & Hs & _).
  destruct (binary_cache_returns w _ Hinv) as (d0 & Hd0 & Hb & _).
  assert (d0 = d) by congruence. subst d0.
  destruct (data_directory_keeps_normalized w _ Hnorm) as (d0 & Hd0' & Hn).
  assert (d0 = d) by (rewrite Hd0' in Hd; cbn in Hd; congruence). subst d0.
  exists d. split; [exact Hd|]. split; [exact Hs|]. split; [exact Hb|].
  split; [apply join_prefix; discriminate|].
  split; [apply join_prefix; discriminate|].
  intros w' load_env' calls' d' Hd' Hne.
  pose proof (after_preserves w' calls' _ (blank_derived w' load_env')) as Hinv'.
  pose proof (after_keeps_normalized w' calls' _
                (blank_normalized w' load_env')) as Hnorm'.
  destruct (source_index_returns w' _ Hinv') as (d1 & Hd1 & Hs' & _).
  destruct (binary_cache_returns w' _ Hinv') as (d2 & Hd2 & Hb' & _).
  assert (d1 = d') by congruence. assert (d2 = d') by congruence. subst d1 d2.
  destruct (data_directory_keeps_normalized w' _ Hnorm') as (d1 & Hd1' & Hn').
  assert (d1 = d') by (rewrite Hd1' in Hd'; cbn in Hd'; congruence). subst d1.
  rewrite Hs, Hs', Hb, Hb'. split; intros [= H]; apply Hne; symmetry.
  - exact (join_injective _ _ "s" "ources" ltac:(discriminate) Hn' Hn H).
  - exact (join_injective _ _ "b" "inaries" ltac:(discriminate) Hn' Hn H).
Qed.

Lemma derived_directories_witness :
  let other :=
    config.after example.world
      [config.LoadConfigurationFile "/etc/pip-accel.conf"]
      (config.blank example.world true) in
  fst (config.data_directory example.world other) = inr "/var/data"
  /\ fst (config.source_index example.world
            (config.blank example.world true))
     = inr "/home/alice/.pip-accel/sources"
  /\ fst (config.source_index example.world other)
     <> fst (config.source_index example.world
               (config.blank example.world true)).
Proof.
  intros other.
  assert (H1 : fst (config.data_directory example.world other)
               = inr "/var/data") by (vm_compute; reflexivity).
  destruct (derived_directories example.world true [])
    as (d & Hd & Hs & _ & _ & _ & Hchange).
  assert (Hd' : d = "/home/alice/.pip-accel")
    by (vm_compute in Hd; congruence).
  subst d.
  split; [exact H1|]. split; [exact Hs|].
  refine (proj1 (Hchange example.world true
                   [config.LoadConfigurationFile "/etc/pip-accel.conf"]
                   "/var/data" H1 _)).
  discriminate.
Defined.

(** ** Memoized attributes of a descriptor *)

Section CoherenceProofs.

Variable w : World.
Variable c0 : config.Config.
Variable r0 : InstallRequirement.

Lemma fresh_coherent : coherent w c0 r0 (req.fresh c0 r0).
Proof.
  split; [reflexivity|]. split; [reflexivity|]. split; [reflexivity|].
  intros a v H. destruct a; discriminate.
Qed.

Lemma stable_ret {A} (a : A) : stable w c0 r0 (ret a).
Proof. exists (inr a). intros st H. split; [reflexivity | exact H]. Qed.

Lemma stable_raise {A} (e : exception) : stable w c0 r0 (raise e : M req.Store A).
Proof. exists (inl e). intros st H. split; [reflexivity | exact H]. Qed.

Lemma stable_lift {A} (x : result A) : stable w c0 r0 (lift x).
Proof. exists x. intros st H. split; [reflexivity | exact H]. Qed.

Lemma stable_bind {A B} (m : M req.Store A) (k : A -> M req.Store B) :
  stable w c0 r0 m -> (forall a, stable w c0 r0 (k a)) -> stable w c0 r0 (bind m k).
Proof.
  intros [V Hm] Hk. destruct V as [e|a].
  - exists (inl e). intros st H. destruct (Hm st H) as [Hv Hc].
    unfold bind. destruct (m st) as [[e'|a'] st']; cbn in *; [|discriminate].
    split; [congruence | exact Hc].
  - destruct (Hk a) as [W Hka]. exists W. intros st H.
    destruct (Hm st H) as [Hv Hc].
    unfold bind. destruct (m st) as [[e'|a'] st']; cbn in *; [discriminate|].
    injection Hv as ->. apply Hka, Hc.
Qed.

Lemma stable_returning {A B} (f : A -> B) (m : M req.Store A) :
  stable w c0 r0 m -> stable w c0 r0 (req.returning f m).
Proof. intros H. apply stable_bind; [exact H | intros a; apply stable_ret]. Qed.

(** Reading a field that the constructor set. *)
Lemma stable_field {A} (f : req.Requirement -> A) :
  (forall s, req.pip_requirement s = r0 ->
             req.setuptools_requirement s = req r0 -> f s = f (req.init r0)) ->
  stable w c0 r0 (req.on_self (gets f)).
Proof.
  intros Hf. exists (inr (f (req.init r0))). intros st H.
  unfold req.on_self, gets. cbn [fst snd].
  split; [|destruct st; exact H].
  destruct H as (Hp & Hs & _). rewrite (Hf _ Hp Hs). reflexivity.
Qed.

(** The source index of a configuration object does not change once read. *)
Lemma source_index_again (c : config.Config) :
  fst (config.source_index w (snd (config.source_index w c)))
  = fst (config.source_index w c).
Proof.
  destruct (config.cached_source_index c) as [s|] eqn:E.
  - assert (H : config.source_index w c = (inr s, c))
      by (unfold config.source_index, cached_property; rewrite E; reflexivity).
    rewrite H. cbn [snd]. rewrite H. reflexivity.
  - destruct (data_directory_returns w c) as (d & Hd & _).
    assert (H : config.source_index w c
                = (inr (posixpath.join d "sources"),
                   config.store_source_index (posixpath.join d "sources")
                     (config.store_data_directory d c)))
      by (unfold config.source_index, cached_property, bind;
          rewrite E, Hd; reflexivity).
    rewrite H. reflexivity.
Qed.

Lemma stable_source_index : stable w c0 r0 (req.on_config (config.source_index w)).
Proof.
  exists (fst (config.source_index w c0)). intros st (Hp & Hs & Hc & Hslots).
  unfold req.on_config.
  pose proof (source_index_again (req.config st)) as Hagain.
  destruct (config.source_index w (req.config st)) as [v c'].
  cbn [fst snd] in *. split; [exact Hc|].
  split; [exact Hp|]. split; [exact Hs|].
  split; [cbn [req.config]; congruence | exact Hslots].
Qed.

(** A memoized attribute whose function is stable is stable, provided the
    slot and the store operation are those of the attribute. *)
Lemma stable_cached {A} (a : req.attribute) (inj : A -> req.value)
    (slot : req.Requirement -> option A)
    (store : A -> req.Requirement -> req.Requirement) (func : M req.Store A) :
  (forall x y, inj x = inj y -> x = y) ->
  (forall s, req.slot a s = option_map inj (slot s)) ->
  (forall v s, req.slot a (store v s) = Some (inj v)) ->
  (forall v s a', a' <> a -> req.slot a' (store v s) = req.slot a' s) ->
  (forall v s, req.pip_requirement (store v s) = req.pip_requirement s) ->
  (forall v s, req.setuptools_requirement (store v s)
               = req.setuptools_requirement s) ->
  (forall st, fst (req.read w a st)
              = fst (req.returning inj (req.cached slot store func) st)) ->
  (forall a a' : req.attribute, {a = a'} + {a <> a'}) ->
  stable w c0 r0 func -> stable w c0 r0 (req.cached slot store func).
Proof.
  intros Hinj Hslot Hset Hother Hpip Hsetup Hread Hdec [V Hf].
  exists V. intros st H.
  assert (Hfresh : fst (req.read w a (req.fresh c0 r0))
                   = match V with inl e => inl e | inr v => inr (inj v) end).
  { rewrite Hread. unfold req.returning, bind, req.cached, cached_property.
    pose proof (Hslot (req.self (req.fresh c0 r0))) as Hnone.
    cbn in Hnone. destruct (slot (req.init r0)) eqn:E;
      [destruct a; discriminate|].
    cbn [req.fresh req.self]. rewrite E.
    destruct (Hf _ fresh_coherent) as [Hv _].
    destruct (func (req.fresh c0 r0)) as [[e|v] st']; cbn in Hv; subst V;
      reflexivity. }
  unfold req.cached, cached_property.
  destruct (slot (req.self st)) as [v|] eqn:E.
  - cbn [fst snd]. split; [|exact H].
    destruct H as (_ & _ & _ & Hslots).
    specialize (Hslots a (inj v)). rewrite Hslot, E in Hslots.
    specialize (Hslots eq_refl). rewrite Hfresh in Hslots.
    destruct V as [e|v']; [discriminate|].
    injection Hslots as Hs. apply Hinj in Hs. subst. reflexivity.
  - destruct (Hf st H) as [Hv Hc].
    destruct (func st) as [[e|v] st'] eqn:Ef; cbn [fst snd] in *.
    + split; [exact Hv | exact Hc].
    + split; [exact Hv|]. destruct Hc as (Hp & Hs & Hcfg & Hslots).
      split; [cbn; rewrite Hpip; exact Hp|].
      split; [cbn; rewrite Hsetup; exact Hs|].
      split; [exact Hcfg|].
      intros a' v' Ha'. cbn [req.self] in Ha'.
      destruct (Hdec a' a) as [->|Hne].
      * rewrite Hset in Ha'. injection Ha' as <-. rewrite Hfresh, <- Hv.
        reflexivity.
      * rewrite (Hother _ _ _ Hne) in Ha'. apply Hslots, Ha'.
Qed.

Lemma attribute_eq_dec (a a' : req.attribute) : {a = a'} + {a <> a'}.
Proof. decide equality. Qed.

Ltac stable_step :=
  lazymatch goal with
  | |- stable _ _ _ (bind _ _) =>
      apply stable_bind; [|intros ?]
  | |- stable _ _ _ (ret _) => apply stable_ret
  | |- stable _ _ _ (raise _) => apply stable_raise
  | |- stable _ _ _ (lift _) => apply stable_lift
  | |- stable _ _ _ (req.on_config (config.source_index _)) =>
      apply stable_source_index
  | |- stable _ _ _ (req.on_self (gets _)) =>
      apply stable_field;
      let s := fresh "s" in
      let Hp := fresh "Hp" in
      let Hs := fresh "Hs" in
      intros s Hp Hs; cbn; rewrite ?Hp, ?Hs; reflexivity
  | |- stable _ _ _ (if ?b then _ else _) => destruct b
  | |- stable _ _ _ (match ?x with _ => _ end) => destruct x
  end.

Ltac stable_memo a inj :=
  apply (stable_cached a inj);
  [ let x := fresh in let y := fresh in let H := fresh in
    intros x y H; injection H as ->; reflexivity
  | intros ?; reflexivity
  | intros ? ?; reflexivity
  | let a' := fresh "a" in
    intros ? ? a' ?; destruct a'; try reflexivity; congruence
  | intros ? ?; reflexivity
  | intros ? ?; reflexivity
  | intros ?; reflexivity
  | exact attribute_eq_dec
  | ].

Lemma stable_name : stable w c0 r0 req.name.
Proof. unfold req.name. stable_memo req.Name req.VStr. stable_step. Qed.

Lemma stable_source_directory : stable w c0 r0 req.source_directory.
Proof.
  unfold req.source_directory. stable_memo req.SourceDirectory req.VStr.
  stable_step.
Qed.

Lemma stable_is_transitive : stable w c0 r0 req.is_transitive.
Proof.
  unfold req.is_transitive. stable_memo req.IsTransitive req.VBool.
  stable_step.
Qed.

Lemma stable_is_editable : stable w c0 r0 req.is_editable.
Proof.
  unfold req.is_editable. stable_memo req.IsEditable req.VBool. stable_step.
Qed.

Lemma stable_is_direct : stable w c0 r0 req.is_direct.
Proof.
  unfold req.is_direct. stable_memo req.IsDirect req.VBool.
  stable_step; [apply stable_is_transitive | stable_step].
Qed.

Lemma stable_is_wheel : stable w c0 r0 (req.is_wheel w).
Proof.
  unfold req.is_wheel. stable_memo req.IsWheel req.VBool.
  stable_step; [apply stable_source_directory|]. cbv zeta.
  stable_step; [apply stable_source_directory|].
  repeat first [apply stable_source_directory | stable_step].
Qed.

Lemma stable_sdist_metadata : stable w c0 r0 (req.sdist_metadata w).
Proof.
  unfold req.sdist_metadata. stable_memo req.SdistMetadata req.VMessage.
  stable_step; [apply stable_is_wheel|].
  repeat stable_step.
Qed.

Lemma stable_wheel_metadata : stable w c0 r0 (req.wheel_metadata w).
Proof.
  unfold req.wheel_metadata. stable_memo req.WheelMetadata req.VDist.
  stable_step; [apply stable_is_wheel|].
  repeat first [apply stable_source_directory | progress cbv zeta | stable_step].
Qed.

Lemma stable_version : stable w c0 r0 (req.version w).
Proof.
  unfold req.version. stable_memo req.Version req.VVal.
  stable_step; [apply stable_is_wheel|].
  repeat first [apply stable_wheel_metadata | apply stable_sdist_metadata
               | stable_step].
Qed.

Lemma stable_join_matching (compiled : re.regex) (entries : list string) :
  stable w c0 r0 (req.join_matching w compiled entries).
Proof.
  induction entries as [|fn rest IH]; cbn [req.join_matching].
  - apply stable_ret.
  - destruct (re.match_ true compiled fn); [|exact IH].
    stable_step; [stable_step|]. stable_step; [exact IH | stable_step].
Qed.

Lemma stable_related_archives : stable w c0 r0 (req.related_archives w).
Proof.
  unfold req.related_archives.
  stable_memo req.RelatedArchives req.VList.
  stable_step; [apply stable_name|]. cbv zeta.
  stable_step; [apply stable_version|].
  stable_step; [unfold req.escape_of; repeat stable_step|].
  stable_step; [stable_step|]. stable_step; [stable_step|].
  stable_step; [stable_step|]. apply stable_join_matching.
Qed.

Lemma stable_last_modified : stable w c0 r0 (req.last_modified w).
Proof.
  unfold req.last_modified. stable_memo req.LastModified req.VNum.
  stable_step; [apply stable_related_archives|].
  stable_step; [stable_step|]. repeat stable_step.
Qed.

Lemma stable_read (a : req.attribute) : stable w c0 r0 (req.read w a).
Proof.
  destruct a; cbn [req.read]; apply stable_returning;
    auto using stable_name, stable_version, stable_related_archives,
      stable_last_modified, stable_source_directory, stable_is_wheel,
      stable_is_transitive, stable_is_direct, stable_is_editable,
      stable_sdist_metadata, stable_wheel_metadata.
Qed.

Lemma reads_coherent (script : list req.attribute) (st : req.Store) :
  coherent w c0 r0 st -> coherent w c0 r0 (req.reads w script st).
Proof.
  unfold req.reads. revert st.
  induction script as [|a rest IH]; intros st H; [exact H|].
  cbn [fold_left]. apply IH. destruct (stable_read a) as [V HV].
  apply (HV st H).
Qed.

(** On a coherent store an attribute reads as on the fresh descriptor. *)
Lemma read_coherent (a : req.attribute) (st : req.Store) :
  coherent w c0 r0 st ->
  fst (req.read w a st) = fst (req.read w a (req.fresh c0 r0)).
Proof.
  intros H. destruct (stable_read a) as [V HV].
  destruct (HV st H) as [-> _]. destruct (HV _ fresh_coherent) as [-> _].
  reflexivity.
Qed.

End CoherenceProofs.

(** ** Distribution format and metadata *)

Lemma is_wheel_after_reads (w : World) (c : config.Config)
    (r : InstallRequirement) (script : list req.attribute) :
  fst (req.is_wheel w (req.reads w script (req.fresh c r)))
  = fst (req.is_wheel w (req.fresh c r)).
Proof.
  destruct (stable_is_wheel w c r) as [V HV].
  destruct (HV _ (reads_coherent w c r script _ (fresh_coherent w c r)))
    as [-> _].
  destruct (HV _ (fresh_coherent w c r)) as [-> _]. reflexivity.
Qed.

Lemma source_directory_coherent (w : World) (c : config.Config)
    (r : InstallRequirement) (st : req.Store) :
  coherent w c r st ->
  exists st', req.source_directory st = (inr (source_dir r), st')
              /\ coherent w c r st'.
Proof.
  intros H. destruct (stable_source_directory w c r) as [D HD].
  destruct (HD _ (fresh_coherent w c r)) as [Hd0 _]. cbn in Hd0. subst D.
  destruct (HD _ H) as [Hv Hc].
  destruct (req.source_directory st) as [v st']. cbn [fst snd] in *.
  subst v. eauto.
Qed.

(** C1, as amended: the format is decided by two pieces of evidence in the
    source directory, a [setup.py] file and a [*.dist-info/WHEEL] file.
    Only the first: a source distribution ([is_wheel] is false); only the
    second: a wheel (true); both, or neither: [UnknownDistributionFormat]
    is raised with the requirement and the directory, the text telling the
    two cases apart. *)
Theorem distribution_format_detection (w : World) (c : config.Config)
    (r : InstallRequirement) (script : list req.attribute) :
  let st := req.reads w script (req.fresh c r) in
  let probably_sdist := isfile w (posixpath.join (source_dir r) "setup.py") in
  let probably_wheel :=
    Nat.ltb 0 (length (glob w (posixpath.join
                                 (posixpath.join (source_dir r) "*.dist-info")
                                 "WHEEL"))) in
  fst (req.is_wheel w st) =
  match probably_sdist, probably_wheel with
  | true, false => inr false
  | false, true => inr true
  | true, true =>
      inl (UnknownDistributionFormat req.both_text (req r) (source_dir r))
  | false, false =>
      inl (UnknownDistributionFormat req.neither_text (req r) (source_dir r))
  end.
Proof.
  cbn zeta. rewrite is_wheel_after_reads.
  unfold req.is_wheel, req.cached, cached_property, bind.
  cbn -[posixpath.join Nat.ltb].
  destruct (isfile w _);
    match goal with
    | |- context [Nat.ltb 0 ?n] => destruct (Nat.ltb 0 n)
    end; reflexivity.
Qed.

(** C1, as stated, fails: with both pieces of evidence the exception is not
    an [AmbiguousDistributionFormat] but an [UnknownDistributionFormat]. *)
Lemma ambiguous_format_counterexample :
  let st := req.fresh example.settings
              (example.requirement "both" "/build/both") in
  isfile example.world (posixpath.join "/build/both" "setup.py") = true
  /\ glob example.world
       (posixpath.join (posixpath.join "/build/both" "*.dist-info") "WHEEL")
     = ["/build/both/both-1.0.dist-info/WHEEL"]
  /\ fst (req.is_wheel example.world st)
     = inl (UnknownDistributionFormat req.both_text
              {| project_name := "both" |} "/build/both")
  /\ raises "AmbiguousDistributionFormat" (fst (req.is_wheel example.world st))
     = false.
Proof. vm_compute. repeat split; reflexivity. Qed.

(** C2: once the format is detected, the accessor of the other format
    raises a [TypeError]; the accessor of the detected format does not: it
    returns the metadata or, for a wheel that [pkg_resources] does not find,
    raises a plain [Exception]. *)
Theorem metadata_accessors (w : World) (c : config.Config)
    (r : InstallRequirement) (script : list req.attribute) (wheel : bool) :
  let st := req.reads w script (req.fresh c r) in
  fst (req.is_wheel w st) = inr wheel ->
  fst (req.sdist_metadata w st)
  = (if wheel
     then inl (TypeError "Requirement is not a source distribution!")
     else inr (pkg_info w r))
  /\ fst (req.wheel_metadata w st)
     = (if wheel
        then match find_distributions w (source_dir r) with
             | distribution :: _ => inr distribution
             | [] =>
                 inl (Exception
                        (percent
                           "pkg_resources didn't find a wheel distribution in %s!"
                           [source_dir r]))
             end
        else inl (TypeError "Requirement is not a wheel distribution!"))
  /\ raises "TypeError" (fst (req.sdist_metadata w st)) = wheel
  /\ raises "TypeError" (fst (req.wheel_metadata w st)) = negb wheel.
Proof.
  cbn zeta. rewrite is_wheel_after_reads. intros Hw.
  pose proof (reads_coherent w c r script _ (fresh_coherent w c r)) as Hst.
  set (st := req.reads w script (req.fresh c r)) in *.
  assert (Hs : fst (req.sdist_metadata w st)
               = fst (req.sdist_metadata w (req.fresh c r))).
  { destruct (stable_sdist_metadata w c r) as [V HV].
    destruct (HV _ Hst) as [-> _].
    destruct (HV _ (fresh_coherent w c r)) as [-> _]. reflexivity. }
  assert (Hm : fst (req.wheel_metadata w st)
               = fst (req.wheel_metadata w (req.fresh c r))).
  { destruct (stable_wheel_metadata w c r) as [V HV].
    destruct (HV _ Hst) as [-> _].
    destruct (HV _ (fresh_coherent w c r)) as [-> _]. reflexivity. }
  rewrite Hs, Hm. clear Hs Hm Hst st.
  assert (Hsd : fst (req.sdist_metadata w (req.fresh c r))
                = match fst (req.is_wheel w (req.fresh c r)) with
                  | inl e => inl e
                  | inr true =>
                      inl (TypeError "Requirement is not a source distribution!")
                  | inr false => inr (pkg_info w r)
                  end).
  { unfold req.sdist_metadata, req.cached, cached_property, bind.
    cbn [req.fresh req.self req.init req.cached_sdist_metadata].
    destruct (req.is_wheel w _) as [[e|[]] st'] eqn:E; cbn [fst]; try reflexivity.
    destruct (stable_is_wheel w c r) as [V HV].
    destruct (HV _ (fresh_coherent w c r)) as [_ Hc]. rewrite E in Hc.
    cbn [snd] in Hc.
    destruct Hc as (Hp & _). unfold req.on_self, gets. cbn. rewrite Hp.
    reflexivity. }
  assert (Hwm : fst (req.wheel_metadata w (req.fresh c r))
                = match fst (req.is_wheel w (req.fresh c r)) with
                  | inl e => inl e
                  | inr false =>
                      inl (TypeError "Requirement is not a wheel distribution!")
                  | inr true =>
                      match find_distributions w (source_dir r) with
                      | distribution :: _ => inr distribution
                      | [] =>
                          inl (Exception
                                 (percent
                                    "pkg_resources didn't find a wheel distribution in %s!"
                                    [source_dir r]))
                      end
                  end).
  { unfold req.wheel_metadata, req.cached, cached_property, bind.
    cbn [req.fresh req.self req.init req.cached_wheel_metadata].
    destruct (req.is_wheel w _) as [[e|[]] st'] eqn:E; cbn [fst negb];
      try reflexivity.
    destruct (stable_is_wheel w c r) as [V HV].
    destruct (HV _ (fresh_coherent w c r)) as [_ Hc]. rewrite E in Hc.
    cbn [snd] in Hc.
    destruct (source_directory_coherent w c r _ Hc) as (st1 & E1 & Hc1).
    rewrite E1. destruct (find_distributions w (source_dir r)); [|reflexivity].
    destruct (source_directory_coherent w c r _ Hc1) as (st2 & E2 & _).
    rewrite E2. reflexivity. }
  rewrite Hsd, Hwm, Hw. destruct wheel.
  - repeat split. destruct (find_distributions w (source_dir r)); reflexivity.
  - repeat split.
Qed.

Lemma metadata_accessors_witness :
  let st := req.fresh example.settings
              (example.requirement "wheel" "/build/wheel") in
  fst (req.is_wheel example.world st) = inr true
  /\ fst (req.sdist_metadata example.world st)
     = inl (TypeError "Requirement is not a source distribution!")
  /\ fst (req.wheel_metadata example.world st)
     = inr {| dist_version := "0.24" |}.
Proof.
  intros st.
  assert (H : fst (req.is_wheel example.world st) = inr true)
    by (vm_compute; reflexivity).
  split; [exact H|].
  destruct (metadata_accessors example.world example.settings
              (example.requirement "wheel" "/build/wheel") [] true H)
    as (Hs & Hm & _).
  split; [exact Hs | exact Hm].
Defined.

(** ** Idempotence *)

(** C9: a second descriptor built from the same requirement and the same
    configuration object, after the first one was used, reads every
    attribute as the first one does; and whatever was read before, an
    attribute reads as on the untouched descriptor. *)
Theorem descriptor_idempotent (w : World) (c : config.Config)
    (r : InstallRequirement) (script1 script2 : list req.attribute)
    (a : req.attribute) :
  let first := req.reads w script1 (req.fresh c r) in
  let second := req.reads w script2 (req.fresh (req.config first) r) in
  fst (req.read w a second) = fst (req.read w a first)
  /\ fst (req.read w a first) = fst (req.read w a (req.fresh c r)).
Proof.
  cbn zeta.
  pose proof (reads_coherent w c r script1 _ (fresh_coherent w c r)) as H1.
  set (first := req.reads w script1 (req.fresh c r)) in *.
  assert (H2 : coherent w c r (req.fresh (req.config first) r)).
  { destruct H1 as (_ & _ & Hc & _).
    split; [reflexivity|]. split; [reflexivity|]. split; [exact Hc|].
    intros a' v H. destruct a'; discriminate. }
  pose proof (reads_coherent w c r script2 _ H2) as H3.
  rewrite (read_coherent w c r a _ H3), (read_coherent w c r a _ H1).
  split; reflexivity.
Qed.

(** ** Freshness *)

Lemma list_max_spec (first : Z) (others : list Z) :
  In (req.list_max first others) (first :: others)
  /\ forall t, In t (first :: others) -> (t <= req.list_max first others)%Z.
Proof.
  unfold req.list_max. revert first.
  induction others as [|x rest IH]; intros first; cbn [fold_left].
  - split; [left; reflexivity|]. intros t [->|[]]. lia.
  - destruct (IH (Z.max first x)) as [Hin Hle]. split.
    + destruct Hin as [Hin|Hin]; [|right; right; exact Hin].
      rewrite <- Hin. destruct (Z.max_spec first x) as [[_ ->]|[_ ->]];
        [right; left; reflexivity | left; reflexivity].
    + intros t [->|[->|Ht]].
      * specialize (Hle (Z.max t x) (or_introl eq_refl)). lia.
      * specialize (Hle (Z.max first t) (or_introl eq_refl)). lia.
      * apply Hle. right. exact Ht.
Qed.

Lemma getmtimes_Forall2 (w : World) (pathnames : list string)
    (mtimes : list Z) :
  req.getmtimes w pathnames = inr mtimes <->
  Forall2 (fun p t => getmtime w p = inr t) pathnames mtimes.
Proof.
  revert mtimes. induction pathnames as [|p rest IH]; intros mtimes;
    cbn [req.getmtimes].
  - split; [intros [= <-]; constructor | intros H; inversion H; reflexivity].
  - split.
    + destruct (getmtime w p) as [e|t] eqn:E; [discriminate|].
      destruct (req.getmtimes w rest) as [e|ts] eqn:Er; [discriminate|].
      intros [= <-]. constructor; [exact E | apply IH; reflexivity].
    + intros H. inversion H as [|p' t rest' ts Hp Hrest]; subst.
      rewrite Hp. apply IH in Hrest. rewrite Hrest. reflexivity.
Qed.

(** Reading any other attribute leaves [last_modified] uncomputed. *)
Lemma keeps_bind {A B} (m : M req.Store A) (k : A -> M req.Store B) :
  keeps_last_modified m -> (forall a, keeps_last_modified (k a)) ->
  keeps_last_modified (bind m k).
Proof.
  intros Hm Hk st. unfold bind. specialize (Hm st).
  destruct (m st) as [[e|a] st']; cbn [snd] in *; [exact Hm|].
  rewrite Hk. exact Hm.
Qed.

Lemma keeps_cached {A} (slot : req.Requirement -> option A)
    (store : A -> req.Requirement -> req.Requirement) (func : M req.Store A) :
  (forall v s, req.cached_last_modified (store v s)
               = req.cached_last_modified s) ->
  keeps_last_modified func -> keeps_last_modified (req.cached slot store func).
Proof.
  intros Hstore Hf st. unfold req.cached, cached_property.
  destruct (slot (req.self st)); [reflexivity|]. specialize (Hf st).
  destruct (func st) as [[e|v] st']; cbn [snd req.self] in *; [exact Hf|].
  rewrite Hstore. exact Hf.
Qed.

Ltac keeps_step :=
  lazymatch goal with
  | |- keeps_last_modified (bind _ _) => apply keeps_bind; [|intros ?]
  | |- keeps_last_modified (req.cached _ _ _) =>
      apply keeps_cached; [intros ? ?; reflexivity|]
  | |- keeps_last_modified (if ?b then _ else _) => destruct b
  | |- keeps_last_modified (match ?x with _ => _ end) => destruct x
  | |- keeps_last_modified _ => intros ?; reflexivity
  end.

Lemma keeps_source_directory : keeps_last_modified req.source_directory.
Proof. unfold req.source_directory. repeat keeps_step. Qed.

Lemma keeps_is_wheel (w : World) : keeps_last_modified (req.is_wheel w).
Proof.
  unfold req.is_wheel.
  repeat first [apply keeps_source_directory | progress cbv zeta | keeps_step].
Qed.

Lemma keeps_sdist_metadata (w : World) :
  keeps_last_modified (req.sdist_metadata w).
Proof.
  unfold req.sdist_metadata. repeat first [apply keeps_is_wheel | keeps_step].
Qed.

Lemma keeps_wheel_metadata (w : World) :
  keeps_last_modified (req.wheel_metadata w).
Proof.
  unfold req.wheel_metadata.
  repeat first [apply keeps_is_wheel | apply keeps_source_directory
               | progress cbv zeta | keeps_step].
Qed.

Lemma keeps_version (w : World) : keeps_last_modified (req.version w).
Proof.
  unfold req.version.
  repeat first [apply keeps_is_wheel | apply keeps_sdist_metadata
               | apply keeps_wheel_metadata | keeps_step].
Qed.

Lemma keeps_on_config {A} (m : M config.Config A) :
  keeps_last_modified (req.on_config m).
Proof. intros st. unfold req.on_config. destruct (m _). reflexivity. Qed.

Lemma keeps_join_matching (w : World) (compiled : re.regex)
    (entries : list string) :
  keeps_last_modified (req.join_matching w compiled entries).
Proof.
  induction entries as [|fn rest IH]; cbn [req.join_matching].
  - intros st. reflexivity.
  - destruct (re.match_ true compiled fn); [|exact IH].
    apply keeps_bind; [apply keeps_on_config|]. intros d.
    apply keeps_bind; [exact IH|]. intros found st. reflexivity.
Qed.

Lemma keeps_related_archives (w : World) :
  keeps_last_modified (req.related_archives w).
Proof.
  unfold req.related_archives, req.name.
  apply keeps_cached; [intros ? ?; reflexivity|].
  apply keeps_bind; [repeat keeps_step|]. intros n. cbv zeta.
  apply keeps_bind; [apply keeps_version|]. intros v.
  apply keeps_bind; [unfold req.escape_of; repeat keeps_step|]. intros p.
  apply keeps_bind; [keeps_step|]. intros compiled.
  apply keeps_bind; [apply keeps_on_config|]. intros d.
  apply keeps_bind; [keeps_step|]. intros entries.
  apply keeps_join_matching.
Qed.

Lemma keeps_read (w : World) (a : req.attribute) :
  not_last_modified a = true -> keeps_last_modified (req.read w a).
Proof.
  destruct a; try discriminate; intros _; cbn [req.read];
    unfold req.returning;
    (apply keeps_bind; [|intros ? ?; reflexivity]).
  - unfold req.name. repeat keeps_step.
  - apply keeps_version.
  - apply keeps_related_archives.
  - apply keeps_source_directory.
  - apply keeps_is_wheel.
  - unfold req.is_transitive. repeat keeps_step.
  - unfold req.is_direct, req.is_transitive. repeat keeps_step.
  - unfold req.is_editable. repeat keeps_step.
  - apply keeps_sdist_metadata.
  - apply keeps_wheel_metadata.
Qed.

(** After reads of other attributes only, [last_modified] is still to be
    computed. *)
Lemma last_modified_not_computed (w : World) (c : config.Config)
    (r : InstallRequirement) (script : list req.attribute) :
  forallb not_last_modified script = true ->
  req.cached_last_modified (req.self (req.reads w script (req.fresh c r)))
  = None.
Proof.
  unfold req.reads.
  assert (H : forall st,
             forallb not_last_modified script = true ->
             req.cached_last_modified
               (req.self (fold_left (fun s a => snd (req.read w a s)) script st))
             = req.cached_last_modified (req.self st)).
  { induction script as [|a rest IH]; intros st Hs; [reflexivity|].
    cbn [forallb] in Hs. apply andb_true_iff in Hs as [Ha Hrest].
    cbn [fold_left]. rewrite (IH _ Hrest). apply keeps_read, Ha. }
  intros Hs. rewrite (H _ Hs). reflexivity.
Qed.

(** A value that is cached is returned as it is, whatever the time. *)
Lemma last_modified_memoized (w : World) (st : req.Store) (t : Z) :
  req.cached_last_modified (req.self st) = Some t ->
  req.last_modified w st = (inr t, st).
Proof.
  intros H. unfold req.last_modified, req.cached, cached_property. cbn beta.
  rewrite H. reflexivity.
Qed.

(** C6: when it is computed, [last_modified] is the largest modification
    time of the related archives if there are any, and the time of the
    call if there are none. *)
Theorem last_modified_value (w : World) (st : req.Store)
    (archives : list string) (mtimes : list Z) :
  req.cached_last_modified (req.self st) = None ->
  fst (req.related_archives w st) = inr archives ->
  Forall2 (fun p t => getmtime w p = inr t) archives mtimes ->
  exists m,
    fst (req.last_modified w st) = inr m
    /\ (archives = [] -> m = time w)
    /\ (archives <> [] -> In m mtimes /\ forall t, In t mtimes -> (t <= m)%Z).
Proof.
  intros Hnone Hra Hm. apply getmtimes_Forall2 in Hm as Hg.
  unfold req.last_modified, req.cached, cached_property. cbn beta.
  rewrite Hnone. unfold bind at 1.
  destruct (req.related_archives w st) as [res st'] eqn:E. cbn [fst] in Hra.
  subst res. unfold bind, lift. rewrite Hg.
  destruct mtimes as [|t ts].
  - exists (time w). split; [reflexivity|]. split; [reflexivity|].
    intros Hne. inversion Hm; subst. congruence.
  - exists (req.list_max t ts). split; [reflexivity|].
    split; [intros ->; inversion Hm|]. intros _. apply list_max_spec.
Qed.

Lemma last_modified_value_witness :
  let foo := req.fresh example.settings
               (example.requirement "foo" "/build/foo") in
  let none := req.fresh example.settings
                (example.requirement "wheel" "/build/wheel") in
  fst (req.related_archives example.world foo)
    = inr ["/data/sources/foo-1.0.tar.gz"; "/data/sources/Foo-1.0.zip"]
  /\ fst (req.last_modified example.world foo) = inr 2000%Z
  /\ fst (req.related_archives example.world none) = inr []
  /\ fst (req.last_modified example.world none) = inr (time example.world).
Proof.
  intros foo none.
  assert (Hfoo : fst (req.related_archives example.world foo)
                 = inr ["/data/sources/foo-1.0.tar.gz";
                        "/data/sources/Foo-1.0.zip"])
    by (vm_compute; reflexivity).
  assert (Hnone : fst (req.related_archives example.world none) = inr [])
    by (vm_compute; reflexivity).
  assert (Hm : Forall2 (fun p t => getmtime example.world p = inr t)
                 ["/data/sources/foo-1.0.tar.gz"; "/data/sources/Foo-1.0.zip"]
                 [1000%Z; 2000%Z])
    by (repeat constructor).
  destruct (last_modified_value example.world foo _ _ eq_refl Hfoo Hm)
    as (m & Hv & _ & Hmax).
  destruct (last_modified_value example.world none [] [] eq_refl Hnone
              (List.Forall2_nil _)) as (m' & Hv' & Hnow & _).
  split; [exact Hfoo|]. split.
  - rewrite Hv. f_equal.
    destruct (Hmax ltac:(discriminate)) as [Hin Hle].
    pose proof (Hle 2000%Z ltac:(right; left; reflexivity)).
    destruct Hin as [<-|[<-|[]]]; [lia | reflexivity].
  - split; [exact Hnone|]. rewrite Hv', (Hnow eq_refl). reflexivity.
Defined.

(** ** Parsing the pattern of [related_archives] *)

Ltac each_char c := destruct c as [[] [] [] [] [] [] [] []].

Lemma alnum_not_special (c : ascii) : is_alnum c = true -> special c = false.
Proof. each_char c; vm_compute; congruence. Qed.

Lemma alnum_not_zero_escape (c : ascii) :
  is_alnum c = false -> Ascii.eqb c "0" = false.
Proof. each_char c; vm_compute; congruence. Qed.

Lemma parse_seq_plain (f : nat) (c : ascii) (s : string) :
  special c = false ->
  re.parse_seq (S f) (String c s) = re.then_seq (re.Literal c) (re.parse_seq f s).
Proof.
  intros H. unfold special in H.
  repeat (apply orb_false_iff in H; destruct H as [H ?]).
  cbn [re.parse_seq].
  repeat match goal with
         | E : Ascii.eqb _ _ = false |- _ => rewrite E; clear E
         | E : re.unsupported _ = false |- _ => rewrite E; clear E
         end.
  reflexivity.
Qed.

Lemma parse_seq_escaped (f : nat) (c : ascii) (s : string) :
  is_alnum c = false ->
  re.parse_seq (S f) (String "\" (String c s))
  = re.then_seq (re.Literal c) (re.parse_seq f s).
Proof.
  intros H. cbn [re.parse_seq]. cbn [Ascii.eqb Bool.eqb orb].
  rewrite (alnum_not_zero_escape c H), H. reflexivity.
Qed.

Lemma parse_seq_nul (f : nat) (s : string) :
  re.parse_seq (S f) ("\000" ++ s)
  = re.then_seq (re.Literal NUL) (re.parse_seq f s).
Proof. reflexivity. Qed.

Lemma parse_seq_set (f : nat) (s : string) :
  re.parse_seq (S f) ("[-_]" ++ s)
  = re.then_seq (re.InSet ["-"%char; "_"%char]) (re.parse_seq f s).
Proof. reflexivity. Qed.

Lemma then_seq_items (item : re.regex) (items : list re.regex)
    (rest : option (re.regex * string)) :
  re.then_seq item (then_items items rest) = then_items (item :: items) rest.
Proof. destruct rest as [[r s]|]; reflexivity. Qed.

Lemma then_items_nil (rest : option (re.regex * string)) :
  then_items [] rest = rest.
Proof. destruct rest as [[r s]|]; reflexivity. Qed.

Lemma alnum_not_dash (c : ascii) :
  is_alnum c = true -> is_dash_or_underscore c = false.
Proof. each_char c; vm_compute; congruence. Qed.

(** An escaped text parses into its characters, whatever follows. *)
Lemma parse_seq_escape (v : string) (f : nat) (rest : string) :
  re.parse_seq (String.length v + f) (re.escape v ++ rest)
  = then_items (literals v) (re.parse_seq f rest).
Proof.
  induction v as [|c v IH].
  - cbn [re.escape String.length Nat.add]. rewrite append_nil.
    symmetry. apply then_items_nil.
  - cbn [re.escape String.length Nat.add]. rewrite append_assoc.
    change (literals (String c v)) with (re.Literal c :: literals v).
    rewrite <- then_seq_items, <- IH.
    destruct (is_alnum c) eqn:A.
    + rewrite append_cons, append_nil.
      apply parse_seq_plain, alnum_not_special, A.
    + destruct (Ascii.eqb_spec c NUL) as [->|N].
      * apply parse_seq_nul.
      * rewrite !append_cons, append_nil. apply parse_seq_escaped, A.
Qed.

(** An escaped requirement name parses into one item per character. *)
Lemma parse_seq_escape_name (n : string) (f : nat) (rest : string) :
  re.parse_seq (String.length n + f) (req.escape_name n ++ rest)
  = then_items (name_items n) (re.parse_seq f rest).
Proof.
  induction n as [|c n IH].
  - cbn [req.escape_name String.length Nat.add]. rewrite append_nil.
    symmetry. apply then_items_nil.
  - cbn [req.escape_name String.length Nat.add]. rewrite append_assoc.
    change (name_items (String c n)) with (name_item c :: name_items n).
    rewrite <- then_seq_items, <- IH. unfold name_item.
    destruct (is_alnum c) eqn:A; cbn [negb].
    + rewrite (alnum_not_dash c A), append_cons, append_nil.
      apply parse_seq_plain, alnum_not_special, A.
    + unfold req.escape_name_callback.
      change (Ascii.eqb c "-" || Ascii.eqb c "_")%bool
        with (is_dash_or_underscore c).
      destruct (is_dash_or_underscore c).
      * apply parse_seq_set.
      * rewrite !append_cons, append_nil. apply parse_seq_escaped, A.
Qed.

(** More fuel does not change what a pattern parses into. *)
Lemma parse_more_fuel (f : nat) :
  (forall s x, re.parse_sub f s = Some x ->
               forall g, f <= g -> re.parse_sub g s = Some x)
  /\ (forall s x, re.parse_seq f s = Some x ->
                  forall g, f <= g -> re.parse_seq g s = Some x).
Proof.
  induction f as [|f [IHsub IHseq]]; [split; intros; discriminate|].
  assert (Hthen : forall item t x g,
            re.then_seq item (re.parse_seq f t) = Some x -> f <= g ->
            re.then_seq item (re.parse_seq g t) = Some x).
  { intros item t x g H Hle.
    destruct (re.parse_seq f t) as [y|] eqn:E; [|discriminate].
    rewrite (IHseq _ _ E g Hle). exact H. }
  split; intros s x H [|g] Hle; try lia; apply le_S_n in Hle.
  - cbn [re.parse_sub] in *.
    destruct (re.parse_seq f s) as [[r rest]|] eqn:E; [|discriminate].
    rewrite (IHseq _ _ E g Hle).
    destruct (starts_with "|" rest); [|exact H].
    destruct (re.parse_sub f (tail rest)) as [[r' rest']|] eqn:E';
      [|discriminate].
    rewrite (IHsub _ _ E' g Hle). exact H.
  - cbn [re.parse_seq] in *. destruct s as [|c s]; [exact H|].
    destruct (Ascii.eqb c "|" || Ascii.eqb c ")")%bool; [exact H|].
    destruct (Ascii.eqb c "\").
    { destruct s as [|e s]; [discriminate|].
      destruct (Ascii.eqb e "0"); [apply Hthen; assumption|].
      destruct (is_alnum e); [discriminate | apply Hthen; assumption]. }
    destruct (Ascii.eqb c "[").
    { destruct (starts_with "^" s); [discriminate|].
      destruct (re.parse_set true s) as [[cs s'']|]; [|discriminate].
      apply Hthen; assumption. }
    destruct (Ascii.eqb c "(").
    { destruct (starts_with "?" s); [discriminate|].
      destruct (re.parse_sub f s) as [[r rest]|] eqn:E; [|discriminate].
      rewrite (IHsub _ _ E g Hle).
      destruct (starts_with ")" rest); [|discriminate].
      apply Hthen; assumption. }
    destruct (Ascii.eqb c "^"); [apply Hthen; assumption|].
    destruct (Ascii.eqb c "$"); [apply Hthen; assumption|].
    destruct (re.unsupported c); [discriminate | apply Hthen; assumption].
Qed.

Lemma parse_seq_more_fuel (f g : nat) (s : string) (x : re.regex * string) :
  re.parse_seq f s = Some x -> f <= g -> re.parse_seq g s = Some x.
Proof. intros H Hle. exact (proj2 (parse_more_fuel f) s x H g Hle). Qed.

Lemma parse_seq_end (f : nat) (rest : string) :
  stops rest = true -> re.parse_seq (S f) rest = Some (re.Empty, rest).
Proof.
  destruct rest as [|c rest]; [reflexivity|].
  unfold stops. cbn [String.eqb starts_with orb re.parse_seq].
  intros H. rewrite orb_comm, H. reflexivity.
Qed.

Lemma length_escape (v : string) :
  String.length v <= String.length (re.escape v).
Proof.
  induction v as [|c v IH]; [reflexivity|].
  cbn [re.escape]. rewrite append_length. cbn [String.length].
  destruct (is_alnum c); [|destruct (Ascii.eqb c NUL)]; cbn [String.length]; lia.
Qed.

Lemma length_escape_name (n : string) :
  String.length n <= String.length (req.escape_name n).
Proof.
  induction n as [|c n IH]; [reflexivity|].
  cbn [req.escape_name]. rewrite append_length. cbn [String.length].
  unfold req.escape_name_callback.
  destruct (is_alnum c); cbn [negb];
    [|destruct (Ascii.eqb c "-" || Ascii.eqb c "_")%bool];
    cbn [String.length]; lia.
Qed.

Lemma parse_seq_alternative (e : string) (f : nat) (rest : string) :
  stops rest = true -> String.length (re.escape e) + 1 <= f ->
  re.parse_seq f (re.escape e ++ rest)
  = Some (sequence (literals e) re.Empty, rest).
Proof.
  intros Hstop Hf.
  apply (parse_seq_more_fuel (String.length e + 1)).
  - rewrite parse_seq_escape. replace 1 with (S 0) by reflexivity.
    rewrite (parse_seq_end 0 rest Hstop). reflexivity.
  - pose proof (length_escape e). lia.
Qed.

(** The alternatives of the group parse up to the closing parenthesis. *)
Lemma parse_sub_alternatives (exts : list string) (rest : string) (f : nat) :
  starts_with ")" rest = true ->
  String.length (str_join "|" (map re.escape exts)) + 2 <= f ->
  re.parse_sub f (str_join "|" (map re.escape exts) ++ rest)
  = Some (alternatives exts, rest).
Proof.
  intros Hrest.
  assert (Hstop : stops rest = true)
    by (unfold stops; rewrite Hrest, orb_true_r; reflexivity).
  assert (Hbar : starts_with "|" rest = false)
    by (destruct rest as [|c rest']; [reflexivity|];
        cbn in *; apply Ascii.eqb_eq in Hrest; subst; reflexivity).
  revert f. induction exts as [|e [|e' more] IH]; intros [|f] Hf; try lia.
  - cbn [map str_join alternatives]. rewrite append_nil. cbn [re.parse_sub].
    destruct f as [|f]; [cbn in Hf; lia|].
    rewrite (parse_seq_end f rest Hstop), Hbar. reflexivity.
  - cbn [map str_join alternatives] in *. cbn [re.parse_sub].
    rewrite (parse_seq_alternative e f rest Hstop) by lia.
    rewrite Hbar. reflexivity.
  - change (str_join "|" (map re.escape (e :: e' :: more)))
      with (re.escape e ++ "|" ++ str_join "|" (map re.escape (e' :: more)))
      in *.
    change (alternatives (e :: e' :: more))
      with (re.Branch (sequence (literals e) re.Empty)
                      (alternatives (e' :: more))).
    rewrite !append_length in Hf. cbn [String.length] in Hf.
    rewrite !append_assoc. cbn [re.parse_sub].
    rewrite (parse_seq_alternative e f) by (reflexivity || lia).
    rewrite append_cons, append_nil. cbn [starts_with tail Ascii.eqb Bool.eqb].
    rewrite IH by lia. reflexivity.
Qed.

Lemma escape_not_question (e rest : string) :
  starts_with "?" rest = false -> starts_with "?" (re.escape e ++ rest) = false.
Proof.
  destruct e as [|c e]; [intros H; exact H|]. intros _.
  cbn [re.escape]. rewrite append_assoc.
  destruct (is_alnum c) eqn:A; [|destruct (Ascii.eqb c NUL)];
    try reflexivity.
  rewrite append_cons. cbn [starts_with].
  revert A. each_char c; vm_compute; congruence.
Qed.

Lemma joined_not_question (exts : list string) (rest : string) :
  starts_with "?" rest = false ->
  starts_with "?" (str_join "|" (map re.escape exts) ++ rest) = false.
Proof.
  intros H. destruct exts as [|e [|e' more]].
  - exact H.
  - apply escape_not_question, H.
  - change (str_join "|" (map re.escape (e :: e' :: more)))
      with (re.escape e ++ "|" ++ str_join "|" (map re.escape (e' :: more))).
    rewrite append_assoc. apply escape_not_question. reflexivity.
Qed.

Lemma parse_seq_caret (f : nat) (s : string) :
  re.parse_seq (S f) (String "^" s)
  = re.then_seq re.AtBeginning (re.parse_seq f s).
Proof. reflexivity. Qed.

Lemma parse_seq_dollar (f : nat) (s : string) :
  re.parse_seq (S f) (String "$" s) = re.then_seq re.AtEnd (re.parse_seq f s).
Proof. reflexivity. Qed.

Lemma parse_seq_group (f : nat) (s : string) :
  re.parse_seq (S f) (String "(" s)
  = if starts_with "?" s then None
    else match re.parse_sub f s with
         | Some (r, rest) =>
             if starts_with ")" rest
             then re.then_seq (re.Subpattern r) (re.parse_seq f (tail rest))
             else None
         | None => None
         end.
Proof. reflexivity. Qed.

Lemma parse_archive_pattern (n v : string) (exts : list string) :
  re.parse_seq
    (S (String.length n
        + S (String.length v
             + S (S (S (String.length
                          (str_join "|" (map re.escape exts))))))))
    ("^" ++ req.escape_name n ++ "-" ++ re.escape v ++ "("
     ++ str_join "|" (map re.escape exts) ++ ")$")
  = Some (re.Seq re.AtBeginning
            (sequence (name_items n)
               (re.Seq (re.Literal "-")
                  (sequence (literals v)
                     (re.Seq (re.Subpattern (alternatives exts))
                        (re.Seq re.AtEnd re.Empty))))), "").
Proof.
  rewrite append_cons, append_nil, parse_seq_caret.
  rewrite parse_seq_escape_name. rewrite append_cons, append_nil.
  rewrite parse_seq_plain by reflexivity.
  rewrite parse_seq_escape. rewrite append_cons, append_nil.
  rewrite parse_seq_group.
  rewrite (joined_not_question exts ")$" eq_refl).
  rewrite (parse_sub_alternatives exts ")$" _ eq_refl) by lia.
  cbn [starts_with tail Ascii.eqb Bool.eqb].
  rewrite parse_seq_dollar. reflexivity.
Qed.

(** The pattern of [related_archives] always compiles, into the expected
    parsed form. *)
Lemma compile_archive_pattern (n v : string) (extensions : list string) :
  re.compile (archive_pattern n v extensions)
  = inr (parsed_pattern n v extensions).
Proof.
  unfold re.compile, archive_pattern, parsed_pattern.
  pose proof (parse_archive_pattern n v
                (List.filter (fun ext => negb (String.eqb ext ".whl"))
                             extensions)) as Hseq.
  apply (parse_seq_more_fuel _ (S (String.length
           ("^" ++ req.escape_name n ++ "-" ++ re.escape v ++ "("
            ++ str_join "|"
                 (map re.escape
                      (List.filter (fun ext => negb (String.eqb ext ".whl"))
                                   extensions))
            ++ ")$")))) in Hseq.
  - cbn [re.parse_sub]. rewrite Hseq. reflexivity.
  - rewrite !append_length. cbn [String.length].
    pose proof (length_escape v). pose proof (length_escape_name n). lia.
Qed.

(** ** Matching a file name against the parsed pattern *)

Lemma set_accepts (c' : ascii) :
  existsb (fun c => re.chr_eq true c c') ["-"%char; "_"%char]
  = is_dash_or_underscore c'.
Proof. each_char c'; reflexivity. Qed.

Lemma dash_accepts (c' : ascii) : re.chr_eq true "-" c' = Ascii.eqb c' "-".
Proof. each_char c'; reflexivity. Qed.

Lemma run_name_item (c : ascii) (k : nat -> string -> bool) (pos : nat)
    (s : string) :
  re.run true (name_item c) k pos s
  = match s with
    | String c' s' => (name_char_matches c c' && k (S pos) s')%bool
    | EmptyString => false
    end.
Proof.
  unfold name_item, name_char_matches.
  destruct (is_dash_or_underscore c); cbn [re.run]; destruct s as [|c' s'];
    try reflexivity.
  rewrite set_accepts. reflexivity.
Qed.

Lemma run_name_items (n : string) (tl : re.regex) (k : nat -> string -> bool)
    (pos : nat) (s : string) :
  re.run true (sequence (name_items n) tl) k pos s
  = match strip name_char_matches n s with
    | Some rest => re.run true tl k (pos + String.length n) rest
    | None => false
    end.
Proof.
  revert pos s. induction n as [|c n IH]; intros pos s.
  - cbn [name_items list_ascii_of_string map sequence fold_right strip
           String.length]. rewrite Nat.add_0_r. reflexivity.
  - change (sequence (name_items (String c n)) tl)
      with (re.Seq (name_item c) (sequence (name_items n) tl)).
    cbn [re.run strip String.length]. rewrite run_name_item.
    destruct s as [|c' s']; [reflexivity|].
    destruct (name_char_matches c c'); [|reflexivity].
    cbn [andb]. rewrite IH, Nat.add_succ_r. reflexivity.
Qed.

Lemma run_literals (v : string) (tl : re.regex) (k : nat -> string -> bool)
    (pos : nat) (s : string) :
  re.run true (sequence (literals v) tl) k pos s
  = match strip char_matches v s with
    | Some rest => re.run true tl k (pos + String.length v) rest
    | None => false
    end.
Proof.
  revert pos s. induction v as [|c v IH]; intros pos s.
  - cbn [literals list_ascii_of_string map sequence fold_right strip
           String.length]. rewrite Nat.add_0_r. reflexivity.
  - change (sequence (literals (String c v)) tl)
      with (re.Seq (re.Literal c) (sequence (literals v) tl)).
    cbn [re.run strip String.length].
    destruct s as [|c' s']; [reflexivity|].
    change (re.chr_eq true c c') with (char_matches c c').
    destruct (char_matches c c'); [|reflexivity].
    cbn [andb]. rewrite IH, Nat.add_succ_r. reflexivity.
Qed.

Lemma run_alternatives (exts : list string) (g : string -> bool) (pos : nat)
    (s : string) :
  re.run true (alternatives exts) (fun _ t => g t) pos s
  = existsb (fun ext =>
               match strip char_matches ext s with
               | Some rest => g rest
               | None => false
               end)
            (choices exts).
Proof.
  induction exts as [|e [|e' more] IH].
  - cbn. destruct (g s); reflexivity.
  - cbn [alternatives existsb choices]. rewrite run_literals. cbn [re.run].
    rewrite orb_false_r. reflexivity.
  - change (alternatives (e :: e' :: more))
      with (re.Branch (sequence (literals e) re.Empty)
                      (alternatives (e' :: more))).
    cbn [re.run]. rewrite run_literals, IH. cbn [re.run existsb choices].
    reflexivity.
Qed.

Lemma existsb_pointwise {A} (f g : A -> bool) (l : list A) :
  (forall x, f x = g x) -> existsb f l = existsb g l.
Proof.
  intros H. induction l as [|x l IH]; [reflexivity|].
  cbn [existsb]. rewrite H, IH. reflexivity.
Qed.

(** What the compiled pattern accepts, said without regular expressions. *)
Lemma match_parsed_pattern (n v : string) (extensions : list string)
    (fn : string) :
  re.match_ true (parsed_pattern n v extensions) fn
  = archive_name_matches n v extensions fn.
Proof.
  unfold re.match_, parsed_pattern, archive_name_matches, extension_choices.
  cbn [re.run Nat.eqb andb]. rewrite run_name_items.
  destruct (strip name_char_matches n fn) as [[|dash after_name]|];
    try reflexivity.
  cbn [re.run]. rewrite dash_accepts.
  destruct (Ascii.eqb dash "-"); [|reflexivity]. cbn [andb].
  rewrite run_literals.
  destruct (strip char_matches v after_name) as [after_version|];
    [|reflexivity].
  cbn [re.run].
  rewrite (run_alternatives _
             (fun t => (String.eqb t "" || String.eqb t (String LF ""))
                       && true)%bool).
  apply existsb_pointwise. intros ext.
  destruct (strip char_matches ext after_version); [|reflexivity].
  unfold at_end. apply andb_true_r.
Qed.

(** ** The related archives *)

(** A stable computation, run on a coherent store, returns what it returns
    on the fresh descriptor. *)
Lemma stable_run {A} (w : World) (c : config.Config) (r : InstallRequirement)
    (m : M req.Store A) (st : req.Store) :
  stable w c r m -> coherent w c r st ->
  exists st', m st = (fst (m (req.fresh c r)), st') /\ coherent w c r st'.
Proof.
  intros [V HV] H. destruct (HV st H) as [Hv Hc].
  destruct (HV _ (fresh_coherent w c r)) as [Hf _].
  exists (snd (m st)). split; [|exact Hc].
  rewrite Hf, <- Hv. destruct (m st); reflexivity.
Qed.


Lemma join_matching_coherent (w : World) (c : config.Config)
    (r : InstallRequirement) (compiled : re.regex) (si : string)
    (entries : list string) (st : req.Store) :
  coherent w c r st ->
  fst (config.source_index w c) = inr si ->
  exists st',
    req.join_matching w compiled entries st
    = (inr (map (posixpath.join si)
                (List.filter (re.match_ true compiled) entries)), st')
    /\ coherent w c r st'.
Proof.
  intros H Hsi. revert st H.
  induction entries as [|fn rest IH]; intros st H;
    cbn [req.join_matching List.filter map].
  - exists st. split; [reflexivity | exact H].
  - destruct (re.match_ true compiled fn); [|apply IH, H].
    destruct (stable_run w c r _ st (stable_source_index w c r) H)
      as (st1 & E1 & H1).
    assert (Hv : fst (req.on_config (config.source_index w) (req.fresh c r))
                 = inr si).
    { unfold req.on_config. cbn [req.fresh req.config].
      destruct (config.source_index w c); exact Hsi. }
    rewrite Hv in E1. destruct (IH st1 H1) as (st2 & E2 & H2).
    exists st2. split; [|exact H2].
    unfold bind. rewrite E1, E2. reflexivity.
Qed.

Lemma name_fresh (c : config.Config) (r : InstallRequirement) :
  fst (req.name (req.fresh c r)) = inr (project_name (req r)).
Proof. reflexivity. Qed.

Lemma percent_archive_pattern (a b c : string) :
  percent "^%s-%s(%s)$" [a; b; c] = "^" ++ a ++ "-" ++ b ++ "(" ++ c ++ ")$".
Proof. reflexivity. Qed.

(** What [related_archives] returns on a coherent store. *)
Lemma related_archives_coherent (w : World) (c : config.Config)
    (r : InstallRequirement) (st : req.Store) (v si : string)
    (entries : list string) :
  coherent w c r st ->
  fst (req.version w st) = inr (PyStr v) ->
  fst (config.source_index w c) = inr si ->
  listdir w si = inr entries ->
  fst (req.related_archives w st)
  = inr (map (posixpath.join si)
             (List.filter
                (re.match_ true
                   (parsed_pattern (project_name (req r)) v
                                   (ARCHIVE_EXTENSIONS w)))
                entries)).
Proof.
  intros H Hv Hsi Hdir.
  destruct (stable_run w c r _ st (stable_related_archives w c r) H)
    as (st' & -> & _). cbn [fst].
  destruct (stable_run w c r _ st (stable_version w c r) H) as (st0 & E0 & _).
  rewrite E0 in Hv. cbn [fst] in Hv. clear E0 st0 st' H st.
  unfold req.related_archives, req.cached, cached_property.
  cbn [req.fresh req.self req.init req.cached_related_archives].
  change {| req.config := c; req.self := req.init r |} with (req.fresh c r).
  destruct (stable_run w c r _ _ (stable_name w c r) (fresh_coherent w c r))
    as (st1 & E1 & H1).
  rewrite name_fresh in E1. unfold bind at 1. rewrite E1.
  destruct (stable_run w c r _ _ (stable_version w c r) H1) as (st2 & E2 & H2).
  rewrite Hv in E2. unfold bind at 1. rewrite E2.
  unfold req.escape_of at 1. unfold bind at 1, ret at 1.
  rewrite percent_archive_pattern.
  change ("^" ++ req.escape_name (project_name (req r)) ++ "-"
          ++ re.escape v ++ "("
          ++ str_join "|"
               (map re.escape
                    (List.filter (fun ext => negb (String.eqb ext ".whl"))
                                 (ARCHIVE_EXTENSIONS w)))
          ++ ")$")
    with (archive_pattern (project_name (req r)) v (ARCHIVE_EXTENSIONS w)).
  rewrite compile_archive_pattern. unfold bind at 1, lift at 1.
  destruct (stable_run w c r _ _ (stable_source_index w c r) H2)
    as (st3 & E3 & H3).
  assert (Hv' : fst (req.on_config (config.source_index w) (req.fresh c r))
                = inr si).
  { unfold req.on_config. cbn [req.fresh req.config].
    destruct (config.source_index w c); exact Hsi. }
  rewrite Hv' in E3. unfold bind at 1. rewrite E3.
  unfold bind at 1, lift at 1. rewrite Hdir.
  destruct (join_matching_coherent w c r
              (parsed_pattern (project_name (req r)) v (ARCHIVE_EXTENSIONS w))
              si entries st3 H3 Hsi) as (st4 & E4 & _).
  rewrite E4. reflexivity.
Qed.

Lemma filter_pointwise {A} (f g : A -> bool) (l : list A) :
  (forall x, f x = g x) -> List.filter f l = List.filter g l.
Proof.
  intros H. induction l as [|x l IH]; [reflexivity|].
  cbn [List.filter]. rewrite H, IH. reflexivity.
Qed.

Lemma escape_name_step (c : ascii) (rest : string) :
  req.escape_name (String c rest)
  = (if is_dash_or_underscore c then "[-_]"
     else if is_alnum c then String c ""
     else String "\" (String c "")) ++ req.escape_name rest.
Proof.
  cbn [req.escape_name]. unfold req.escape_name_callback.
  change (Ascii.eqb c "-" || Ascii.eqb c "_")%bool
    with (is_dash_or_underscore c).
  destruct (is_alnum c) eqn:A; cbn [negb]; [|reflexivity].
  rewrite (alnum_not_dash c A). reflexivity.
Qed.

(** C7: the related archives are the entries of the source index directory
    whose names match the pattern [^NAME-VERSION(EXTENSIONS)$] without
    regard to case, joined onto the directory.  The pattern always compiles.
    A name matches exactly when it is the requirement name (dashes and
    underscores standing for each other), a dash, the version and one of the
    known extensions other than [.whl].  [escape_name] turns a dash or an
    underscore into the class [[-_]], leaves an alphanumeric character as it
    is and puts a backslash before any other character. *)
Theorem related_archives_contents (w : World) (c : config.Config)
    (r : InstallRequirement) (script : list req.attribute) (v si : string)
    (entries : list string) :
  let st := req.reads w script (req.fresh c r) in
  let n := project_name (req r) in
  fst (req.version w st) = inr (PyStr v) ->
  fst (config.source_index w c) = inr si ->
  listdir w si = inr entries ->
  (exists compiled,
     re.compile (archive_pattern n v (ARCHIVE_EXTENSIONS w)) = inr compiled
     /\ (forall fn, re.match_ true compiled fn
                    = archive_name_matches n v (ARCHIVE_EXTENSIONS w) fn)
     /\ fst (req.related_archives w st)
        = inr (map (posixpath.join si)
                   (List.filter (re.match_ true compiled) entries)))
  /\ (forall p,
        (exists found, fst (req.related_archives w st) = inr found
                       /\ In p found)
        <-> (exists fn, In fn entries
                        /\ archive_name_matches n v (ARCHIVE_EXTENSIONS w) fn
                           = true
                        /\ p = posixpath.join si fn))
  /\ (forall ch rest,
        req.escape_name (String ch rest)
        = (if is_dash_or_underscore ch then "[-_]"
           else if is_alnum ch then String ch ""
           else String "\" (String ch "")) ++ req.escape_name rest).
Proof.
  cbn zeta. intros Hv Hsi Hdir.
  pose proof (reads_coherent w c r script _ (fresh_coherent w c r)) as H.
  pose proof (related_archives_coherent w c r _ v si entries H Hv Hsi Hdir)
    as Hra.
  split; [|split; [|exact escape_name_step]].
  - exists (parsed_pattern (project_name (req r)) v (ARCHIVE_EXTENSIONS w)).
    split; [apply compile_archive_pattern|].
    split; [intros fn; apply match_parsed_pattern | exact Hra].
  - intros p. rewrite Hra. split.
    + intros (found & [= <-] & Hin). apply in_map_iff in Hin as (fn & <- & Hin).
      apply filter_In in Hin as [Hin Hm]. rewrite match_parsed_pattern in Hm.
      exists fn. auto.
    + intros (fn & Hin & Hm & ->). eexists. split; [reflexivity|].
      apply in_map, filter_In. rewrite match_parsed_pattern. auto.
Qed.

Lemma related_archives_contents_witness :
  let st := req.fresh example.settings
              (example.requirement "foo" "/build/foo") in
  fst (req.version example.world st) = inr (PyStr "1.0")
  /\ fst (config.source_index example.world example.settings)
     = inr "/data/sources"
  /\ listdir example.world "/data/sources"
     = inr ["foo-1.0.tar.gz"; "Foo-1.0.zip"; "foo-1.0.whl"; "bar-2.0.tar.gz"]
  /\ archive_pattern "foo" "1.0" (ARCHIVE_EXTENSIONS example.world)
     = "^foo-1\.0(\.tar\.gz|\.tar\.bz2|\.tar|\.zip|\.tgz|\.tbz)$"
  /\ fst (req.related_archives example.world st)
     = inr ["/data/sources/foo-1.0.tar.gz"; "/data/sources/Foo-1.0.zip"].
Proof.
  intros st.
  assert (H1 : fst (req.version example.world st) = inr (PyStr "1.0"))
    by (vm_compute; reflexivity).
  assert (H2 : fst (config.source_index example.world example.settings)
               = inr "/data/sources") by (vm_compute; reflexivity).
  assert (H3 : listdir example.world "/data/sources"
               = inr ["foo-1.0.tar.gz"; "Foo-1.0.zip"; "foo-1.0.whl";
                      "bar-2.0.tar.gz"]) by reflexivity.
  split; [exact H1|]. split; [exact H2|]. split; [exact H3|].
  split; [vm_compute; reflexivity|].
  destruct (related_archives_contents example.world example.settings
              (example.requirement "foo" "/build/foo") [] "1.0"
              "/data/sources" _ H1 H2 H3) as ((compiled & Hc & Hm & Hra) & _).
  etransitivity; [exact Hra|]. f_equal.
  rewrite (filter_pointwise _ _ _ Hm). vm_compute. reflexivity.
Defined.

(** ** The meaning of a match, spelled out *)

Lemma strip_spec (rel : ascii -> ascii -> bool) (expected s rest : string) :
  strip rel expected s = Some rest <->
  exists taken,
    s = taken ++ rest
    /\ Forall2 (fun c c' => rel c c' = true)
               (list_ascii_of_string expected) (list_ascii_of_string taken).
Proof.
  revert s. induction expected as [|c expected IH]; intros s; cbn [strip].
  - split.
    + intros [= ->]. exists "". split; [reflexivity | constructor].
    + intros (taken & -> & H). destruct taken; [reflexivity | inversion H].
  - split.
    + destruct s as [|c' s']; [discriminate|].
      destruct (rel c c') eqn:E; [|discriminate]. intros H.
      apply IH in H as (taken & -> & H). exists (String c' taken).
      split; [reflexivity|]. constructor; assumption.
    + intros (taken & -> & H). destruct taken as [|c' taken]; [inversion H|].
      cbn [list_ascii_of_string] in H.
      inversion H as [|? ? ? ? Hc Hrest]; subst.
      rewrite append_cons, Hc. apply IH. eauto.
Qed.

(** A file name matches when it is made of a stand-in for the name, a dash,
    the version and a known extension, each up to the case of letters, and
    nothing more than one optional line feed. *)
Lemma archive_name_matches_spec (name version : string)
    (extensions : list string) (fn : string) :
  archive_name_matches name version extensions fn = true <->
  exists name' version' ext ext' tl,
    fn = name' ++ "-" ++ version' ++ ext' ++ tl
    /\ In ext (extension_choices extensions)
    /\ (tl = "" \/ tl = String LF "")
    /\ Forall2 (fun c c' => name_char_matches c c' = true)
               (list_ascii_of_string name) (list_ascii_of_string name')
    /\ Forall2 (fun c c' => char_matches c c' = true)
               (list_ascii_of_string version) (list_ascii_of_string version')
    /\ Forall2 (fun c c' => char_matches c c' = true)
               (list_ascii_of_string ext) (list_ascii_of_string ext').
Proof.
  unfold archive_name_matches. split.
  - destruct (strip name_char_matches name fn) as [[|dash r1]|] eqn:E1;
      try discriminate.
    intros H. apply andb_true_iff in H as [Hdash H].
    apply Ascii.eqb_eq in Hdash. subst dash.
    destruct (strip char_matches version r1) as [r2|] eqn:E2; [|discriminate].
    apply existsb_exists in H as (ext & Hin & H).
    destruct (strip char_matches ext r2) as [r3|] eqn:E3; [|discriminate].
    apply strip_spec in E1 as (name' & -> & H1).
    apply strip_spec in E2 as (version' & -> & H2).
    apply strip_spec in E3 as (ext' & -> & H3).
    exists name', version', ext, ext', r3.
    split; [reflexivity|]. split; [exact Hin|].
    split; [|auto].
    unfold at_end in H. apply orb_true_iff in H as [H|H];
      apply String.eqb_eq in H; auto.
  - intros (name' & version' & ext & ext' & tl & -> & Hin & Htl & H1 & H2 & H3).
    assert (E1 : strip name_char_matches name
                   (name' ++ "-" ++ version' ++ ext' ++ tl)
                 = Some ("-" ++ version' ++ ext' ++ tl))
      by (apply strip_spec; eauto).
    rewrite E1. rewrite append_cons, append_nil. cbn [Ascii.eqb Bool.eqb andb].
    assert (E2 : strip char_matches version (version' ++ ext' ++ tl)
                 = Some (ext' ++ tl)) by (apply strip_spec; eauto).
    rewrite E2. apply existsb_exists. exists ext. split; [exact Hin|].
    assert (E3 : strip char_matches ext (ext' ++ tl) = Some tl)
      by (apply strip_spec; eauto).
    rewrite E3. unfold at_end. destruct Htl as [->| ->]; reflexivity.
Qed.

(** ** Examples *)

Example escape_name_example :
  req.escape_name "py-test_pkg" = "py[-_]test[-_]pkg".
Proof. reflexivity. Qed.

Example escape_name_other_characters :
  req.escape_name "zope.interface+x" = "zope\.interface\+x".
Proof. reflexivity. Qed.

Example archive_names_example :
  map (archive_name_matches "py-test_pkg" "1.0"
         (ARCHIVE_EXTENSIONS example.world))
      ["py-test_pkg-1.0.tar.gz"; "PY_Test-Pkg-1.0.ZIP"; "py-test_pkg-1.0.whl";
       "py-test_pkg_1.0.zip"; "py-test_pkg-1x0.zip"; "py-test_pkg-1.0.zip.asc"]
  = [true; true; false; false; false; false].
Proof. vm_compute. reflexivity. Qed.

Example settings_example :
  fst (config.data_directory example.world example.settings) = inr "/data"
  /\ fst (config.source_index example.world example.settings)
     = inr "/data/sources"
  /\ fst (config.binary_cache example.world example.settings)
     = inr "/data/binaries".
Proof. vm_compute. repeat split; reflexivity. Qed.

Example neither_example :
  fst (req.is_wheel example.world
         (req.fresh example.settings
            (example.requirement "nothing" "/build/empty")))
  = inl (UnknownDistributionFormat req.neither_text
           {| project_name := "nothing" |} "/build/empty").
Proof. vm_compute. reflexivity. Qed.

(** * Further properties *)

(** ** The constructor of the configuration object *)

Lemma for_each_load_first_bad (w : World) (good : list string) (bad : string)
    (rest : list string) (self : config.Config) :
  forallb (loadable w) good = true -> loadable w bad = false ->
  exists e self',
    for_each (good ++ bad :: rest)%list (config.load_configuration_file w) self
    = (inl e, self')
    /\ names_file e (parse_path w bad) = true.
Proof.
  revert self. induction good as [|f good IH]; intros self Hgood Hbad.
  - destruct (load_configuration_file_fails w bad self Hbad) as (e & He & Hn & _).
    exists e, self. cbn [app for_each]. unfold bind. rewrite He. auto.
  - cbn [forallb] in Hgood. apply andb_true_iff in Hgood as [Hf Hgood].
    cbn [app for_each]. unfold bind.
    rewrite (load_configuration_file_ok w f self Hf). apply IH; assumption.
Qed.

(** What [Config(lf, le)] returns when it returns. *)
Lemma init_shape (w : World) (lf le : bool) (self : config.Config) :
  config.init w lf le = inr self ->
  let env := if le then environ w else ∅ in
  let loaded := if lf then List.filter (isfile w) (candidates w env) else [] in
  config.configuration self
  = fold_left (fun acc f => dict_update acc (section_of w f)) loaded ∅
  /\ config.environment self = env
  /\ config.cached_data_directory self = None
  /\ config.cached_source_index self = None
  /\ config.cached_binary_cache self = None.
Proof.
  cbn zeta. unfold config.init, config.init_body. destruct lf.
  - unfold bind. rewrite available_configuration_files_blank.
    cbn [config.environment config.blank].
    set (env := if le then environ w else ∅).
    set (loaded := List.filter (isfile w) (candidates w env)).
    destruct (for_each loaded _ _) as [[e|u] self'] eqn:Hrun; [discriminate|].
    intros [= <-].
    pose proof (for_each_load_returns _ _ _ _ _ Hrun) as Hall.
    rewrite (for_each_load_ok _ _ _ Hall) in Hrun. injection Hrun as Hrun.
    subst self'. repeat split.
  - intros [= <-]. repeat split.
Qed.

(** X1: construction with configuration files succeeds exactly when every
    existing candidate file loads; otherwise it raises the exception of the
    first file that does not load, which names that file. *)
Theorem constructor_outcome (w : World) (le : bool) :
  let env := if le then environ w else ∅ in
  let loaded := List.filter (isfile w) (candidates w env) in
  ((exists self, config.init w true le = inr self)
   <-> forallb (loadable w) loaded = true)
  /\ forall (good : list string) (bad : string) (rest : list string),
       loaded = (good ++ bad :: rest)%list ->
       forallb (loadable w) good = true -> loadable w bad = false ->
       exists e, config.init w true le = inl e
                 /\ names_file e (parse_path w bad) = true.
Proof.
  cbn zeta. split; [split|].
  - intros [self H]. unfold config.init, config.init_body, bind in H.
    rewrite available_configuration_files_blank in H.
    cbn [config.environment config.blank] in H.
    destruct (for_each _ _ _) as [[e|u] self'] eqn:Hrun; [discriminate|].
    exact (for_each_load_returns _ _ _ _ _ Hrun).
  - apply init_succeeds.
  - intros good bad rest Hsplit Hgood Hbad.
    unfold config.init, config.init_body, bind.
    rewrite available_configuration_files_blank.
    cbn [config.environment config.blank]. rewrite Hsplit.
    destruct (for_each_load_first_bad w good bad rest
                (config.store_available_configuration_files
                   (good ++ bad :: rest)%list (config.blank w le)) Hgood Hbad)
      as (e & self' & -> & Hn).
    exists e. split; [reflexivity | exact Hn].
Qed.

Lemma constructor_outcome_witness :
  List.filter (isfile scenario.broken_world)
    (candidates scenario.broken_world (environ scenario.broken_world))
  = (["/etc/pip-accel.conf"; "/home/alice/.pip-accel/pip-accel.conf"]
     ++ "/srv/broken.conf" :: [])%list
  /\ forallb (loadable scenario.broken_world)
       ["/etc/pip-accel.conf"; "/home/alice/.pip-accel/pip-accel.conf"] = true
  /\ loadable scenario.broken_world "/srv/broken.conf" = false
  /\ exists e, config.init scenario.broken_world true true = inl e
               /\ names_file e "/srv/broken.conf" = true.
Proof.
  assert (H1 : List.filter (isfile scenario.broken_world)
                 (candidates scenario.broken_world
                             (environ scenario.broken_world))
               = (["/etc/pip-accel.conf";
                   "/home/alice/.pip-accel/pip-accel.conf"]
                  ++ "/srv/broken.conf" :: [])%list)
    by (vm_compute; reflexivity).
  assert (H2 : forallb (loadable scenario.broken_world)
                 ["/etc/pip-accel.conf";
                  "/home/alice/.pip-accel/pip-accel.conf"] = true)
    by (vm_compute; reflexivity).
  assert (H3 : loadable scenario.broken_world "/srv/broken.conf" = false)
    by (vm_compute; reflexivity).
  split; [exact H1|]. split; [exact H2|]. split; [exact H3|].
  exact (proj2 (constructor_outcome scenario.broken_world true) _ _ _ H1 H2 H3).
Defined.

(** ** Merging a configuration file *)

Lemma dict_update_twice (d : gmap string string)
    (pairs : list (string * string)) :
  dict_update (dict_update d pairs) pairs = dict_update d pairs.
Proof.
  apply map_eq. intros k. rewrite !dict_update_lookup.
  destruct (assoc_last pairs k); reflexivity.
Qed.

(** X3: loading a file overrides the options of its section, keeps every
    other option, and touches neither the environment nor what is cached;
    loading the same file once more changes nothing. *)
Theorem load_merges (w : World) (file : string) (self : config.Config) :
  loadable w file = true ->
  let self' := snd (config.load_configuration_file w file self) in
  fst (config.load_configuration_file w file self) = inr tt
  /\ (forall k, config.configuration self' !! k
                = match assoc_last (section_of w file) k with
                  | Some v => Some v
                  | None => config.configuration self !! k
                  end)
  /\ config.environment self' = config.environment self
  /\ config.cached_data_directory self' = config.cached_data_directory self
  /\ config.cached_source_index self' = config.cached_source_index self
  /\ config.cached_binary_cache self' = config.cached_binary_cache self
  /\ config.cached_available_configuration_files self'
     = config.cached_available_configuration_files self
  /\ config.load_configuration_file w file self' = (inr tt, self').
Proof.
  intros H. cbn zeta. rewrite (load_configuration_file_ok w file self H).
  cbn [fst snd]. split; [reflexivity|].
  split; [intros k; apply dict_update_lookup|].
  repeat (split; [reflexivity|]).
  rewrite (load_configuration_file_ok w file _ H).
  cbn [config.set_configuration config.configuration].
  rewrite dict_update_twice. reflexivity.
Qed.

Lemma load_merges_witness :
  let self' :=
    snd (config.load_configuration_file example.world "/etc/pip-accel.conf"
           example.settings) in
  loadable example.world "/etc/pip-accel.conf" = true
  /\ config.configuration self' !! "data-directory" = Some "/var/data"
  /\ config.configuration self' !! "s3-prefix" = Some ""
  /\ config.load_configuration_file example.world "/etc/pip-accel.conf" self'
     = (inr tt, self').
Proof.
  intros self'.
  assert (H : loadable example.world "/etc/pip-accel.conf" = true)
    by (vm_compute; reflexivity).
  destruct (load_merges example.world "/etc/pip-accel.conf" example.settings H)
    as (_ & Hk & _ & _ & _ & _ & _ & Hagain).
  unfold self'. split; [exact H|].
  split; [rewrite (Hk "data-directory"); vm_compute; reflexivity|].
  split; [rewrite (Hk "s3-prefix"); vm_compute; reflexivity | exact Hagain].
Defined.

(** ** Settings are a snapshot *)

Lemma source_index_caches (w : World) (self : config.Config) :
  exists s, fst (config.source_index w self) = inr s
            /\ config.cached_source_index (snd (config.source_index w self))
               = Some s.
Proof.
  unfold config.source_index, cached_property.
  destruct (config.cached_source_index self) as [s|] eqn:E; [eauto|].
  unfold bind. destruct (data_directory_returns w self) as (d & -> & _).
  cbn. eauto.
Qed.

Lemma binary_cache_caches (w : World) (self : config.Config) :
  exists s, fst (config.binary_cache w self) = inr s
            /\ config.cached_binary_cache (snd (config.binary_cache w self))
               = Some s.
Proof.
  unfold config.binary_cache, cached_property.
  destruct (config.cached_binary_cache self) as [s|] eqn:E; [eauto|].
  unfold bind. destruct (data_directory_returns w self) as (d & -> & _).
  cbn. eauto.
Qed.

Lemma available_configuration_files_caches (w : World)
    (self : config.Config) :
  exists l, fst (config.available_configuration_files w self) = inr l
            /\ config.cached_available_configuration_files
                 (snd (config.available_configuration_files w self))
               = Some l.
Proof.
  unfold config.available_configuration_files, cached_property.
  destruct (config.cached_available_configuration_files self) as [l|] eqn:E;
    [eauto|].
  cbn. eauto.
Qed.

(** No call empties or replaces a cache slot that is filled. *)
Lemma perform_keeps_slots (w : World) (c : config.call)
    (self : config.Config) :
  (forall d, config.cached_data_directory self = Some d ->
             config.cached_data_directory (config.perform w c self) = Some d)
  /\ (forall s, config.cached_source_index self = Some s ->
                config.cached_source_index (config.perform w c self) = Some s)
  /\ (forall s, config.cached_binary_cache self = Some s ->
                config.cached_binary_cache (config.perform w c self) = Some s)
  /\ (forall l, config.cached_available_configuration_files self = Some l ->
                config.cached_available_configuration_files
                  (config.perform w c self) = Some l).
Proof.
  destruct (data_directory_returns w self) as (d0 & Hd & Hsame & _).
  destruct c; cbn [config.perform].
  - unfold config.available_configuration_files, cached_property.
    destruct (config.cached_available_configuration_files self) eqn:E;
      cbn; repeat split; auto; congruence.
  - unfold config.load_configuration_file.
    destruct (parser_read w _) as [| |sections]; cbn; auto.
    destruct (negb _); cbn; auto.
  - cbn. auto.
  - rewrite Hd. cbn. repeat split; auto.
    intros d H. rewrite (Hsame d H). reflexivity.
  - unfold config.source_index, cached_property.
    destruct (config.cached_source_index self) eqn:E;
      [cbn; repeat split; auto; congruence|].
    unfold bind. rewrite Hd. cbn. repeat split; auto; try congruence.
    intros d H. rewrite (Hsame d H). reflexivity.
  - unfold config.binary_cache, cached_property.
    destruct (config.cached_binary_cache self) eqn:E;
      [cbn; repeat split; auto; congruence|].
    unfold bind. rewrite Hd. cbn. repeat split; auto; try congruence.
    intros d H. rewrite (Hsame d H). reflexivity.
Qed.

Lemma after_steps_keeps_slots (steps : list (World * config.call))
    (self : config.Config) :
  (forall d, config.cached_data_directory self = Some d ->
             config.cached_data_directory (after_steps steps self) = Some d)
  /\ (forall s, config.cached_source_index self = Some s ->
                config.cached_source_index (after_steps steps self) = Some s)
  /\ (forall s, config.cached_binary_cache self = Some s ->
                config.cached_binary_cache (after_steps steps self) = Some s)
  /\ (forall l, config.cached_available_configuration_files self = Some l ->
                config.cached_available_configuration_files
                  (after_steps steps self) = Some l).
Proof.
  unfold after_steps. revert self.
  induction steps as [|[w c] rest IH]; intros self; [auto|].
  cbn [fold_left fst snd].
  destruct (perform_keeps_slots w c self) as (H1 & H2 & H3 & H4).
  destruct (IH (config.perform w c self)) as (I1 & I2 & I3 & I4).
  repeat split; auto.
Qed.

(** X4: the memoized settings are a snapshot. Once the data directory, the
    source index, the binary cache or the list of available configuration
    files has been read, every later read returns the same value, whatever
    was called in between (loading other files included) and however the
    world has changed. *)
Theorem settings_are_snapshots (w w' : World)
    (steps : list (World * config.call)) (self : config.Config) :
  fst (config.data_directory w'
         (after_steps steps (snd (config.data_directory w self))))
  = fst (config.data_directory w self)
  /\ fst (config.source_index w'
            (after_steps steps (snd (config.source_index w self))))
     = fst (config.source_index w self)
  /\ fst (config.binary_cache w'
            (after_steps steps (snd (config.binary_cache w self))))
     = fst (config.binary_cache w self)
  /\ fst (config.available_configuration_files w'
            (after_steps steps
               (snd (config.available_configuration_files w self))))
     = fst (config.available_configuration_files w self).
Proof.
  split; [|split; [|split]].
  - destruct (data_directory_returns w self) as (d & Hd & _). rewrite Hd.
    cbn [fst snd].
    destruct (after_steps_keeps_slots steps (config.store_data_directory d self))
      as (H & _).
    specialize (H d eq_refl).
    unfold config.data_directory, cached_property. rewrite H. reflexivity.
  - destruct (source_index_caches w self) as (s & Hs & Hc). rewrite Hs.
    destruct (after_steps_keeps_slots steps (snd (config.source_index w self)))
      as (_ & H & _).
    specialize (H s Hc).
    unfold config.source_index at 1, cached_property. rewrite H. reflexivity.
  - destruct (binary_cache_caches w self) as (s & Hs & Hc). rewrite Hs.
    destruct (after_steps_keeps_slots steps (snd (config.binary_cache w self)))
      as (_ & _ & H & _).
    specialize (H s Hc).
    unfold config.binary_cache at 1, cached_property. rewrite H. reflexivity.
  - destruct (available_configuration_files_caches w self) as (l & Hl & Hc).
    rewrite Hl.
    destruct (after_steps_keeps_slots steps
                (snd (config.available_configuration_files w self)))
      as (_ & _ & _ & H).
    specialize (H l Hc).
    unfold config.available_configuration_files at 1, cached_property.
    rewrite H. reflexivity.
Qed.

(** ** How the data directory is resolved *)

(** X5: on a newly constructed object the data directory is the parsed
    value of [$PIP_ACCEL_CACHE] when that is set and not empty; else of the
    [data-directory] option of the last loaded file that has it, when not
    empty; else of [/var/cache/pip-accel] for root and of [~/.pip-accel] for
    any other user. *)
Theorem data_directory_resolution (w : World) (lf le : bool)
    (self : config.Config) :
  config.init w lf le = inr self ->
  let env := if le then environ w else ∅ in
  let loaded := if lf then List.filter (isfile w) (candidates w env) else [] in
  fst (config.data_directory w self)
  = inr (parse_path w
           match resolved env (map (section_of w) loaded)
                          "PIP_ACCEL_CACHE" "data-directory" with
           | Some v => v
           | None => if Nat.eqb (getuid w) 0 then "/var/cache/pip-accel"
                     else "~/.pip-accel"
           end).
Proof.
  intros H. cbn zeta.
  destruct (init_shape w lf le self H) as (Hconf & Henv & Hnone & _).
  unfold config.data_directory, cached_property. rewrite Hnone.
  unfold bind. rewrite get_returns. rewrite Henv, Hconf, load_all_lookup.
  rewrite lookup_empty. unfold resolved.
  destruct (nonempty ((if le then environ w else ∅) !! "PIP_ACCEL_CACHE"));
    [reflexivity|].
  set (eff := effective _ "data-directory").
  replace (match eff with Some v => Some v | None => None end) with eff
    by (destruct eff; reflexivity).
  destruct (nonempty eff); reflexivity.
Qed.

Lemma data_directory_resolution_witness :
  config.init example.world true true = inr example.settings
  /\ fst (config.data_directory example.world example.settings) = inr "/data".
Proof.
  assert (H : config.init example.world true true = inr example.settings)
    by (vm_compute; reflexivity).
  split; [exact H|].
  rewrite (data_directory_resolution example.world true true _ H).
  vm_compute. reflexivity.
Defined.

(** ** Without the environment *)







(** ** Absolute and distinct directories *)











(** ** Attributes taken from the raw requirement *)

(** X7: whatever was read before, the name, the source directory and the
    editable flag are those of the raw requirement; the requirement is
    transitive exactly when [comes_from] is an installation requirement (a
    requirement named on the command line or in a requirements file is
    direct), and [is_direct] is the opposite of [is_transitive]. None of
    these reads raises. *)
Theorem raw_attributes (w : World) (c : config.Config)
    (r : InstallRequirement) (script : list req.attribute) :
  let st := req.reads w script (req.fresh c r) in
  fst (req.name st) = inr (project_name (req r))
  /\ fst (req.source_directory st) = inr (source_dir r)
  /\ fst (req.is_editable st) = inr (editable r)
  /\ fst (req.is_transitive st)
     = inr match comes_from r with
           | ComesFromRequirement _ => true
           | _ => false
           end
  /\ fst (req.is_direct st)
     = inr match comes_from r with
           | ComesFromRequirement _ => false
           | _ => true
           end.
Proof.
  cbn zeta.
  pose proof (reads_coherent w c r script _ (fresh_coherent w c r)) as H.
  destruct (stable_run w c r _ _ (stable_name w c r) H) as (s1 & -> & _).
  destruct (stable_run w c r _ _ (stable_source_directory w c r) H)
    as (s2 & -> & _).
  destruct (stable_run w c r _ _ (stable_is_editable w c r) H)
    as (s3 & -> & _).
  destruct (stable_run w c r _ _ (stable_is_transitive w c r) H)
    as (s4 & -> & _).
  destruct (stable_run w c r _ _ (stable_is_direct w c r) H) as (s5 & -> & _).
  cbn. repeat split; destruct (comes_from r); reflexivity.
Qed.

(** ** The version *)

Lemma is_wheel_fresh (w : World) (c : config.Config) (r : InstallRequirement) :
  fst (req.is_wheel w (req.fresh c r))
  = match isfile w (posixpath.join (source_dir r) "setup.py"),
          Nat.ltb 0 (length (glob w (posixpath.join
                                       (posixpath.join (source_dir r)
                                                       "*.dist-info")
                                       "WHEEL"))) with
    | true, false => inr false
    | false, true => inr true
    | true, true =>
        inl (UnknownDistributionFormat req.both_text (req r) (source_dir r))
    | false, false =>
        inl (UnknownDistributionFormat req.neither_text (req r) (source_dir r))
    end.
Proof.
  unfold req.is_wheel, req.cached, cached_property, bind.
  cbn -[posixpath.join Nat.ltb].
  destruct (isfile w _);
    match goal with
    | |- context [Nat.ltb 0 ?n] => destruct (Nat.ltb 0 n)
    end; reflexivity.
Qed.

Lemma is_wheel_never_type_error (w : World) (c : config.Config)
    (r : InstallRequirement) (e : exception) :
  fst (req.is_wheel w (req.fresh c r)) = inl e ->
  exception_class e = "UnknownDistributionFormat".
Proof.
  rewrite is_wheel_fresh.
  destruct (isfile w _);
    match goal with
    | |- context [Nat.ltb 0 ?n] => destruct (Nat.ltb 0 n)
    end; intros [= <-]; reflexivity.
Qed.

Lemma sdist_metadata_fresh (w : World) (c : config.Config)
    (r : InstallRequirement) :
  fst (req.sdist_metadata w (req.fresh c r))
  = match fst (req.is_wheel w (req.fresh c r)) with
    | inl e => inl e
    | inr true => inl (TypeError "Requirement is not a source distribution!")
    | inr false => inr (pkg_info w r)
    end.
Proof.
  unfold req.sdist_metadata, req.cached, cached_property, bind.
  cbn [req.fresh req.self req.init req.cached_sdist_metadata].
  change {| req.config := c; req.self := req.init r |} with (req.fresh c r).
  destruct (stable_run w c r _ _ (stable_is_wheel w c r) (fresh_coherent w c r))
    as (st' & E & Hc).
  rewrite E. cbn [fst].
  destruct (fst (req.is_wheel w (req.fresh c r))) as [e|[]]; try reflexivity.
  destruct Hc as (Hp & _). unfold req.on_self, gets. cbn. rewrite Hp.
  reflexivity.
Qed.

Lemma wheel_metadata_fresh (w : World) (c : config.Config)
    (r : InstallRequirement) :
  fst (req.wheel_metadata w (req.fresh c r))
  = match fst (req.is_wheel w (req.fresh c r)) with
    | inl e => inl e
    | inr false => inl (TypeError "Requirement is not a wheel distribution!")
    | inr true =>
        match find_distributions w (source_dir r) with
        | distribution :: _ => inr distribution
        | [] =>
            inl (Exception
                   (percent
                      "pkg_resources didn't find a wheel distribution in %s!"
                      [source_dir r]))
        end
    end.
Proof.
  unfold req.wheel_metadata, req.cached, cached_property, bind.
  cbn [req.fresh req.self req.init req.cached_wheel_metadata].
  change {| req.config := c; req.self := req.init r |} with (req.fresh c r).
  destruct (stable_run w c r _ _ (stable_is_wheel w c r) (fresh_coherent w c r))
    as (st' & E & Hc).
  rewrite E. cbn [fst].
  destruct (fst (req.is_wheel w (req.fresh c r))) as [e|[]]; try reflexivity.
  cbn [negb].
  destruct (source_directory_coherent w c r _ Hc) as (st1 & E1 & Hc1).
  rewrite E1. destruct (find_distributions w (source_dir r)); [|reflexivity].
  destruct (source_directory_coherent w c r _ Hc1) as (st2 & E2 & _).
  rewrite E2. reflexivity.
Qed.

Lemma version_fresh (w : World) (c : config.Config) (r : InstallRequirement) :
  fst (req.version w (req.fresh c r))
  = match fst (req.is_wheel w (req.fresh c r)) with
    | inl e => inl e
    | inr true =>
        match find_distributions w (source_dir r) with
        | distribution :: _ => inr (PyStr (dist_version distribution))
        | [] =>
            inl (Exception
                   (percent
                      "pkg_resources didn't find a wheel distribution in %s!"
                      [source_dir r]))
        end
    | inr false => inr (message_getitem (pkg_info w r) "Version")
    end.
Proof.
  unfold req.version, req.cached, cached_property, bind.
  cbn [req.fresh req.self req.init req.cached_version].
  change {| req.config := c; req.self := req.init r |} with (req.fresh c r).
  destruct (stable_run w c r _ _ (stable_is_wheel w c r) (fresh_coherent w c r))
    as (st' & E & Hc).
  rewrite E.
  pose proof (wheel_metadata_fresh w c r) as Hw.
  pose proof (sdist_metadata_fresh w c r) as Hs.
  destruct (fst (req.is_wheel w (req.fresh c r))) as [e|[]]; try reflexivity.
  - destruct (stable_run w c r _ _ (stable_wheel_metadata w c r) Hc)
      as (st1 & E1 & _).
    rewrite E1, Hw.
    destruct (find_distributions w (source_dir r)); reflexivity.
  - destruct (stable_run w c r _ _ (stable_sdist_metadata w c r) Hc)
      as (st1 & E1 & _).
    rewrite E1, Hs. reflexivity.
Qed.

(** X8: the version of a wheel is the version of the first distribution
    that [pkg_resources] finds in the source directory, and that of a source
    distribution is the [Version] header of its metadata ([None] when there
    is none). Reading it raises what format detection raises, or an
    [Exception] when a wheel has no distribution; it never raises the
    [TypeError] of a metadata accessor used on the wrong format. *)
Theorem version_value (w : World) (c : config.Config)
    (r : InstallRequirement) (script : list req.attribute) :
  let st := req.reads w script (req.fresh c r) in
  fst (req.version w st)
  = match fst (req.is_wheel w st) with
    | inl e => inl e
    | inr true =>
        match find_distributions w (source_dir r) with
        | distribution :: _ => inr (PyStr (dist_version distribution))
        | [] =>
            inl (Exception
                   (percent
                      "pkg_resources didn't find a wheel distribution in %s!"
                      [source_dir r]))
        end
    | inr false => inr (message_getitem (pkg_info w r) "Version")
    end
  /\ raises "TypeError" (fst (req.version w st)) = false.
Proof.
  cbn zeta.
  pose proof (reads_coherent w c r script _ (fresh_coherent w c r)) as H.
  destruct (stable_run w c r _ _ (stable_version w c r) H) as (s1 & -> & _).
  rewrite is_wheel_after_reads. cbn [fst]. rewrite version_fresh.
  split; [reflexivity|].
  destruct (fst (req.is_wheel w (req.fresh c r))) as [e|[]] eqn:E.
  - cbn. rewrite (is_wheel_never_type_error w c r e E). reflexivity.
  - destruct (find_distributions w (source_dir r)); reflexivity.
  - reflexivity.
Qed.

(** ** Failures pass through *)

Lemma related_archives_fresh (w : World) (c : config.Config)
    (r : InstallRequirement) (si : string) :
  fst (config.source_index w c) = inr si ->
  fst (req.related_archives w (req.fresh c r))
  = match fst (req.version w (req.fresh c r)) with
    | inl e => inl e
    | inr PyNone => inl (TypeError "expected string or buffer")
    | inr (PyStr v) =>
        match listdir w si with
        | inl e => inl e
        | inr entries =>
            inr (map (posixpath.join si)
                     (List.filter
                        (re.match_ true
                           (parsed_pattern (project_name (req r)) v
                                           (ARCHIVE_EXTENSIONS w)))
                        entries))
        end
    end.
Proof.
  intros Hsi.
  unfold req.related_archives, req.cached, cached_property.
  cbn [req.fresh req.self req.init req.cached_related_archives].
  change {| req.config := c; req.self := req.init r |} with (req.fresh c r).
  destruct (stable_run w c r _ _ (stable_name w c r) (fresh_coherent w c r))
    as (st1 & E1 & H1).
  rewrite name_fresh in E1. unfold bind at 1. rewrite E1.
  destruct (stable_run w c r _ _ (stable_version w c r) H1) as (st2 & E2 & H2).
  unfold bind at 1. rewrite E2.
  destruct (fst (req.version w (req.fresh c r))) as [e|[|v]];
    [reflexivity | reflexivity |].
  unfold req.escape_of at 1. unfold bind at 1, ret at 1.
  rewrite percent_archive_pattern.
  change ("^" ++ req.escape_name (project_name (req r)) ++ "-"
          ++ re.escape v ++ "("
          ++ str_join "|"
               (map re.escape
                    (List.filter (fun ext => negb (String.eqb ext ".whl"))
                                 (ARCHIVE_EXTENSIONS w)))
          ++ ")$")
    with (archive_pattern (project_name (req r)) v (ARCHIVE_EXTENSIONS w)).
  rewrite compile_archive_pattern. unfold bind at 1, lift at 1.
  destruct (stable_run w c r _ _ (stable_source_index w c r) H2)
    as (st3 & E3 & H3).
  assert (Hv' : fst (req.on_config (config.source_index w) (req.fresh c r))
                = inr si).
  { unfold req.on_config. cbn [req.fresh req.config].
    destruct (config.source_index w c); exact Hsi. }
  rewrite Hv' in E3. unfold bind at 1. rewrite E3.
  unfold bind at 1, lift at 1.
  destruct (listdir w si) as [e|entries]; [reflexivity|].
  destruct (join_matching_coherent w c r
              (parsed_pattern (project_name (req r)) v (ARCHIVE_EXTENSIONS w))
              si entries st3 H3 Hsi) as (st4 & E4 & _).
  rewrite E4. reflexivity.
Qed.

Lemma related_archives_reads (w : World) (c : config.Config)
    (r : InstallRequirement) (script : list req.attribute) (si : string) :
  fst (config.source_index w c) = inr si ->
  let st := req.reads w script (req.fresh c r) in
  fst (req.related_archives w st)
  = match fst (req.version w st) with
    | inl e => inl e
    | inr PyNone => inl (TypeError "expected string or buffer")
    | inr (PyStr v) =>
        match listdir w si with
        | inl e => inl e
        | inr entries =>
            inr (map (posixpath.join si)
                     (List.filter
                        (archive_name_matches (project_name (req r)) v
                                              (ARCHIVE_EXTENSIONS w))
                        entries))
        end
    end.
Proof.
  intros Hsi. cbn zeta.
  pose proof (reads_coherent w c r script _ (fresh_coherent w c r)) as H.
  destruct (stable_run w c r _ _ (stable_related_archives w c r) H)
    as (s1 & -> & _).
  destruct (stable_run w c r _ _ (stable_version w c r) H) as (s2 & -> & _).
  cbn [fst]. rewrite (related_archives_fresh w c r si Hsi).
  destruct (fst (req.version w (req.fresh c r))) as [e|[|v]]; try reflexivity.
  destruct (listdir w si); [reflexivity|]. do 2 f_equal.
  apply filter_pointwise. intros fn. apply match_parsed_pattern.
Qed.

(** X9: reading the related archives raises what reading the version
    raises; a [TypeError] when the source metadata has no version; and the
    error of [os.listdir], unchanged, when the source index directory
    cannot be listed. In every other case it returns the matching entries
    in the order of the listing. *)
Theorem related_archives_outcome (w : World) (c : config.Config)
    (r : InstallRequirement) (script : list req.attribute) (si : string) :
  fst (config.source_index w c) = inr si ->
  let st := req.reads w script (req.fresh c r) in
  fst (req.related_archives w st)
  = match fst (req.version w st) with
    | inl e => inl e
    | inr PyNone => inl (TypeError "expected string or buffer")
    | inr (PyStr v) =>
        match listdir w si with
        | inl e => inl e
        | inr entries =>
            inr (map (posixpath.join si)
                     (List.filter
                        (archive_name_matches (project_name (req r)) v
                                              (ARCHIVE_EXTENSIONS w))
                        entries))
        end
    end.
Proof. exact (related_archives_reads w c r script si). Qed.

Lemma related_archives_outcome_witness :
  let c := config.blank example.world true in
  let st := req.fresh c (example.requirement "foo" "/build/foo") in
  fst (config.source_index example.world c)
    = inr "/home/alice/.pip-accel/sources"
  /\ fst (req.related_archives example.world st)
     = inl (OSError "/home/alice/.pip-accel/sources").
Proof.
  intros c st.
  assert (H : fst (config.source_index example.world c)
              = inr "/home/alice/.pip-accel/sources")
    by (vm_compute; reflexivity).
  split; [exact H|].
  etransitivity;
    [exact (related_archives_outcome example.world c
              (example.requirement "foo" "/build/foo") [] _ H)|].
  vm_compute. reflexivity.
Defined.



(** ** Attributes are computed once *)

Lemma mono_bind {A B} (m : M req.Store A) (k : A -> M req.Store B) :
  monotone m -> (forall a, monotone (k a)) -> monotone (bind m k).
Proof.
  intros Hm Hk st a v H. unfold bind. specialize (Hm st a v H).
  destruct (m st) as [[e|x] st']; cbn [snd] in *; [exact Hm|].
  apply Hk. exact Hm.
Qed.

Lemma mono_cached {A} (slot : req.Requirement -> option A)
    (store : A -> req.Requirement -> req.Requirement) (func : M req.Store A) :
  (forall a v x s0 s, slot s0 = None -> req.slot a s0 = Some v ->
                      req.slot a s = Some v ->
                      req.slot a (store x s) = Some v) ->
  monotone func -> monotone (req.cached slot store func).
Proof.
  intros Hstore Hf st a v H. unfold req.cached, cached_property.
  destruct (slot (req.self st)) eqn:E; [exact H|]. specialize (Hf st a v H).
  destruct (func st) as [[e|x] st']; cbn [snd req.self] in *; [exact Hf|].
  exact (Hstore a v x _ _ E H Hf).
Qed.

Lemma mono_on_config {A} (m : M config.Config A) : monotone (req.on_config m).
Proof. intros st a v H. unfold req.on_config. destruct (m _). exact H. Qed.

Ltac mono_store :=
  let a := fresh "a" in let E := fresh "E" in let H := fresh "H" in
  intros a ? ? ? ? E H ?; destruct a; cbn in *; try assumption;
  rewrite E in H; discriminate.

Ltac mono_step :=
  lazymatch goal with
  | |- monotone (bind _ _) => apply mono_bind; [|intros ?]
  | |- monotone (req.cached _ _ _) => apply mono_cached; [mono_store|]
  | |- monotone (req.on_config _) => apply mono_on_config
  | |- monotone (if ?b then _ else _) => destruct b
  | |- monotone (match ?x with _ => _ end) => destruct x
  | |- monotone _ => let H := fresh in intros ? ? ? H; exact H
  end.

Lemma mono_name : monotone req.name.
Proof. unfold req.name. repeat mono_step. Qed.

Lemma mono_source_directory : monotone req.source_directory.
Proof. unfold req.source_directory. repeat mono_step. Qed.

Lemma mono_is_transitive : monotone req.is_transitive.
Proof. unfold req.is_transitive. repeat mono_step. Qed.

Lemma mono_is_editable : monotone req.is_editable.
Proof. unfold req.is_editable. repeat mono_step. Qed.

Lemma mono_is_direct : monotone req.is_direct.
Proof.
  unfold req.is_direct. repeat first [apply mono_is_transitive | mono_step].
Qed.

Lemma mono_is_wheel (w : World) : monotone (req.is_wheel w).
Proof.
  unfold req.is_wheel.
  repeat first [apply mono_source_directory | progress cbv zeta | mono_step].
Qed.

Lemma mono_sdist_metadata (w : World) : monotone (req.sdist_metadata w).
Proof.
  unfold req.sdist_metadata. repeat first [apply mono_is_wheel | mono_step].
Qed.

Lemma mono_wheel_metadata (w : World) : monotone (req.wheel_metadata w).
Proof.
  unfold req.wheel_metadata.
  repeat first [apply mono_is_wheel | apply mono_source_directory
               | progress cbv zeta | mono_step].
Qed.

Lemma mono_version (w : World) : monotone (req.version w).
Proof.
  unfold req.version.
  repeat first [apply mono_is_wheel | apply mono_sdist_metadata
               | apply mono_wheel_metadata | mono_step].
Qed.

Lemma mono_join_matching (w : World) (compiled : re.regex)
    (entries : list string) :
  monotone (req.join_matching w compiled entries).
Proof.
  induction entries as [|fn rest IH]; cbn [req.join_matching].
  - mono_step.
  - destruct (re.match_ true compiled fn); [|exact IH].
    apply mono_bind; [apply mono_on_config|]. intros d.
    apply mono_bind; [exact IH|]. intros found. mono_step.
Qed.

Lemma mono_related_archives (w : World) : monotone (req.related_archives w).
Proof.
  unfold req.related_archives.
  apply mono_cached; [mono_store|].
  apply mono_bind; [apply mono_name|]. intros n. cbv zeta.
  apply mono_bind; [apply mono_version|]. intros v.
  apply mono_bind; [unfold req.escape_of; repeat mono_step|]. intros p.
  apply mono_bind; [mono_step|]. intros compiled.
  apply mono_bind; [apply mono_on_config|]. intros d.
  apply mono_bind; [mono_step|]. intros entries.
  apply mono_join_matching.
Qed.

Lemma mono_last_modified (w : World) : monotone (req.last_modified w).
Proof.
  unfold req.last_modified.
  apply mono_cached; [mono_store|].
  apply mono_bind; [apply mono_related_archives|]. intros archives.
  apply mono_bind; [mono_step|]. intros mtimes. repeat mono_step.
Qed.

Lemma mono_read (w : World) (a : req.attribute) : monotone (req.read w a).
Proof.
  destruct a; cbn [req.read]; unfold req.returning;
    (apply mono_bind; [|intros ?; mono_step]);
    auto using mono_name, mono_version, mono_related_archives,
      mono_last_modified, mono_source_directory, mono_is_wheel,
      mono_is_transitive, mono_is_direct, mono_is_editable,
      mono_sdist_metadata, mono_wheel_metadata.
Qed.

Lemma mono_reads_in (steps : list (World * req.attribute)) (st : req.Store)
    (a : req.attribute) (v : req.value) :
  req.slot a (req.self st) = Some v ->
  req.slot a (req.self (reads_in steps st)) = Some v.
Proof.
  unfold reads_in. revert st.
  induction steps as [|[w' a'] rest IH]; intros st H; [exact H|].
  cbn [fold_left fst snd]. apply IH. apply mono_read. exact H.
Qed.

(** A cached attribute is returned as it is, in any world. *)
Lemma read_slot (w : World) (a : req.attribute) (st : req.Store)
    (v : req.value) :
  req.slot a (req.self st) = Some v ->
  req.read w a st = (inr v, st).
Proof.
  destruct a; cbn [req.slot req.read]; unfold req.returning, bind;
    [ unfold req.name | unfold req.version | unfold req.related_archives
    | unfold req.last_modified | unfold req.source_directory
    | unfold req.is_wheel | unfold req.is_transitive | unfold req.is_direct
    | unfold req.is_editable | unfold req.sdist_metadata
    | unfold req.wheel_metadata ];
    unfold req.cached, cached_property;
    match goal with
    | |- option_map _ ?s = _ -> _ => destruct s; cbn [option_map]
    end;
    intros [= <-]; reflexivity.
Qed.

(** A read that returns leaves its value in the descriptor. *)
Lemma read_fills (w : World) (a : req.attribute) (st : req.Store)
    (v : req.value) :
  fst (req.read w a st) = inr v ->
  req.slot a (req.self (snd (req.read w a st))) = Some v.
Proof.
  destruct a; cbn [req.slot req.read]; unfold req.returning, bind;
    [ unfold req.name | unfold req.version | unfold req.related_archives
    | unfold req.last_modified | unfold req.source_directory
    | unfold req.is_wheel | unfold req.is_transitive | unfold req.is_direct
    | unfold req.is_editable | unfold req.sdist_metadata
    | unfold req.wheel_metadata ];
    unfold req.cached, cached_property;
    match goal with
    | |- context [match ?s (req.self st) with _ => _ end] =>
        destruct (s (req.self st)) eqn:E
    end;
    try (cbn [fst snd ret]; intros [= <-]; rewrite E; reflexivity);
    match goal with
    | |- context [match ?f st with _ => _ end] =>
        destruct (f st) as [[e|x] st']
    end;
    cbn [fst snd ret req.self]; intros [= <-]; reflexivity.
Qed.

(** X11: once an attribute of a requirement has been read, every later read
    returns the same value: whatever was read in between, and in whatever
    worlds the reads are made (files changed or removed, the clock moved
    on, another working directory). *)
Theorem attributes_are_snapshots (w w' : World)
    (steps : list (World * req.attribute)) (a : req.attribute)
    (st : req.Store) (v : req.value) :
  fst (req.read w a st) = inr v ->
  fst (req.read w' a (reads_in steps (snd (req.read w a st)))) = inr v.
Proof.
  intros H. rewrite (read_slot w' a _ v); [reflexivity|].
  apply mono_reads_in. apply read_fills. exact H.
Qed.

Lemma attributes_are_snapshots_witness :
  let st := req.fresh example.settings
              (example.requirement "foo" "/build/foo") in
  let steps := [(scenario.later_world, req.RelatedArchives);
                (scenario.later_world, req.IsWheel);
                (example.world, req.Version)] in
  fst (req.read example.world req.LastModified st) = inr (req.VNum 2000)
  /\ fst (req.read scenario.later_world req.LastModified
            (reads_in steps (snd (req.read example.world req.LastModified st))))
     = inr (req.VNum 2000)
  /\ fst (req.read scenario.later_world req.LastModified st)
     = inl (UnknownDistributionFormat req.neither_text
              (req (example.requirement "foo" "/build/foo")) "/build/foo").
Proof.
  intros st steps.
  assert (H : fst (req.read example.world req.LastModified st)
              = inr (req.VNum 2000)) by (vm_compute; reflexivity).
  split; [exact H|]. split.
  - exact (attributes_are_snapshots example.world scenario.later_world steps
             req.LastModified st _ H).
  - vm_compute. reflexivity.
Defined.

(** ** Failures are not cached *)

Lemma kept_bind (a : req.attribute) {A B} (m : M req.Store A)
    (k : A -> M req.Store B) :
  keeps a m -> (forall x, keeps a (k x)) -> keeps a (bind m k).
Proof.
  intros Hm Hk st. unfold bind. specialize (Hm st).
  destruct (m st) as [[e|x] st']; cbn [snd] in *; [exact Hm|].
  rewrite Hk. exact Hm.
Qed.

Lemma kept_cached (a : req.attribute) {A}
    (slot : req.Requirement -> option A)
    (store : A -> req.Requirement -> req.Requirement) (func : M req.Store A) :
  (forall x s, req.slot a (store x s) = req.slot a s) ->
  keeps a func -> keeps a (req.cached slot store func).
Proof.
  intros Hstore Hf st. unfold req.cached, cached_property.
  destruct (slot (req.self st)); [reflexivity|]. specialize (Hf st).
  destruct (func st) as [[e|x] st']; cbn [snd req.self] in *; [exact Hf|].
  rewrite Hstore. exact Hf.
Qed.

Lemma kept_on_config (a : req.attribute) {A} (m : M config.Config A) :
  keeps a (req.on_config m).
Proof. intros st. unfold req.on_config. destruct (m _). reflexivity. Qed.

Ltac kept_step :=
  lazymatch goal with
  | |- keeps _ (bind _ _) => apply kept_bind; [|intros ?]
  | |- keeps _ (req.cached _ _ _) =>
      apply kept_cached; [intros ? ?; reflexivity|]
  | |- keeps _ (req.on_config _) => apply kept_on_config
  | |- keeps _ (if ?b then _ else _) => destruct b
  | |- keeps _ (match ?x with _ => _ end) => destruct x
  | |- keeps _ _ => intros ?; reflexivity
  end.

Lemma kept_name (a : req.attribute) :
  match a with req.Name => False | _ => True end -> keeps a req.name.
Proof.
  destruct a; try contradiction; intros _; unfold req.name; repeat kept_step.
Qed.

Lemma kept_source_directory (a : req.attribute) :
  match a with req.SourceDirectory => False | _ => True end ->
  keeps a req.source_directory.
Proof.
  destruct a; try contradiction; intros _; unfold req.source_directory;
    repeat kept_step.
Qed.

Lemma kept_is_transitive (a : req.attribute) :
  match a with req.IsTransitive => False | _ => True end ->
  keeps a req.is_transitive.
Proof.
  destruct a; try contradiction; intros _; unfold req.is_transitive;
    repeat kept_step.
Qed.

Lemma kept_is_wheel (w : World) (a : req.attribute) :
  match a with req.SourceDirectory | req.IsWheel => False | _ => True end ->
  keeps a (req.is_wheel w).
Proof.
  destruct a; try contradiction; intros _; unfold req.is_wheel;
    repeat first [apply kept_source_directory; exact I
                 | progress cbv zeta | kept_step].
Qed.

Lemma kept_sdist_metadata (w : World) (a : req.attribute) :
  match a with
  | req.SourceDirectory | req.IsWheel | req.SdistMetadata => False
  | _ => True
  end ->
  keeps a (req.sdist_metadata w).
Proof.
  destruct a; try contradiction; intros _; unfold req.sdist_metadata;
    repeat first [apply kept_is_wheel; exact I | kept_step].
Qed.

Lemma kept_wheel_metadata (w : World) (a : req.attribute) :
  match a with
  | req.SourceDirectory | req.IsWheel | req.WheelMetadata => False
  | _ => True
  end ->
  keeps a (req.wheel_metadata w).
Proof.
  destruct a; try contradiction; intros _; unfold req.wheel_metadata;
    repeat first [apply kept_is_wheel; exact I
                 | apply kept_source_directory; exact I
                 | progress cbv zeta | kept_step].
Qed.

Lemma kept_version (w : World) (a : req.attribute) :
  match a with
  | req.SourceDirectory | req.IsWheel | req.SdistMetadata
  | req.WheelMetadata | req.Version => False
  | _ => True
  end ->
  keeps a (req.version w).
Proof.
  destruct a; try contradiction; intros _; unfold req.version;
    repeat first [apply kept_is_wheel; exact I
                 | apply kept_sdist_metadata; exact I
                 | apply kept_wheel_metadata; exact I | kept_step].
Qed.

Lemma kept_join_matching (w : World) (a : req.attribute)
    (compiled : re.regex) (entries : list string) :
  keeps a (req.join_matching w compiled entries).
Proof.
  induction entries as [|fn rest IH]; cbn [req.join_matching].
  - intros st. reflexivity.
  - destruct (re.match_ true compiled fn); [|exact IH].
    apply kept_bind; [apply kept_on_config|]. intros d.
    apply kept_bind; [exact IH|]. intros found st. reflexivity.
Qed.

Lemma kept_related_archives (w : World) :
  keeps req.LastModified (req.related_archives w).
Proof.
  unfold req.related_archives.
  apply kept_cached; [intros ? ?; reflexivity|].
  apply kept_bind; [apply kept_name; exact I|]. intros n. cbv zeta.
  apply kept_bind; [apply kept_version; exact I|]. intros v.
  apply kept_bind; [unfold req.escape_of; repeat kept_step|]. intros p.
  apply kept_bind; [kept_step|]. intros compiled.
  apply kept_bind; [apply kept_on_config|]. intros d.
  apply kept_bind; [kept_step|]. intros entries.
  apply kept_join_matching.
Qed.

(** A cached property that raises leaves its own entry empty, when its
    body does not touch that entry. *)
Lemma failed_cached (a : req.attribute) {A} (inj : A -> req.value)
    (slot : req.Requirement -> option A)
    (store : A -> req.Requirement -> req.Requirement) (func : M req.Store A)
    (st : req.Store) (e : exception) :
  (forall s, req.slot a s = option_map inj (slot s)) ->
  keeps a func ->
  fst (req.returning inj (req.cached slot store func) st) = inl e ->
  req.slot a
    (req.self (snd (req.returning inj (req.cached slot store func) st)))
  = None.
Proof.
  intros Hslot Hf. specialize (Hf st). rewrite (Hslot (req.self st)) in Hf.
  unfold req.returning, bind, req.cached, cached_property.
  destruct (slot (req.self st)); [discriminate|]. cbn [option_map] in Hf.
  destruct (func st) as [[e'|x] st']; [|discriminate].
  intros _. exact Hf.
Qed.

(** X12: a read that raises caches nothing for the attribute, so that a
    later read computes it again; what was cached before the read stays
    cached. *)
Theorem failures_are_not_cached (w : World) (a : req.attribute)
    (st : req.Store) (e : exception) :
  fst (req.read w a st) = inl e ->
  req.slot a (req.self (snd (req.read w a st))) = None
  /\ req.slot a (req.self st) = None
  /\ forall b v, req.slot b (req.self st) = Some v ->
                 req.slot b (req.self (snd (req.read w a st))) = Some v.
Proof.
  intros H. split; [|split].
  - revert H. destruct a; cbn [req.read].
    + apply failed_cached; [reflexivity|]. repeat kept_step.
    + apply failed_cached; [reflexivity|].
      repeat first [apply kept_is_wheel; exact I
                   | apply kept_sdist_metadata; exact I
                   | apply kept_wheel_metadata; exact I | kept_step].
    + apply failed_cached; [reflexivity|].
      apply kept_bind; [apply kept_name; exact I|]. intros n. cbv zeta.
      apply kept_bind; [apply kept_version; exact I|]. intros v.
      apply kept_bind; [unfold req.escape_of; repeat kept_step|]. intros p.
      apply kept_bind; [kept_step|]. intros compiled.
      apply kept_bind; [apply kept_on_config|]. intros d.
      apply kept_bind; [kept_step|]. intros entries.
      apply kept_join_matching.
    + apply failed_cached; [reflexivity|].
      apply kept_bind; [apply kept_related_archives|]. intros archives.
      apply kept_bind; [kept_step|]. intros mtimes. repeat kept_step.
    + apply failed_cached; [reflexivity|]. repeat kept_step.
    + apply failed_cached; [reflexivity|].
      repeat first [apply kept_source_directory; exact I
                   | progress cbv zeta | kept_step].
    + apply failed_cached; [reflexivity|]. repeat kept_step.
    + apply failed_cached; [reflexivity|].
      repeat first [apply kept_is_transitive; exact I | kept_step].
    + apply failed_cached; [reflexivity|]. repeat kept_step.
    + apply failed_cached; [reflexivity|].
      repeat first [apply kept_is_wheel; exact I | kept_step].
    + apply failed_cached; [reflexivity|].
      repeat first [apply kept_is_wheel; exact I
                   | apply kept_source_directory; exact I
                   | progress cbv zeta | kept_step].
  - destruct (req.slot a (req.self st)) as [v|] eqn:E; [|reflexivity].
    rewrite (read_slot w a st v E) in H. discriminate.
  - intros b v Hb. apply mono_read. exact Hb.
Qed.

Lemma failures_are_not_cached_witness :
  let c := config.blank example.world true in
  let st := req.fresh c (example.requirement "foo" "/build/foo") in
  fst (req.read example.world req.LastModified st)
    = inl (OSError "/home/alice/.pip-accel/sources")
  /\ req.slot req.LastModified
       (req.self (snd (req.read example.world req.LastModified st))) = None
  /\ req.slot req.Version
       (req.self (snd (req.read example.world req.LastModified st)))
     = Some (req.VVal (PyStr "1.0")).
Proof.
  intros c st.
  assert (H : fst (req.read example.world req.LastModified st)
              = inl (OSError "/home/alice/.pip-accel/sources"))
    by (vm_compute; reflexivity).
  split; [exact H|]. split.
  - exact (proj1 (failures_are_not_cached example.world req.LastModified st
                    _ H)).
  - vm_compute. reflexivity.
Defined.

(** ** Names that differ in dashes, underscores and case *)

Lemma escape_name_nonempty (c : ascii) (rest : string) :
  req.escape_name (String c rest) <> "".
Proof.
  rewrite escape_name_step.
  destruct (is_dash_or_underscore c); [discriminate|].
  destruct (is_alnum c); discriminate.
Qed.

(** X13: [escape_name] gives two names the same pattern exactly when they
    have the same length and differ only in dashes standing for
    underscores: the escaping loses nothing else of the name. *)
Theorem escape_name_up_to_dash (n n' : string) :
  req.escape_name n = req.escape_name n'
  <-> pointwise same_up_to_dash n n' = true.
Proof.
  revert n'. induction n as [|c r IH]; intros [|c' r'].
  - split; reflexivity.
  - split; [|discriminate]. intros H. symmetry in H.
    apply escape_name_nonempty in H. contradiction.
  - split; [|discriminate]. intros H.
    apply escape_name_nonempty in H. contradiction.
  - cbn [pointwise]. rewrite andb_true_iff, <- IH.
    rewrite !escape_name_step. unfold same_up_to_dash.
    destruct (is_dash_or_underscore c) eqn:D, (is_dash_or_underscore c') eqn:D';
      cbn [andb]; rewrite ?orb_true_r, ?orb_false_r.
    + rewrite !append_cons, !append_nil. split.
      * intros [= H]. auto.
      * intros [_ ->]. reflexivity.
    + split.
      * destruct (is_alnum c') eqn:A'; rewrite !append_cons, !append_nil;
          intros [= H]; try discriminate. subst c'. discriminate.
      * intros [E _]. apply Ascii.eqb_eq in E. subst c'. congruence.
    + split.
      * destruct (is_alnum c) eqn:A; rewrite !append_cons, !append_nil;
          intros [= H]; try discriminate. subst c. discriminate.
      * intros [E _]. apply Ascii.eqb_eq in E. subst c'. congruence.
    + split.
      * destruct (is_alnum c) eqn:A, (is_alnum c') eqn:A';
          rewrite !append_cons, !append_nil; intros [= H1 H2]; subst.
        -- split; [apply Ascii.eqb_refl | assumption].
        -- discriminate.
        -- discriminate.
        -- split; [apply Ascii.eqb_refl | assumption].
      * intros [E ->]. apply Ascii.eqb_eq in E. subst c'. reflexivity.
Qed.

Lemma strip_itself (rel : ascii -> ascii -> bool) (s rest : string) :
  (forall c, rel c c = true) -> strip rel s (s ++ rest) = Some rest.
Proof.
  intros Hrefl. induction s as [|c s IH]; [reflexivity|].
  rewrite append_cons. cbn [strip]. rewrite Hrefl. exact IH.
Qed.

Lemma name_char_matches_refl (c : ascii) : name_char_matches c c = true.
Proof.
  unfold name_char_matches.
  destruct (is_dash_or_underscore c) eqn:D; [reflexivity | apply Ascii.eqb_refl].
Qed.

Lemma char_matches_refl (c : ascii) : char_matches c c = true.
Proof. apply Ascii.eqb_refl. Qed.

Lemma archive_name_matches_itself (n v ext : string) (extensions : list string) :
  In ext extensions -> ext <> ".whl" ->
  archive_name_matches n v extensions (n ++ "-" ++ v ++ ext) = true.
Proof.
  intros Hin Hne. unfold archive_name_matches.
  rewrite (strip_itself _ n _ name_char_matches_refl).
  rewrite append_cons, append_nil. cbn [Ascii.eqb Bool.eqb andb].
  rewrite (strip_itself _ v _ char_matches_refl).
  apply existsb_exists. exists ext. split.
  - unfold extension_choices.
    assert (Hf : In ext (List.filter (fun e => negb (String.eqb e ".whl"))
                                     extensions)).
    { apply filter_In. split; [exact Hin|].
      apply negb_true_iff, String.eqb_neq. exact Hne. }
    destruct (List.filter _ extensions); [destruct Hf | exact Hf].
  - replace ext with (ext ++ "") at 2.
    + rewrite (strip_itself _ ext _ char_matches_refl). reflexivity.
    + clear. induction ext as [|c e IH]; [reflexivity|].
      rewrite append_cons, IH. reflexivity.
Qed.

(** X14: the archive named after the requirement is always among the
    related archives: when the source index lists
    [NAME-VERSION.EXT] for one of the known extensions other than [.whl],
    the related archives include it. *)
Theorem own_archive_is_related (w : World) (c : config.Config)
    (r : InstallRequirement) (script : list req.attribute)
    (v si ext : string) (entries : list string) :
  let st := req.reads w script (req.fresh c r) in
  let fn := project_name (req r) ++ "-" ++ v ++ ext in
  fst (req.version w st) = inr (PyStr v) ->
  fst (config.source_index w c) = inr si ->
  listdir w si = inr entries ->
  In ext (ARCHIVE_EXTENSIONS w) -> ext <> ".whl" ->
  In fn entries ->
  exists archives,
    fst (req.related_archives w st) = inr archives
    /\ In (posixpath.join si fn) archives.
Proof.
  cbn zeta. intros Hv Hsi Hdir Hext Hne Hin.
  rewrite (related_archives_reads w c r script si Hsi), Hv, Hdir.
  eexists. split; [reflexivity|].
  apply in_map, filter_In. split; [exact Hin|].
  apply archive_name_matches_itself; assumption.
Qed.

Lemma own_archive_is_related_witness :
  let st := req.fresh example.settings
              (example.requirement "foo" "/build/foo") in
  exists archives,
    fst (req.related_archives example.world st) = inr archives
    /\ In "/data/sources/foo-1.0.tar.gz" archives.
Proof.
  intros st.
  refine (own_archive_is_related example.world example.settings
            (example.requirement "foo" "/build/foo") [] "1.0"
            "/data/sources" ".tar.gz"
            ["foo-1.0.tar.gz"; "Foo-1.0.zip"; "foo-1.0.whl"; "bar-2.0.tar.gz"]
            _ _ _ _ _ _).
  - vm_compute. reflexivity.
  - vm_compute. reflexivity.
  - vm_compute. reflexivity.
  - vm_compute. auto.
  - discriminate.
  - vm_compute. auto.
Defined.








(** ** The text of a requirement *)

Lemma name_cached_after (st : req.Store) (n : string) :
  fst (req.name st) = inr n ->
  req.cached_name (req.self (snd (req.name st))) = Some n.
Proof.
  unfold req.name, req.cached, cached_property.
  destruct (req.cached_name (req.self st)) eqn:E; cbn.
  - intros [= <-]. exact E.
  - intros [= <-]. reflexivity.
Qed.

(** X16: [str(requirement)] raises what reading the version raises, and
    nothing else; otherwise it is the name followed by the version in
    parentheses, with [None] for a source distribution whose metadata has
    no version. Afterwards the name is cached. *)
Theorem str_outcome (w : World) (c : config.Config) (r : InstallRequirement)
    (script : list req.attribute) :
  let st := req.reads w script (req.fresh c r) in
  fst (__str__ w st)
  = match fst (req.version w st) with
    | inl e => inl e
    | inr v => inr (project_name (req r) ++ " (" ++ py_str v ++ ")")
    end
  /\ req.cached_name (req.self (snd (__str__ w st)))
     = Some (project_name (req r)).
Proof.
  cbn zeta.
  pose proof (reads_coherent w c r script _ (fresh_coherent w c r)) as H.
  destruct (stable_run w c r _ _ (stable_version w c r) H) as (s0 & E0 & _).
  rewrite E0. cbn [fst].
  destruct (stable_run w c r _ _ (stable_name w c r) H) as (s1 & E1 & H1).
  rewrite name_fresh in E1.
  assert (Hn : req.cached_name (req.self s1) = Some (project_name (req r))).
  { pose proof (name_cached_after (req.reads w script (req.fresh c r))
                  (project_name (req r))) as Hf.
    rewrite E1 in Hf. exact (Hf eq_refl). }
  destruct (stable_run w c r _ _ (stable_version w c r) H1) as (s2 & E2 & _).
  pose proof (mono_version w s1 req.Name (req.VStr (project_name (req r))))
    as Hm.
  cbn [req.slot] in Hm. rewrite Hn in Hm. specialize (Hm eq_refl).
  rewrite E2 in Hm. cbn [snd] in Hm.
  assert (Hrun : __str__ w (req.reads w script (req.fresh c r))
                 = (match fst (req.version w (req.fresh c r)) with
                    | inl e => inl e
                    | inr v =>
                        inr (project_name (req r) ++ " (" ++ py_str v ++ ")")
                    end, s2)).
  { unfold __str__, bind. rewrite E1, E2.
    destruct (fst (req.version w (req.fresh c r))); reflexivity. }
  rewrite Hrun. cbn [fst snd]. split; [reflexivity|].
  destruct (req.cached_name (req.self s2)); [|discriminate].
  cbn [option_map] in Hm. congruence.
Qed.
